(** * Dealer feasibility projection engine

    A shallow embedding of [src/calculations/financial.py]
    ([FinancialCalculator]) and [src/calculations/sales.py]
    ([SalesCalculator.run_scenario] and the two per-product projectors),
    together with the properties of the engine that the specification states.
    Further down: [generate_financial_summary], [project_sales] with
    [Scenario.get_default_growth_rate], and [safely_create_scenario] of
    [utils.py], with properties read off the code.

    Numbers.  Python [float]s (and the [int]s mixed with them) are read as
    exact rationals [Q]: there is no rounding error, overflow or NaN in this
    model, and results are compared with [==] ([Qeq]).  The only rounding is
    the one the code asks for, [round(x, 2)].

    Errors.  A Python exception is a [Raise]; [try/except] is [try_except].

    Dictionaries are [gmap]s; the keys of the year tables are [Z]. *)

From Stdlib Require Import ZArith QArith Qround Qabs Qpower Lia Lqa Qfield.
From stdpp Require Import gmap strings list sorting.

Open Scope Q_scope.

(** ** Python values and exceptions *)

Inductive exn : Type :=
  | ZeroDivisionError
  | KeyError
  | IndexError
  | TypeError.

Inductive result (A : Type) : Type :=
  | Ok (a : A)
  | Raise (e : exn).

Arguments Ok {A} a.
Arguments Raise {A} e.

Definition bind {A B : Type} (r : result A) (k : A -> result B) : result B :=
  match r with
  | Ok a => k a
  | Raise e => Raise e
  end.

Notation "'let!' x ':=' r 'in' k" := (bind r (fun x => k))
  (at level 10, x pattern, r at level 100, k at level 200).

(** [try: body except: handler] where the handler yields a plain value. *)
Definition try_except {A : Type} (body : result A) (handler : A) : A :=
  match body with
  | Ok a => a
  | Raise _ => handler
  end.

(** [for x in l: s = body(s, x)], stopping at the first exception. *)
Fixpoint for_each {S A : Type} (l : list A) (body : S -> A -> result S) (s : S)
  : result S :=
  match l with
  | [] => Ok s
  | x :: l' => let! s' := body s x in for_each l' body s'
  end.

(** [[f(x) for x in l]] *)
Fixpoint list_comp {A B : Type} (f : A -> result B) (l : list A) : result (list B) :=
  match l with
  | [] => Ok []
  | x :: l' => let! y := f x in let! ys := list_comp f l' in Ok (y :: ys)
  end.

(** [enumerate(l)], counting from [t]. *)
Fixpoint enumerate_from {A : Type} (t : Z) (l : list A) : list (Z * A) :=
  match l with
  | [] => []
  | x :: l' => (t, x) :: enumerate_from (t + 1) l'
  end.

Definition enumerate {A : Type} (l : list A) : list (Z * A) := enumerate_from 0 l.

(** [len(l)] as a Python integer. *)
Definition len {A : Type} (l : list A) : Z := Z.of_nat (length l).

(** ** Arithmetic as Python does it *)

Definition Qltb (a b : Q) : bool := negb (Qle_bool b a).

(** [max(a, b)] and [min(a, b)]: the first argument wins a tie. *)
Definition py_max (a b : Q) : Q := if Qltb a b then b else a.
Definition py_min (a b : Q) : Q := if Qltb b a then b else a.

(** [a / b] *)
Definition py_truediv (a b : Q) : result Q :=
  if Qeq_bool b 0 then Raise ZeroDivisionError else Ok (a / b).

(** [b ** e] for an integer exponent: zero to a negative power raises.  A
    power beyond the float range, where Python raises [OverflowError], is a
    number here like any other. *)
Definition py_pow (b : Q) (e : Z) : result Q :=
  if (e <? 0)%Z && Qeq_bool b 0 then Raise ZeroDivisionError else Ok (b ^ e).

(** [a % b] on integers; the sign of the result follows [b], as [Z.modulo]. *)
Definition py_mod (a b : Z) : result Z :=
  if (b =? 0)%Z then Raise ZeroDivisionError else Ok (a mod b)%Z.

(** [sum(l)] *)
Definition py_sum (l : list Q) : Q := foldl Qplus 0 l.

(** Nearest integer, ties to the even one. *)
Definition round_half_even (q : Q) : Z :=
  let f := Qfloor q in
  match Qcompare (q - inject_Z f) (1 # 2) with
  | Lt => f
  | Gt => (f + 1)%Z
  | Eq => if Z.even f then f else (f + 1)%Z
  end.

(** [round(q, 2)] of the exact number [q]: a tie goes to the even
    neighbour.  (The float nearest to a tie lies on one side of it, so at a
    tie Python may answer the other neighbour.) *)
Definition round2 (q : Q) : Q := inject_Z (round_half_even (q * 100)) / 100.

(** ** financial.py: FinancialCalculator *)

Section Financial.

(** [np.irr], taken as given: [None] stands for a NaN or infinite answer and
    for an exception, all of which [calculate_irr] turns into [None]. *)
Variable np_irr : list Q -> option Q.

(** [x ** y] for a float exponent [y], as used by the MIRR formula. *)
Variable float_pow : Q -> Q -> Q.

Definition npv_step (discount_rate : Q) (npv : Q) (tcf : Z * Q) : result Q :=
  let '(t, cf) := tcf in
  let! p := py_pow (1 + discount_rate) t in
  let! d := py_truediv cf p in
  Ok (npv + d).

Definition calculate_npv (cash_flows : list Q) (discount_rate : Q) : result Q :=
  let! npv := for_each (enumerate cash_flows) (npv_step discount_rate) 0 in
  Ok (round2 npv).

Definition has_negative (cash_flows : list Q) : bool :=
  existsb (fun cf => Qltb cf 0) cash_flows.

Definition has_positive (cash_flows : list Q) : bool :=
  existsb (fun cf => Qltb 0 cf) cash_flows.

Definition calculate_irr (cash_flows : list Q) : option Q :=
  if negb (has_negative cash_flows && has_positive cash_flows) then None
  else
    match np_irr cash_flows with
    | None => None
    | Some irr => Some (round2 (irr * 100))
    end.

(** The loop of [calculate_payback_period]; [cf] is [cash_flows[i]]. *)
Fixpoint payback_loop (cumulative : Q) (flows : list (Z * Q)) : option Q :=
  match flows with
  | [] => None
  | (i, cf) :: rest =>
      let cumulative := cumulative + cf in
      if Qle_bool 0 cumulative then
        if (0 <? i)%Z && negb (Qeq_bool cf 0) then
          let fraction := (0 - (cumulative - cf)) / cf in
          Some (round2 (inject_Z i - 1 + fraction))
        else Some (inject_Z i)
      else payback_loop cumulative rest
  end.

Definition calculate_payback_period (cash_flows : list Q) : option Q :=
  payback_loop 0 (enumerate cash_flows).

Definition discount_flow (discount_rate : Q) (tcf : Z * Q) : result Q :=
  let '(t, cf) := tcf in
  let! p := py_pow (1 + discount_rate) t in
  py_truediv cf p.

Definition calculate_discounted_payback_period
    (cash_flows : list Q) (discount_rate : Q) : result (option Q) :=
  let! discounted_flows := list_comp (discount_flow discount_rate) (enumerate cash_flows) in
  Ok (payback_loop 0 (enumerate discounted_flows)).

(** [cumulative_cash_flows]: the running sums, in order. *)
Fixpoint cumulative_from (cumulative : Q) (cash_flows : list Q) : list Q :=
  match cash_flows with
  | [] => []
  | cf :: rest => (cumulative + cf) :: cumulative_from (cumulative + cf) rest
  end.

Definition terminal_value_step (reinvestment_rate : Q) (n : Z)
    (terminal_value : Q) (tcf : Z * Q) : result Q :=
  let '(t, cf) := tcf in
  if Qltb 0 cf then
    let! p := py_pow (1 + reinvestment_rate) (n - 1 - t) in
    Ok (terminal_value + cf * p)
  else Ok terminal_value.

Definition pv_negative_step (discount_rate : Q)
    (pv_negative : Q) (tcf : Z * Q) : result Q :=
  let '(t, cf) := tcf in
  if Qltb cf 0 then
    let! p := py_pow (1 + discount_rate) t in
    let! d := py_truediv (Qabs cf) p in
    Ok (pv_negative + d)
  else Ok pv_negative.

(** The body of the [try] block that computes MIRR. *)
Definition mirr_body (cash_flows : list Q) (discount_rate reinvestment_rate : Q)
  : result Q :=
  let positive_flows := map (py_max 0) cash_flows in
  let negative_flows := map (py_min 0) cash_flows in
  if Qeq_bool (py_sum positive_flows) 0 || Qeq_bool (py_sum negative_flows) 0 then Ok 0
  else
    let! terminal_value :=
      for_each (enumerate positive_flows)
               (terminal_value_step reinvestment_rate (len cash_flows)) 0 in
    let! pv_negative :=
      for_each (enumerate negative_flows) (pv_negative_step discount_rate) 0 in
    if Qltb 0 terminal_value && Qltb 0 pv_negative then
      let! ratio := py_truediv terminal_value pv_negative in
      let! exponent := py_truediv 1 (inject_Z (len cash_flows - 1)) in
      Ok (float_pow ratio exponent - 1)
    else Ok 0.

(** The tuple [calculate_metrics] returns:
    [(npv, irr, payback, discounted_cash_flows, cumulative_cash_flows, mirr)].
    [irr] and [payback] are typed as nullable so that "is it [None]?" can be
    asked of them; the code never leaves [None] there. *)
Definition metrics : Type := (Q * option Q * option Q * list Q * list Q * Q)%type.

Definition calculate_metrics (cash_flows : list Q) (discount_rate : Q)
    (reinvestment_rate : option Q) : result metrics :=
  let! npv := calculate_npv cash_flows discount_rate in
  let irr_result := calculate_irr cash_flows in
  let irr := match irr_result with Some x => x / 100 | None => 0 end in
  let payback :=
    match calculate_payback_period cash_flows with
    | Some p => p
    | None => inject_Z (len cash_flows)
    end in
  let! discounted_cash_flows :=
    list_comp (discount_flow discount_rate) (enumerate cash_flows) in
  let cumulative_cash_flows := cumulative_from 0 cash_flows in
  let reinvestment_rate :=
    match reinvestment_rate with Some r => r | None => discount_rate end in
  let mirr := try_except (mirr_body cash_flows discount_rate reinvestment_rate) 0 in
  Ok (npv, Some irr, Some payback, discounted_cash_flows, cumulative_cash_flows, mirr).

End Financial.

Definition metrics_npv (m : metrics) : Q := let '(npv, _, _, _, _, _) := m in npv.
Definition metrics_irr (m : metrics) : option Q := let '(_, irr, _, _, _, _) := m in irr.
Definition metrics_payback (m : metrics) : option Q := let '(_, _, p, _, _, _) := m in p.
Definition metrics_cumulative (m : metrics) : list Q := let '(_, _, _, _, c, _) := m in c.

(** ** models: the records the engine reads *)

(** The values a duck-typed field is given in practice. *)
Inductive pyval : Type :=
  | PyInt (z : Z)
  | PyFloat (q : Q)
  | PyNone.

(** [float(v)]; [None] when Python raises [TypeError].  Integers are taken
    to fit a float. *)
Definition py_float (v : pyval) : option Q :=
  match v with
  | PyInt z => Some (inject_Z z)
  | PyFloat q => Some q
  | PyNone => None
  end.

(** A per-product schedule: a [dict] from year to rate, or anything else. *)
Inductive schedule : Type :=
  | Mapping (m : gmap Z Q)
  | Scalar (v : pyval).

(** One entry of [dealer.rental_streams] as the rental loop of
    [run_scenario] reads it: a [dict] whose keys may be absent.  (The
    dataclass annotates the field as a dictionary from year to amount and
    defaults it to the empty one, which is the empty list here.) *)
Record rental_stream : Type := {
  start_year : option Z;
  end_year : option Z;
  monthly_rent : option Q
}.

(** The fields of [DealerOutlet] that [run_scenario] reads. *)
Record DealerOutlet : Type := {
  pmg_sales : Q;
  hsd_sales : Q;
  hobc_sales : Q;
  lube_sales : Q;
  initial_investment : Q;
  operating_costs : Q;
  rental_streams : list rental_stream
}.

(** The fields of [Scenario] that [run_scenario] reads or writes. *)
Record Scenario : Type := {
  discount_rate : Q;
  inflation_rate : Q;
  analysis_years : pyval;
  default_growth_rates : gmap string schedule;
  default_margins : gmap string schedule;
  tax_rate : Q;
  signage_maintenance : Q;
  signage_maintenance_year : Z;
  other_maintenance : Q;
  other_maintenance_year : Z;
  insurance_rates : gmap string Q
}.

(** Attribute and item assignment on the caller's scenario object. *)
Definition set_analysis_years (s : Scenario) (v : pyval) : Scenario :=
  {| discount_rate := discount_rate s;
     inflation_rate := inflation_rate s;
     analysis_years := v;
     default_growth_rates := default_growth_rates s;
     default_margins := default_margins s;
     tax_rate := tax_rate s;
     signage_maintenance := signage_maintenance s;
     signage_maintenance_year := signage_maintenance_year s;
     other_maintenance := other_maintenance s;
     other_maintenance_year := other_maintenance_year s;
     insurance_rates := insurance_rates s |}.

Definition set_growth_rates (s : Scenario) (product : string) (v : schedule) : Scenario :=
  {| discount_rate := discount_rate s;
     inflation_rate := inflation_rate s;
     analysis_years := analysis_years s;
     default_growth_rates := <[product := v]> (default_growth_rates s);
     default_margins := default_margins s;
     tax_rate := tax_rate s;
     signage_maintenance := signage_maintenance s;
     signage_maintenance_year := signage_maintenance_year s;
     other_maintenance := other_maintenance s;
     other_maintenance_year := other_maintenance_year s;
     insurance_rates := insurance_rates s |}.

Definition set_margins (s : Scenario) (product : string) (v : schedule) : Scenario :=
  {| discount_rate := discount_rate s;
     inflation_rate := inflation_rate s;
     analysis_years := analysis_years s;
     default_growth_rates := default_growth_rates s;
     default_margins := <[product := v]> (default_margins s);
     tax_rate := tax_rate s;
     signage_maintenance := signage_maintenance s;
     signage_maintenance_year := signage_maintenance_year s;
     other_maintenance := other_maintenance s;
     other_maintenance_year := other_maintenance_year s;
     insurance_rates := insurance_rates s |}.

(** ** sales.py: the per-product projectors *)

(** [d[k]] and [d.get(k, dflt)] *)
Definition getitem (d : gmap Z Q) (k : Z) : result Q :=
  match d !! k with
  | Some v => Ok v
  | None => Raise KeyError
  end.

Definition dict_get (d : gmap Z Q) (k : Z) (dflt : Q) : Q := default dflt (d !! k).

(** [l[0]] and [l[-1]] *)
Definition list_first (l : list Z) : result Z :=
  match l with
  | [] => Raise IndexError
  | x :: _ => Ok x
  end.

Definition list_last (l : list Z) : result Z :=
  match last l with
  | Some x => Ok x
  | None => Raise IndexError
  end.

(** [max(l, default=None)] and [min(l, default=None)] *)
Definition max_default (l : list Z) : option Z :=
  match l with
  | [] => None
  | y :: l' => Some (foldl Z.max y l')
  end.

Definition min_default (l : list Z) : option Z :=
  match l with
  | [] => None
  | y :: l' => Some (foldl Z.min y l')
  end.

(** [d = {}; for year in l: d[year] = value(year)], for a value that does not
    read [d]. *)
Definition fill_years (l : list Z) (value : Z -> result Q) : result (gmap Z Q) :=
  for_each l (fun d year => let! v := value year in Ok (<[year := v]> d)) ∅.

(** [{year: rate for year in range(1, years + 1)}] *)
Definition uniform_table (rate : Q) (years : Z) : gmap Z Q :=
  list_to_map ((fun year => (year, rate)) <$> seqZ 1 years).

(** [sorted([int(year) for year in table.keys() if int(year) <= years])] *)
Definition defined_years_of (table : gmap Z Q) (years : Z) : list Z :=
  merge_sort Z.le (filter (fun year => (year <= years)%Z) (fst <$> map_to_list table)).

(** The body of the "fill in missing years" loop for one [year]. *)
Definition interpolate_year (table : gmap Z Q) (defined_years : list Z) (year : Z)
  : result Q :=
  match table !! year with
  | Some v => Ok v
  | None =>
      let lower_year := max_default (filter (fun y => (y < year)%Z) defined_years) in
      let upper_year := min_default (filter (fun y => (y > year)%Z) defined_years) in
      match lower_year, upper_year with
      | None, _ =>
          let! k := list_first defined_years in getitem table k
      | Some _, None =>
          let! k := list_last defined_years in getitem table k
      | Some lower_year, Some upper_year =>
          let! lower_rate := getitem table lower_year in
          let! upper_rate := getitem table upper_year in
          let! ratio := py_truediv (inject_Z (year - lower_year))
                                   (inject_Z (upper_year - lower_year)) in
          Ok (lower_rate + (upper_rate - lower_rate) * ratio)
      end
  end.

(** "Ensure growth_rates is a dictionary": a non-dict schedule becomes a
    uniform table, of its own value if [float] accepts it. *)
Definition as_table (default_value : Q) (rates : schedule) (years : Z) : gmap Z Q :=
  match rates with
  | Mapping m => m
  | Scalar v =>
      match py_float v with
      | Some fixed_rate => uniform_table fixed_rate years
      | None => uniform_table default_value years
      end
  end.

(** The dense table ([all_growth_rates], [all_margins]) both projectors build
    with the same code: normalise a non-dict schedule, list the defined years,
    fall back to [{1: default_value}] when there is none, then fill every
    year of [1..years]. *)
Definition dense_table (default_value : Q) (rates : schedule) (years : Z)
  : result (gmap Z Q) :=
  let table := as_table default_value rates years in
  let defined_years := defined_years_of table years in
  let '(defined_years, table) :=
    match defined_years with
    | [] => ([1%Z], {[ 1%Z := default_value ]})
    | _ => (defined_years, table)
    end in
  fill_years (seqZ 1 years) (interpolate_year table defined_years).

Definition calculate_product_sales (base_sales : Q) (growth_rates : schedule) (years : Z)
  : result (gmap Z Q) :=
  let annual_base := base_sales * 365 in
  let! all_growth_rates := dense_table (5 # 100) growth_rates years in
  for_each (seqZ 1 years)
    (fun yearly_sales year =>
       let! previous_sales := getitem yearly_sales (year - 1) in
       let! growth_rate := getitem all_growth_rates year in
       Ok (<[year := previous_sales * (1 + growth_rate)]> yearly_sales))
    {[ 0%Z := annual_base ]}.

(** The margin the revenue loop uses for [year]. *)
Definition revenue_margin (all_margins : gmap Z Q) (inflation_rate : Q) (year : Z)
  : result Q :=
  if (year =? 0)%Z then Ok (dict_get all_margins 1 5)
  else
    let base_margin := dict_get all_margins year (dict_get all_margins 1 5) in
    let! factor := py_pow (1 + inflation_rate) (year - 1) in
    Ok (base_margin * factor).

Definition revenue_year (sales_volumes all_margins : gmap Z Q) (inflation_rate : Q)
    (year : Z) : result Q :=
  let! margin := revenue_margin all_margins inflation_rate year in
  let sales := dict_get sales_volumes year 0 in
  Ok (sales * margin).

Definition calculate_product_revenue (sales_volumes : gmap Z Q) (margins : schedule)
    (years : Z) (inflation_rate : Q) : result (gmap Z Q) :=
  let! all_margins := dense_table 5 margins years in
  fill_years (seqZ 0 (years + 1)) (revenue_year sales_volumes all_margins inflation_rate).

(** ** sales.py: run_scenario *)

(** The [yearly_data] dictionary of the result. *)
Record YearlyData : Type := {
  yd_pmg_sales : gmap Z Q;
  yd_hsd_sales : gmap Z Q;
  yd_hobc_sales : gmap Z Q;
  yd_lube_sales : gmap Z Q;
  yd_pmg_revenue : gmap Z Q;
  yd_hsd_revenue : gmap Z Q;
  yd_hobc_revenue : gmap Z Q;
  yd_lube_revenue : gmap Z Q;
  yd_total_revenue : gmap Z Q;
  yd_operating_costs : gmap Z Q;
  yd_maintenance : gmap Z Q;
  yd_insurance : gmap Z Q;
  yd_rental_income : gmap Z Q
}.

(** The [results] dictionary [run_scenario] returns. *)
Record Results : Type := {
  res_npv : Q;
  res_irr : option Q;
  res_payback_period : option Q;
  res_mirr : Q;
  res_cash_flows : list Q;
  res_discounted_cash_flows : list Q;
  res_cumulative_cash_flows : list Q;
  res_yearly_data : YearlyData;
  res_initial_investment : Q;
  res_years : Z
}.

Definition products : list string := ["pmg"; "hsd"; "hobc"; "lube"]%string.

(** [default_values.get(product, 5.0)] *)
Definition default_values : gmap string Q :=
  {[ "pmg"%string := 5; "hsd"%string := 4; "hobc"%string := 6; "lube"%string := 100 ]}.

Definition default_margin_of (product : string) : Q := default 5 (default_values !! product).

(** "Ensure analysis_years is an integer". *)
Definition ensure_analysis_years (scenario : Scenario) : Scenario :=
  match analysis_years scenario with
  | PyInt _ => scenario
  | _ => set_analysis_years scenario (PyInt 15)
  end.

(** One turn of the loop "ensure growth rates and margins are structured
    correctly": the scenario object after the turn for [product]. *)
Definition ensure_growth_rates (scenario : Scenario) (product : string) : Scenario :=
  match default_growth_rates scenario !! product with
  | None => set_growth_rates scenario product (Mapping {[ 1%Z := 5 # 100 ]})
  | Some (Mapping _) => scenario
  | Some (Scalar v) =>
      match py_float v with
      | Some rate => set_growth_rates scenario product (Mapping {[ 1%Z := rate ]})
      | None => set_growth_rates scenario product (Mapping {[ 1%Z := 5 # 100 ]})
      end
  end.

Definition ensure_margins (scenario : Scenario) (product : string) : Scenario :=
  match default_margins scenario !! product with
  | None => set_margins scenario product (Mapping {[ 1%Z := default_margin_of product ]})
  | Some (Mapping _) => scenario
  | Some (Scalar v) =>
      match py_float v with
      | Some margin => set_margins scenario product (Mapping {[ 1%Z := margin ]})
      | None => set_margins scenario product (Mapping {[ 1%Z := default_margin_of product ]})
      end
  end.

Definition ensure_product (scenario : Scenario) (product : string) : Scenario :=
  ensure_margins (ensure_growth_rates scenario product) product.

(** The scenario object as [run_scenario] leaves it. *)
Definition normalize_scenario (scenario : Scenario) : Scenario :=
  foldl ensure_product (ensure_analysis_years scenario) products.

(** [scenario.default_growth_rates.get(product, {1: dflt})] *)
Definition schedule_get (d : gmap string schedule) (product : string) (dflt : Q) : schedule :=
  default (Mapping {[ 1%Z := dflt ]}) (d !! product).

(** [range(n)] needs an integer. *)
Definition as_int (v : pyval) : result Z :=
  match v with
  | PyInt z => Ok z
  | _ => Raise TypeError
  end.

(** [(1 + inflation_rate) ** (year - 1)] *)
Definition inflation_factor (scenario : Scenario) (year : Z) : result Q :=
  py_pow (1 + inflation_rate scenario) (year - 1).

Definition total_revenue_year (pmg_revenue hsd_revenue hobc_revenue lube_revenue : gmap Z Q)
    (year : Z) : result Q :=
  Ok (dict_get pmg_revenue year 0 + dict_get hsd_revenue year 0
      + dict_get hobc_revenue year 0 + dict_get lube_revenue year 0).

Definition operating_costs_year (dealer : DealerOutlet) (scenario : Scenario) (year : Z)
  : result Q :=
  if (year =? 0)%Z then Ok 0
  else
    let! factor := inflation_factor scenario year in
    Ok (operating_costs dealer * 12 * factor).

Definition maintenance_year (scenario : Scenario) (years year : Z) : result Q :=
  let maintenance := 0 in
  let! signage_due :=
    if (0 <? year)%Z then
      let! r := py_mod year (signage_maintenance_year scenario) in
      Ok ((r =? 0)%Z && (year <=? years)%Z)
    else Ok false in
  let! maintenance :=
    if signage_due : bool then
      let! factor := inflation_factor scenario year in
      Ok (maintenance + signage_maintenance scenario * factor)
    else Ok maintenance in
  if (year =? other_maintenance_year scenario)%Z then
    let! factor := inflation_factor scenario year in
    Ok (maintenance + other_maintenance scenario * factor)
  else Ok maintenance.

Definition insurance_year (dealer : DealerOutlet) (scenario : Scenario) (year : Z)
  : result Q :=
  let insurance_rate := default (1 # 100) (insurance_rates scenario !! "property"%string) in
  if (year =? 0)%Z then Ok 0
  else
    let! factor := inflation_factor scenario year in
    Ok (initial_investment dealer * insurance_rate * factor).

(** One stream's contribution to [rental_income[year]]. *)
Definition rental_step (scenario : Scenario) (years year : Z)
    (income : Q) (stream : rental_stream) : result Q :=
  let start := default 1%Z (start_year stream) in
  let stop := default years (end_year stream) in
  let rent := default 0 (monthly_rent stream) in
  if (start <=? year)%Z && (year <=? stop)%Z then
    let! factor := inflation_factor scenario year in
    Ok (income + rent * 12 * factor)
  else Ok income.

Definition rental_income_year (dealer : DealerOutlet) (scenario : Scenario) (years year : Z)
  : result Q :=
  for_each (rental_streams dealer) (rental_step scenario years year) 0.

(** The cash flow appended for [year] (1..years). *)
Definition net_cash_flow (total_revenue operating_costs maintenance insurance rental_income
    : gmap Z Q) (tax_rate : Q) (year : Z) : Q :=
  let cf := dict_get total_revenue year 0
            - dict_get operating_costs year 0
            - dict_get maintenance year 0
            - dict_get insurance year 0
            + dict_get rental_income year 0 in
  let taxable_income := py_max 0 cf in
  let tax := taxable_income * tax_rate in
  cf - tax.

Section RunScenario.

Variable np_irr : list Q -> option Q.
Variable float_pow : Q -> Q -> Q.

(** Everything [run_scenario] does after the scenario object is normalised;
    [scenario] is the normalised object. *)
Definition run_scenario_body (dealer : DealerOutlet) (scenario : Scenario) : result Results :=
  let! years := as_int (analysis_years scenario) in
  let growth := default_growth_rates scenario in
  let margins := default_margins scenario in
  let! pmg_sales := calculate_product_sales (pmg_sales dealer) (schedule_get growth "pmg" (5 # 100)) years in
  let! hsd_sales := calculate_product_sales (hsd_sales dealer) (schedule_get growth "hsd" (5 # 100)) years in
  let! hobc_sales := calculate_product_sales (hobc_sales dealer) (schedule_get growth "hobc" (6 # 100)) years in
  let! lube_sales := calculate_product_sales (lube_sales dealer) (schedule_get growth "lube" (1 # 100)) years in
  let! pmg_revenue := calculate_product_revenue pmg_sales (schedule_get margins "pmg" 5) years (inflation_rate scenario) in
  let! hsd_revenue := calculate_product_revenue hsd_sales (schedule_get margins "hsd" 4) years (inflation_rate scenario) in
  let! hobc_revenue := calculate_product_revenue hobc_sales (schedule_get margins "hobc" 6) years (inflation_rate scenario) in
  let! lube_revenue := calculate_product_revenue lube_sales (schedule_get margins "lube" 100) years (inflation_rate scenario) in
  let! total_revenue :=
    fill_years (seqZ 0 (years + 1))
               (total_revenue_year pmg_revenue hsd_revenue hobc_revenue lube_revenue) in
  let! operating_costs :=
    fill_years (seqZ 0 (years + 1)) (operating_costs_year dealer scenario) in
  let! maintenance :=
    fill_years (seqZ 0 (years + 1)) (maintenance_year scenario years) in
  let! insurance :=
    fill_years (seqZ 0 (years + 1)) (insurance_year dealer scenario) in
  let! rental_income :=
    fill_years (seqZ 0 (years + 1)) (rental_income_year dealer scenario years) in
  let cash_flows :=
    (- initial_investment dealer)
    :: (net_cash_flow total_revenue operating_costs maintenance insurance rental_income
                       (tax_rate scenario)
        <$> seqZ 1 years) in
  let! m := calculate_metrics np_irr float_pow cash_flows (discount_rate scenario) None in
  let '(npv, irr, payback_period, discounted_cash_flows, cumulative_cash_flows, mirr) := m in
  let yearly_data :=
    {| yd_pmg_sales := pmg_sales;
       yd_hsd_sales := hsd_sales;
       yd_hobc_sales := hobc_sales;
       yd_lube_sales := lube_sales;
       yd_pmg_revenue := pmg_revenue;
       yd_hsd_revenue := hsd_revenue;
       yd_hobc_revenue := hobc_revenue;
       yd_lube_revenue := lube_revenue;
       yd_total_revenue := total_revenue;
       yd_operating_costs := operating_costs;
       yd_maintenance := maintenance;
       yd_insurance := insurance;
       yd_rental_income := rental_income |} in
  Ok {| res_npv := npv;
        res_irr := irr;
        res_payback_period := payback_period;
        res_mirr := mirr;
        res_cash_flows := cash_flows;
        res_discounted_cash_flows := discounted_cash_flows;
        res_cumulative_cash_flows := cumulative_cash_flows;
        res_yearly_data := yearly_data;
        res_initial_investment := initial_investment dealer;
        res_years := years |}.

(** [run_scenario(dealer, scenario)]: what is returned or raised, and the
    caller's scenario object afterwards.  The [except] clause logs and
    re-raises, so an exception leaves the object as normalised too. *)
Definition run_scenario (dealer : DealerOutlet) (scenario : Scenario)
  : result Results * Scenario :=
  let scenario := normalize_scenario scenario in
  (run_scenario_body dealer scenario, scenario).

End RunScenario.

(** ** The MIRR ingredients in the words of the specification *)





(** ** Notions the statements use *)

(** [k] is a defined year of the schedule [m] for the horizon [H]. *)
Definition defined_key (m : gmap Z Q) (H k : Z) : Prop :=
  is_Some (m !! k) /\ (k <= H)%Z.

(** [lo] is the nearest defined year below [y]; [up] the nearest above. *)
Definition nearest_below (m : gmap Z Q) (H y lo : Z) : Prop :=
  defined_key m H lo /\ (lo < y)%Z
  /\ forall k, defined_key m H k -> (k < y)%Z -> (k <= lo)%Z.

Definition nearest_above (m : gmap Z Q) (H y up : Z) : Prop :=
  defined_key m H up /\ (y < up)%Z
  /\ forall k, defined_key m H k -> (y < k)%Z -> (up <= k)%Z.

Definition none_below (m : gmap Z Q) (H y : Z) : Prop :=
  forall k, defined_key m H k -> ~ (k < y)%Z.

Definition none_above (m : gmap Z Q) (H y : Z) : Prop :=
  forall k, defined_key m H k -> ~ (y < k)%Z.

(** What the interpolation loop relies on: a non-empty increasing list of
    years, each of them a key of the table. *)
Definition years_known (table : gmap Z Q) (defined_years : list Z) : Prop :=
  defined_years <> []
  /\ StronglySorted Z.le defined_years
  /\ forall k, k ∈ defined_years -> is_Some (table !! k).

(** The horizon a run uses: the scenario's, or 15 when that is not an [int]. *)
Definition horizon_of (scenario : Scenario) : Z :=
  match analysis_years scenario with
  | PyInt z => z
  | _ => 15%Z
  end.

(** The entry of a product after the normalisation loop, from its entry
    before. *)
Definition normalized_growth (entry : option schedule) : schedule :=
  match entry with
  | None => Mapping {[ 1%Z := 5 # 100 ]}
  | Some (Mapping m) => Mapping m
  | Some (Scalar v) => Mapping {[ 1%Z := default (5 # 100) (py_float v) ]}
  end.

Definition normalized_margin (product : string) (entry : option schedule) : schedule :=
  match entry with
  | None => Mapping {[ 1%Z := default_margin_of product ]}
  | Some (Mapping m) => Mapping m
  | Some (Scalar v) => Mapping {[ 1%Z := default (default_margin_of product) (py_float v) ]}
  end.

Definition is_mapping (entry : option schedule) : Prop :=
  exists m, entry = Some (Mapping m).

(** The scenario is not in the shape the engine works on. *)
Definition needs_normalizing (scenario : Scenario) : Prop :=
  (forall z, analysis_years scenario <> PyInt z)
  \/ exists product, product ∈ products
       /\ (~ is_mapping (default_growth_rates scenario !! product)
           \/ ~ is_mapping (default_margins scenario !! product)).

(** The parameters the normalisation leaves alone. *)
Definition same_parameters (s s' : Scenario) : Prop :=
  discount_rate s' = discount_rate s
  /\ inflation_rate s' = inflation_rate s
  /\ tax_rate s' = tax_rate s
  /\ signage_maintenance s' = signage_maintenance s
  /\ signage_maintenance_year s' = signage_maintenance_year s
  /\ other_maintenance s' = other_maintenance s
  /\ other_maintenance_year s' = other_maintenance_year s
  /\ insurance_rates s' = insurance_rates s.

(** No sign change: every entry is non-negative, or every entry is
    non-positive. *)
Definition no_sign_change (cash_flows : list Q) : Prop :=
  Forall (fun cf => 0 <= cf) cash_flows \/ Forall (fun cf => cf <= 0) cash_flows.


(** ** Concrete inputs used by the examples *)

(** A NumPy without [irr] (removed in NumPy 1.20): the call raises and
    [calculate_irr] answers [None]. *)
Definition no_irr (cash_flows : list Q) : option Q := None.

(** A stand-in for the float power that is exact on the bases 0 and 1, the
    only ones the examples raise to a positive power. *)
Definition unit_pow (x y : Q) : Q := x.

(** The dealer of [test_metrics.py]. *)
Definition test_dealer : DealerOutlet :=
  {| pmg_sales := 1000;
     hsd_sales := 2000;
     hobc_sales := 100;
     lube_sales := 50;
     initial_investment := 5000000;
     operating_costs := 50000;
     rental_streams := [] |}.

(** A dealer that sells nothing: every yearly cash flow is a loss. *)
Definition idle_dealer : DealerOutlet :=
  {| pmg_sales := 0;
     hsd_sales := 0;
     hobc_sales := 0;
     lube_sales := 0;
     initial_investment := 5000000;
     operating_costs := 50000;
     rental_streams := [] |}.


(** "Test Scenario 3 - Mixed Formats" of [test_metrics.py], cut to three
    years, with the [lube] schedules left out. *)
Definition mixed_scenario : Scenario :=
  {| discount_rate := 1 # 10;
     inflation_rate := 5 # 100;
     analysis_years := PyInt 3;
     default_growth_rates :=
       {[ "pmg"%string := Scalar (PyFloat (5 # 100));
          "hsd"%string := Mapping {[ 1%Z := 5 # 100; 2%Z := 4 # 100; 3%Z := 3 # 100 ]};
          "hobc"%string := Scalar (PyFloat (6 # 100)) ]};
     default_margins :=
       {[ "pmg"%string := Mapping {[ 1%Z := 5; 3%Z := 27 # 5 ]};
          "hsd"%string := Scalar (PyFloat 4);
          "hobc"%string := Mapping {[ 1%Z := 6; 2%Z := 31 # 5; 3%Z := 32 # 5 ]} ]};
     tax_rate := 29 # 100;
     signage_maintenance := 5000;
     signage_maintenance_year := 3;
     other_maintenance := 2000000;
     other_maintenance_year := 11;
     insurance_rates := ∅ |}.

(** The same scenario with a horizon that is not an [int]. *)
Definition float_years_scenario : Scenario :=
  set_analysis_years mixed_scenario (PyFloat 3).


(** The [pmg] margin schedule of [mixed_scenario]: year 2 is missing. *)
Definition pmg_margin_schedule : gmap Z Q := {[ 1%Z := 5; 3%Z := 27 # 5 ]}.

(** Three years of [pmg] volumes at 5% growth. *)
Definition pmg_volumes : gmap Z Q :=
  {[ 0%Z := 365000; 1%Z := 383250; 2%Z := 804825 # 2; 3%Z := 16901325 # 40 ]}.

(** An investment of 100 recovered during the second year. *)
Definition recovering_flows : list Q := [-100; 60; 60].

(** * Further code *)
(** ** financial.py: generate_financial_summary *)



Section Summary.

Variable np_irr : list Q -> option Q.


End Summary.

(** ** Notions the further statements use *)

(** The stream pays rent in [year]: [start_year <= year <= end_year], with
    the defaults of the rental loop. *)
Definition stream_active (years year : Z) (stream : rental_stream) : bool :=
  (default 1%Z (start_year stream) <=? year)%Z
  && (year <=? default years (end_year stream))%Z.

(** What one stream adds to the rental income of [year]. *)
Definition stream_rent (inflation_rate : Q) (years year : Z) (stream : rental_stream) : Q :=
  if stream_active years year stream
  then default 0 (monthly_rent stream) * 12 * (1 + inflation_rate) ^ (year - 1)
  else 0.

(** The only exception a computation can end in is [ZeroDivisionError]. *)
Definition only_zero_division {A : Type} (r : result A) : Prop :=
  forall e, r = Raise e -> e = ZeroDivisionError.

(** A dealer with one shop let from year 0 on. *)
Definition landlord_dealer : DealerOutlet :=
  {| pmg_sales := 1000;
     hsd_sales := 2000;
     hobc_sales := 100;
     lube_sales := 50;
     initial_investment := 5000000;
     operating_costs := 50000;
     rental_streams :=
       [ {| start_year := Some 0%Z; end_year := None; monthly_rent := Some 1000 |} ] |}.

(** [mixed_scenario] with prices falling to nothing: an inflation rate of -1. *)
Definition deflated_scenario : Scenario :=
  {| discount_rate := 1 # 10;
     inflation_rate := -1;
     analysis_years := PyInt 3;
     default_growth_rates := default_growth_rates mixed_scenario;
     default_margins := default_margins mixed_scenario;
     tax_rate := 29 # 100;
     signage_maintenance := 5000;
     signage_maintenance_year := 3;
     other_maintenance := 2000000;
     other_maintenance_year := 11;
     insurance_rates := ∅ |}.

(** ** utils.py: safely_create_scenario *)

(** What a caller passes for [default_growth_rates] or [default_margins]:
    a [dict] from product to schedule, or anything else. *)
Inductive schedules_arg : Type :=
  | Schedules (d : gmap string schedule)
  | NotADict (v : pyval).

(** The keyword arguments that name a field of [Scenario], each of them
    optional (the keys the function filters out are not listed). *)
Record ScenarioArgs : Type := {
  arg_name : option string;
  arg_discount_rate : option Q;
  arg_inflation_rate : option Q;
  arg_analysis_years : option pyval;
  arg_default_growth_rates : option schedules_arg;
  arg_default_margins : option schedules_arg;
  arg_tax_rate : option Q;
  arg_signage_maintenance : option Q;
  arg_signage_maintenance_year : option Z;
  arg_other_maintenance : option Q;
  arg_other_maintenance_year : option Z;
  arg_insurance_rates : option (gmap string Q)
}.

(** The default of both schedule tables in the dataclass:
    [{'pmg': {}, 'hsd': {}, 'hobc': {}, 'lube': {}}]. *)
Definition empty_schedules : gmap string schedule :=
  {[ "pmg"%string := Mapping ∅; "hsd"%string := Mapping ∅;
     "hobc"%string := Mapping ∅; "lube"%string := Mapping ∅ ]}.

(** "Ensure it's a dictionary": anything else becomes [{}]. *)
Definition as_schedules (a : schedules_arg) : gmap string schedule :=
  match a with
  | Schedules d => d
  | NotADict _ => ∅
  end.

(** "Ensure each product has a dictionary", one turn of the loop. *)
Definition fix_product (d : gmap string schedule) (product : string)
  : gmap string schedule :=
  match d !! product with
  | None => <[product := Mapping ∅]> d
  | Some (Mapping _) => d
  | Some (Scalar _) => <[product := Mapping ∅]> d
  end.

Definition fix_schedules (d : gmap string schedule) : gmap string schedule :=
  foldl fix_product d products.

(** [safely_create_scenario] on its keyword arguments; the dataclass constructor raises
    [TypeError] when the required [name] is not given. *)
Definition safely_create_scenario (kwargs : ScenarioArgs) : result Scenario :=
  let growth_rates := as_schedules <$> arg_default_growth_rates kwargs in
  let margins := as_schedules <$> arg_default_margins kwargs in
  match arg_name kwargs with
  | None => Raise TypeError
  | Some _ =>
      Ok {| discount_rate := default (10 # 100) (arg_discount_rate kwargs);
            inflation_rate := default (3 # 100) (arg_inflation_rate kwargs);
            analysis_years := default (PyInt 15) (arg_analysis_years kwargs);
            default_growth_rates := fix_schedules (default empty_schedules growth_rates);
            default_margins := fix_schedules (default empty_schedules margins);
            tax_rate := default (29 # 100) (arg_tax_rate kwargs);
            signage_maintenance := default 10000000 (arg_signage_maintenance kwargs);
            signage_maintenance_year := default 7%Z (arg_signage_maintenance_year kwargs);
            other_maintenance := default 2000000 (arg_other_maintenance kwargs);
            other_maintenance_year := default 11%Z (arg_other_maintenance_year kwargs);
            insurance_rates := default ∅ (arg_insurance_rates kwargs) |}
  end.

(** The schedule of a product after "ensure each product has a dictionary",
    from its entry before. *)
Definition fixed_schedule (entry : option schedule) : schedule :=
  match entry with
  | Some (Mapping m) => Mapping m
  | _ => Mapping ∅
  end.

(** Keyword arguments with a name and scalar growth rates, as a caller that
    has one rate per product would pass them. *)
Definition scalar_args : ScenarioArgs :=
  {| arg_name := Some "Flat"%string;
     arg_discount_rate := None;
     arg_inflation_rate := None;
     arg_analysis_years := Some (PyInt 3);
     arg_default_growth_rates :=
       Some (Schedules {[ "pmg"%string := Scalar (PyFloat (7 # 100)) ]});
     arg_default_margins := Some (NotADict PyNone);
     arg_tax_rate := None;
     arg_signage_maintenance := None;
     arg_signage_maintenance_year := None;
     arg_other_maintenance := None;
     arg_other_maintenance_year := None;
     arg_insurance_rates := None |}.

(** ** sales.py: the first projection entry point, project_sales *)

(** The per-year growth overrides of a [DealerOutlet], which only
    [project_sales] reads. *)
Record DealerRates : Type := {
  pmg_growth_rate : gmap Z Q;
  hsd_growth_rate : gmap Z Q;
  hobc_growth_rate : gmap Z Q;
  lube_growth_rate : gmap Z Q
}.

(** The [sales_projection] dictionary [project_sales] returns. *)
Record SalesProjection : Type := {
  sp_pmg : gmap Z Q;
  sp_hsd : gmap Z Q;
  sp_hobc : gmap Z Q;
  sp_lube : gmap Z Q
}.

(** A loop whose body may raise, for the entry points whose exceptions
    ([TypeError] from [range], [AttributeError] from [.get] on a schedule
    that is not a [dict]) are all read as [None]. *)
Fixpoint for_each_option {S A : Type} (l : list A) (body : S -> A -> option S) (s : S)
  : option S :=
  match l with
  | [] => Some s
  | x :: l => s' ← body s x; for_each_option l body s'
  end.

(** [Scenario.get_default_growth_rate(product, year)]:
    [self.default_growth_rates.get(product, {}).get(year, 0.0)]. *)
Definition get_default_growth_rate (scenario : Scenario) (product : string) (year : Z)
  : option Q :=
  match default (Mapping ∅) (default_growth_rates scenario !! product) with
  | Mapping product_rates => Some (default 0 (product_rates !! year))
  | Scalar _ => None
  end.

(** The dealer's own growth rates of a product. *)
Definition dealer_growth_rates (rates : DealerRates) (product : string) : gmap Z Q :=
  if decide (product = "pmg"%string) then pmg_growth_rate rates
  else if decide (product = "hsd"%string) then hsd_growth_rate rates
  else if decide (product = "hobc"%string) then hobc_growth_rate rates
  else if decide (product = "lube"%string) then lube_growth_rate rates
  else ∅.

(** The helper [get_growth_rate(product, year)] of [project_sales]: the
    dealer's rate for the year when there is one, the scenario's otherwise. *)
Definition get_growth_rate (rates : DealerRates) (scenario : Scenario)
    (product : string) (year : Z) : option Q :=
  match dealer_growth_rates rates product !! year with
  | Some growth_rate => Some growth_rate
  | None => get_default_growth_rate scenario product year
  end.

(** One product's block of the loop body. *)
Definition project_step (base_sales : Q) (rates : DealerRates) (scenario : Scenario)
    (product : string) (series : gmap Z Q) (year : Z) : option (gmap Z Q) :=
  if (year =? 0)%Z then Some (<[year := base_sales * 365]> series)
  else
    growth_rate ← get_growth_rate rates scenario product year;
    previous_sales ← series !! (year - 1)%Z;
    Some (<[year := previous_sales * (1 + growth_rate)]> series).

(** The body of the loop over the years: the four blocks in turn. *)
Definition project_year (dealer : DealerOutlet) (rates : DealerRates) (scenario : Scenario)
    (projection : SalesProjection) (year : Z) : option SalesProjection :=
  pmg ← project_step (pmg_sales dealer) rates scenario "pmg" (sp_pmg projection) year;
  hsd ← project_step (hsd_sales dealer) rates scenario "hsd" (sp_hsd projection) year;
  hobc ← project_step (hobc_sales dealer) rates scenario "hobc" (sp_hobc projection) year;
  lube ← project_step (lube_sales dealer) rates scenario "lube" (sp_lube projection) year;
  Some {| sp_pmg := pmg; sp_hsd := hsd; sp_hobc := hobc; sp_lube := lube |}.

Definition project_sales (dealer : DealerOutlet) (rates : DealerRates) (scenario : Scenario)
  : option SalesProjection :=
  years ← match analysis_years scenario with
          | PyInt n => Some (seqZ 0 n)
          | _ => None
          end;
  for_each_option years (project_year dealer rates scenario)
    {| sp_pmg := ∅; sp_hsd := ∅; sp_hobc := ∅; sp_lube := ∅ |}.

(** The series of a product in a projection, and the dealer's base volume
    of a product. *)
Definition projection_of (projection : SalesProjection) (product : string) : gmap Z Q :=
  if decide (product = "pmg"%string) then sp_pmg projection
  else if decide (product = "hsd"%string) then sp_hsd projection
  else if decide (product = "hobc"%string) then sp_hobc projection
  else if decide (product = "lube"%string) then sp_lube projection
  else ∅.

Definition base_sales_of (dealer : DealerOutlet) (product : string) : Q :=
  if decide (product = "pmg"%string) then pmg_sales dealer
  else if decide (product = "hsd"%string) then hsd_sales dealer
  else if decide (product = "hobc"%string) then hobc_sales dealer
  else if decide (product = "lube"%string) then lube_sales dealer
  else 0.

(** The growth rate [project_sales] applies in [year], for a product whose
    scenario schedule is the mapping [m]. *)
Definition applied_growth_rate (rates : DealerRates) (product : string) (m : gmap Z Q)
    (year : Z) : Q :=
  default (default 0 (m !! year)) (dealer_growth_rates rates product !! year).

(** A dealer without growth rates of its own. *)
Definition no_rates : DealerRates :=
  {| pmg_growth_rate := ∅; hsd_growth_rate := ∅; hobc_growth_rate := ∅;
     lube_growth_rate := ∅ |}.

(** A scenario with a growth rate for every year of a four-year horizon. *)
Definition full_scenario : Scenario :=
  {| discount_rate := 1 # 10;
     inflation_rate := 5 # 100;
     analysis_years := PyInt 4;
     default_growth_rates :=
       {[ "pmg"%string := Mapping {[ 1%Z := 5 # 100; 2%Z := 4 # 100; 3%Z := 3 # 100 ]} ]};
     default_margins := ∅;
     tax_rate := 29 # 100;
     signage_maintenance := 5000;
     signage_maintenance_year := 3;
     other_maintenance := 2000000;
     other_maintenance_year := 11;
     insurance_rates := ∅ |}.

(** ** Basic facts *)

Lemma Qltb_true (a b : Q) : Qltb a b = true <-> a < b.
Proof.
  unfold Qltb. rewrite negb_true_iff. split; intros H.
  - apply Qnot_le_lt. intros Hle. apply Qle_bool_iff in Hle. congruence.
  - destruct (Qle_bool b a) eqn:E; [|reflexivity].
    apply Qle_bool_iff in E. lra.
Qed.

Lemma Qltb_false (a b : Q) : Qltb a b = false <-> b <= a.
Proof.
  unfold Qltb. rewrite negb_false_iff. apply Qle_bool_iff.
Qed.

Lemma Qle_bool_false (a b : Q) : Qle_bool a b = false <-> b < a.
Proof.
  rewrite <- (Qltb_true b a). unfold Qltb. now rewrite negb_true_iff.
Qed.

Lemma Qeq_bool_false (a b : Q) : Qeq_bool a b = false <-> ~ a == b.
Proof.
  split.
  - apply Qeq_bool_neq.
  - intros H. destruct (Qeq_bool a b) eqn:E; [|reflexivity].
    apply Qeq_bool_iff in E. contradiction.
Qed.

Lemma bind_Ok {A B : Type} (r : result A) (k : A -> result B) (b : B) :
  bind r k = Ok b <-> exists a, r = Ok a /\ k a = Ok b.
Proof.
  destruct r as [a|e]; simpl; split.
  - intros H. exists a. auto.
  - intros (a' & Ha & Hk). congruence.
  - discriminate.
  - intros (a' & Ha & _). discriminate.
Qed.

Lemma for_each_app {S A : Type} (l1 l2 : list A) (body : S -> A -> result S) (s : S) :
  for_each (l1 ++ l2) body s = let! s' := for_each l1 body s in for_each l2 body s'.
Proof.
  revert s. induction l1 as [|x l1 IH]; intros s; simpl; [reflexivity|].
  destruct (body s x) as [s'|e]; simpl; [apply IH | reflexivity].
Qed.


Lemma py_sum_from (a : Q) (l : list Q) : foldl Qplus a l == a + py_sum l.
Proof.
  unfold py_sum. revert a. induction l as [|x l IH]; intros a; simpl.
  - ring.
  - rewrite IH. rewrite (IH (0 + x)). ring.
Qed.

Lemma py_sum_cons (x : Q) (l : list Q) : py_sum (x :: l) == x + py_sum l.
Proof.
  unfold py_sum at 1. simpl. rewrite py_sum_from. ring.
Qed.

(** *** Rounding *)

Lemma round_half_even_bounds (q : Q) :
  inject_Z (round_half_even q) - (1 # 2) <= q <= inject_Z (round_half_even q) + (1 # 2).
Proof.
  unfold round_half_even.
  pose proof (Qfloor_le q) as Hlo. pose proof (Qlt_floor q) as Hhi.
  rewrite inject_Z_plus in Hhi. change (inject_Z 1) with 1 in Hhi.
  destruct (Qcompare (q - inject_Z (Qfloor q)) (1 # 2)) eqn:E.
  - apply Qeq_alt in E. destruct (Z.even (Qfloor q)).
    + lra.
    + rewrite inject_Z_plus. change (inject_Z 1) with 1. lra.
  - apply Qlt_alt in E. lra.
  - apply Qgt_alt in E. rewrite inject_Z_plus. change (inject_Z 1) with 1. lra.
Qed.

Lemma round_half_even_between (q : Q) (lo hi : Z) :
  inject_Z lo <= q -> q <= inject_Z hi ->
  (lo <= round_half_even q <= hi)%Z.
Proof.
  intros Hlo Hhi.
  assert (Hf1 : (lo <= Qfloor q)%Z).
  { rewrite <- (Qfloor_Z lo). now apply Qfloor_resp_le. }
  assert (Hf2 : (Qfloor q <= hi)%Z).
  { rewrite <- (Qfloor_Z hi). now apply Qfloor_resp_le. }
  unfold round_half_even.
  destruct (Z.eq_dec (Qfloor q) hi) as [Heq|Hne].
  - assert (Hq : q - inject_Z (Qfloor q) < 1 # 2).
    { pose proof (Qfloor_le q). rewrite Heq in *. lra. }
    destruct (Qcompare (q - inject_Z (Qfloor q)) (1 # 2)) eqn:E.
    + apply Qeq_alt in E. lra.
    + lia.
    + apply Qgt_alt in E. lra.
  - destruct (Qcompare _ _); [destruct (Z.even _)| |]; lia.
Qed.

Lemma round_half_even_comp (p q : Q) : p == q -> round_half_even p = round_half_even q.
Proof.
  intros H. unfold round_half_even.
  rewrite (Qfloor_comp p q H).
  assert (Hc : Qcompare (p - inject_Z (Qfloor q)) (1 # 2)
               = Qcompare (q - inject_Z (Qfloor q)) (1 # 2)).
  { apply Qcompare_comp; [now rewrite H | reflexivity]. }
  now rewrite Hc.
Qed.

Lemma round2_comp (p q : Q) : p == q -> round2 p = round2 q.
Proof.
  intros H. unfold round2. f_equal. f_equal. apply round_half_even_comp. now rewrite H.
Qed.

Lemma round2_close (q : Q) : Qabs (round2 q - q) <= 1 # 200.
Proof.
  unfold round2. pose proof (round_half_even_bounds (q * 100)) as [H1 H2].
  apply Qabs_Qle_condition. split.
  - unfold Qdiv; change (/ 100) with (1 # 100); lra.
  - unfold Qdiv; change (/ 100) with (1 # 100); lra.
Qed.

Lemma round2_between (q : Q) (lo hi : Z) :
  inject_Z lo <= q -> q <= inject_Z hi ->
  inject_Z lo <= round2 q <= inject_Z hi.
Proof.
  intros Hlo Hhi. unfold round2.
  destruct (round_half_even_between (q * 100) (lo * 100) (hi * 100)) as [H1 H2].
  - rewrite inject_Z_mult. change (inject_Z 100) with 100. nra.
  - rewrite inject_Z_mult. change (inject_Z 100) with 100. nra.
  - assert (H1' : inject_Z (lo * 100) <= inject_Z (round_half_even (q * 100))).
    { rewrite <- Zle_Qle. exact H1. }
    assert (H2' : inject_Z (round_half_even (q * 100)) <= inject_Z (hi * 100)).
    { rewrite <- Zle_Qle. exact H2. }
    rewrite inject_Z_mult in H1', H2'. change (inject_Z 100) with 100 in H1', H2'.
    unfold Qdiv; change (/ 100) with (1 # 100). lra.
Qed.

(** ** Facts about financial.py *)

Lemma discount_defined (dr : Q) (t : Z) (cf : Q) :
  ~ 1 + dr == 0 ->
  py_pow (1 + dr) t = Ok ((1 + dr) ^ t)
  /\ py_truediv cf ((1 + dr) ^ t) = Ok (cf / (1 + dr) ^ t).
Proof.
  intros Hne. split.
  - unfold py_pow. apply Qeq_bool_false in Hne. rewrite Hne.
    now rewrite andb_false_r.
  - unfold py_truediv.
    assert (H : ~ (1 + dr) ^ t == 0) by now apply Qpower_not_0.
    apply Qeq_bool_false in H. now rewrite H.
Qed.

Lemma discount_flow_defined (dr : Q) (t : Z) (cf : Q) :
  ~ 1 + dr == 0 -> discount_flow dr (t, cf) = Ok (cf / (1 + dr) ^ t).
Proof.
  intros Hne. unfold discount_flow.
  destruct (discount_defined dr t cf Hne) as [H1 H2]. rewrite H1. simpl. exact H2.
Qed.

Lemma discounted_flows_defined (dr : Q) (l : list (Z * Q)) :
  ~ 1 + dr == 0 -> exists dcf, list_comp (discount_flow dr) l = Ok dcf.
Proof.
  intros Hne. induction l as [|[t cf] l [dcf IH]]; cbn [list_comp].
  - eexists; reflexivity.
  - rewrite (discount_flow_defined dr t cf Hne). cbn [bind]. rewrite IH. cbn [bind].
    eexists; reflexivity.
Qed.

Lemma npv_loop_defined (dr : Q) (l : list (Z * Q)) (a : Q) :
  ~ 1 + dr == 0 -> exists v, for_each l (npv_step dr) a = Ok v.
Proof.
  intros Hne. revert a. induction l as [|[t cf] l IH]; intros a; cbn [for_each].
  - eexists; reflexivity.
  - unfold npv_step at 1.
    destruct (discount_defined dr t cf Hne) as [H1 H2].
    rewrite H1. cbn [bind]. rewrite H2. cbn [bind]. apply IH.
Qed.

Lemma npv_loop_zero_rate (cash_flows : list Q) (t : Z) (a : Q) :
  exists v, for_each (enumerate_from t cash_flows) (npv_step 0) a = Ok v
            /\ v == a + py_sum cash_flows.
Proof.
  revert t a. induction cash_flows as [|cf l IH]; intros t a; cbn [enumerate_from for_each].
  - exists a. split; [reflexivity|]. unfold py_sum. simpl. ring.
  - assert (Hne : ~ 1 + 0 == 0) by (intros H; lra).
    unfold npv_step at 1.
    destruct (discount_defined 0 t cf Hne) as [H1 H2].
    rewrite H1. cbn [bind]. rewrite H2. cbn [bind]. clear H1 H2.
    destruct (IH (t + 1)%Z (a + cf / (1 + 0) ^ t)) as (v & Hv & Hs).
    exists v. split; [exact Hv|].
    rewrite Hs, py_sum_cons.
    assert (H1 : (1 + 0) ^ t == 1).
    { assert (H10 : 1 + 0 == 1) by ring. rewrite H10. apply Qpower_1. }
    rewrite H1. field.
Qed.

(** Inversion of a successful [calculate_metrics]. *)
Lemma calculate_metrics_Ok np_irr float_pow cash_flows dr rr m :
  calculate_metrics np_irr float_pow cash_flows dr rr = Ok m ->
  exists npv dcf,
    calculate_npv cash_flows dr = Ok npv
    /\ list_comp (discount_flow dr) (enumerate cash_flows) = Ok dcf
    /\ m = (npv,
            Some (match calculate_irr np_irr cash_flows with
                  | Some x => x / 100
                  | None => 0
                  end),
            Some (match calculate_payback_period cash_flows with
                  | Some p => p
                  | None => inject_Z (len cash_flows)
                  end),
            dcf,
            cumulative_from 0 cash_flows,
            try_except (mirr_body float_pow cash_flows dr
                          (match rr with Some r => r | None => dr end)) 0).
Proof.
  unfold calculate_metrics. intros H.
  apply bind_Ok in H as (npv & Hnpv & H).
  apply bind_Ok in H as (dcf & Hdcf & H).
  exists npv, dcf. repeat split; try assumption. congruence.
Qed.

Lemma calculate_metrics_defined np_irr float_pow cash_flows dr rr :
  ~ 1 + dr == 0 ->
  exists m, calculate_metrics np_irr float_pow cash_flows dr rr = Ok m.
Proof.
  intros Hne. unfold calculate_metrics, calculate_npv.
  destruct (npv_loop_defined dr (enumerate cash_flows) 0 Hne) as [v ->]. cbn [bind].
  destruct (discounted_flows_defined dr (enumerate cash_flows) Hne) as [dcf ->]. cbn [bind].
  eexists; reflexivity.
Qed.

(** No sign change: [calculate_irr] does not reach the solver. *)
Lemma no_negative_entry (cash_flows : list Q) :
  Forall (fun cf => 0 <= cf) cash_flows -> has_negative cash_flows = false.
Proof.
  unfold has_negative. induction 1 as [|cf l Hcf _ IH]; simpl; [reflexivity|].
  rewrite IH, orb_false_r. now apply Qltb_false.
Qed.

Lemma no_positive_entry (cash_flows : list Q) :
  Forall (fun cf => cf <= 0) cash_flows -> has_positive cash_flows = false.
Proof.
  unfold has_positive. induction 1 as [|cf l Hcf _ IH]; simpl; [reflexivity|].
  rewrite IH, orb_false_r. now apply Qltb_false.
Qed.

Lemma calculate_irr_no_sign_change np_irr (cash_flows : list Q) :
  Forall (fun cf => 0 <= cf) cash_flows \/ Forall (fun cf => cf <= 0) cash_flows ->
  calculate_irr np_irr cash_flows = None.
Proof.
  intros [H|H]; unfold calculate_irr.
  - now rewrite (no_negative_entry _ H).
  - rewrite (no_positive_entry _ H). now rewrite andb_false_r.
Qed.

(** The payback loop on a series that never recovers. *)
Lemma payback_loop_never (cash_flows : list Q) (t : Z) (a : Q) :
  Forall (fun c => c < 0) (cumulative_from a cash_flows) ->
  payback_loop a (enumerate_from t cash_flows) = None.
Proof.
  revert t a. induction cash_flows as [|cf l IH]; intros t a H; simpl; [reflexivity|].
  simpl in H. inversion H as [|c cs Hc Hrest]; subst.
  apply Qle_bool_false in Hc. rewrite Hc. now apply IH.
Qed.


(** The payback loop when it answers: [i] is the first index at which the
    running sum is not negative, and the answer lies in the year before it. *)
Lemma payback_loop_first_recovery (cash_flows : list Q) (t : Z) (a p : Q) :
  (0 <= t)%Z -> ((0 < t)%Z -> a < 0) ->
  payback_loop a (enumerate_from t cash_flows) = Some p ->
  exists (i : nat) (c : Q),
    cumulative_from a cash_flows !! i = Some c /\ 0 <= c
    /\ (forall (j : nat) (c' : Q),
          (j < i)%nat -> cumulative_from a cash_flows !! j = Some c' -> c' < 0)
    /\ inject_Z (t + Z.of_nat i) - 1 <= p <= inject_Z (t + Z.of_nat i)
    /\ ((t + Z.of_nat i = 0)%Z -> p = 0).
Proof.
  revert t a. induction cash_flows as [|cf l IH]; intros t a Ht Ha H; simpl in H.
  - discriminate.
  - destruct (Qle_bool 0 (a + cf)) eqn:Hrec.
    + apply Qle_bool_iff in Hrec.
      exists 0%nat, (a + cf). simpl. split; [reflexivity|]. split; [exact Hrec|].
      split; [intros j c' Hj; lia|].
      rewrite Z.add_0_r.
      destruct (0 <? t)%Z eqn:Hpos; simpl in H.
      * apply Z.ltb_lt in Hpos. specialize (Ha Hpos).
        destruct (Qeq_bool cf 0) eqn:Hz; simpl in H.
        { apply Qeq_bool_iff in Hz. lra. }
        apply Qeq_bool_false in Hz. injection H as <-.
        assert (Hcf : 0 < cf) by lra.
        assert (Hfrac : 0 <= (0 - (a + cf - cf)) / cf <= 1).
        { split.
          - apply Qle_shift_div_l; [exact Hcf|]. lra.
          - apply Qle_shift_div_r; [exact Hcf|]. lra. }
        split; [|lia].
        set (fraction := (0 - (a + cf - cf)) / cf) in *.
        assert (Hm : inject_Z (t - 1) == inject_Z t - 1).
        { unfold Z.sub. rewrite inject_Z_plus. reflexivity. }
        assert (Hlo : inject_Z (t - 1) <= inject_Z t - 1 + fraction) by lra.
        assert (Hhi : inject_Z t - 1 + fraction <= inject_Z t) by lra.
        destruct (round2_between _ _ _ Hlo Hhi) as [R1 R2].
        split; [lra | exact R2].
      * apply Z.ltb_ge in Hpos. injection H as <-.
        assert (t = 0%Z) by lia. subst t. split; [simpl; lra|]. intros _. reflexivity.
    + apply Qle_bool_false in Hrec.
      destruct (IH (t + 1)%Z (a + cf)) as (i & c & Hi & Hc & Hbefore & Hp & Hz);
        [lia | intros _; exact Hrec | exact H |].
      exists (S i), c. simpl. split; [exact Hi|]. split; [exact Hc|].
      split.
      * intros [|j] c' Hj Hj'; simpl in Hj'.
        -- injection Hj' as <-. exact Hrec.
        -- apply (Hbefore j); [lia | exact Hj'].
      * replace (t + Z.of_nat (S i))%Z with (t + 1 + Z.of_nat i)%Z by lia.
        split; [exact Hp|]. intros Hzero. lia.
Qed.

Lemma Qfloor_unique (x : Q) (z : Z) :
  inject_Z z <= x -> x < inject_Z (z + 1) -> Qfloor x = z.
Proof.
  intros H1 H2.
  pose proof (Qfloor_le x) as F1. pose proof (Qlt_floor x) as F2.
  assert (Ha : (Qfloor x < z + 1)%Z) by (rewrite Zlt_Qlt; lra).
  assert (Hb : (z < Qfloor x + 1)%Z) by (rewrite Zlt_Qlt; lra).
  lia.
Qed.

Lemma Qceiling_unique (x : Q) (z : Z) :
  inject_Z (z - 1) < x -> x <= inject_Z z -> Qceiling x = z.
Proof.
  intros H1 H2.
  pose proof (Qle_ceiling x) as F1. pose proof (Qceiling_lt x) as F2.
  assert (Ha : (z - 1 < Qceiling x)%Z) by (rewrite Zlt_Qlt; lra).
  assert (Hb : (Qceiling x - 1 < z)%Z) by (rewrite Zlt_Qlt; lra).
  lia.
Qed.

(** *** MIRR *)

Lemma py_max_0_pos (cf : Q) : 0 < cf -> py_max 0 cf = cf.
Proof. intros H. unfold py_max. apply Qltb_true in H. now rewrite H. Qed.

Lemma py_max_0_nonpos (cf : Q) : cf <= 0 -> py_max 0 cf = 0.
Proof. intros H. unfold py_max. apply Qltb_false in H. now rewrite H. Qed.











(** A vector of two entries or more has its NPV computed only when the
    discount rate is not -1. *)
Lemma npv_defined_discount_rate (dr : Q) (cash_flows : list Q) (v : Q) :
  (2 <= len cash_flows)%Z ->
  calculate_npv cash_flows dr = Ok v -> ~ 1 + dr == 0.
Proof.
  intros Hlen H Hz. unfold calculate_npv, enumerate in H.
  destruct cash_flows as [|x [|y l]]; unfold len in Hlen; simpl length in Hlen; try lia.
  cbn [enumerate_from for_each] in H.
  apply bind_Ok in H as (npv & H & _).
  apply bind_Ok in H as (a1 & _ & H).
  apply bind_Ok in H as (a2 & H & _).
  unfold npv_step in H.
  apply bind_Ok in H as (p & Hp & H).
  apply bind_Ok in H as (q & Hq & _).
  unfold py_pow in Hp. change (0 + 1 <? 0)%Z with false in Hp. cbn [andb] in Hp.
  injection Hp as <-.
  unfold py_truediv in Hq. apply Qeq_bool_iff in Hz. rewrite Hz in Hq. discriminate.
Qed.

(** ** Facts about the year tables *)

Lemma fill_from_inv (l : list Z) (value : Z -> result Q) (m0 d : gmap Z Q) :
  for_each l (fun d year => let! v := value year in Ok (<[year := v]> d)) m0 = Ok d ->
  forall y : Z,
    (y ∈ l -> exists v, value y = Ok v /\ d !! y = Some v)
    /\ (y ∉ l -> d !! y = m0 !! y).
Proof.
  revert m0. induction l as [|x l IH]; intros m0 H y; cbn [for_each] in H.
  - injection H as <-. split; [intros Hin; inversion Hin | reflexivity].
  - apply bind_Ok in H as (m1 & Hstep & Hrest).
    apply bind_Ok in Hstep as (v & Hv & Hm1). injection Hm1 as <-.
    destruct (IH _ Hrest y) as [Hin Hout]. split.
    + intros Hy. destruct (decide (y ∈ l)) as [Hyl|Hyl]; [now apply Hin|].
      apply elem_of_cons in Hy as [->|Hy]; [|contradiction].
      exists v. split; [exact Hv|]. rewrite (Hout Hyl). apply lookup_insert_eq.
    + intros Hy. apply not_elem_of_cons in Hy as [Hne Hyl].
      rewrite (Hout Hyl). now apply lookup_insert_ne.
Qed.

Lemma fill_from_defined (l : list Z) (value : Z -> result Q) (m0 : gmap Z Q) :
  (forall y, y ∈ l -> exists v, value y = Ok v) ->
  exists d, for_each l (fun d year => let! v := value year in Ok (<[year := v]> d)) m0 = Ok d.
Proof.
  revert m0. induction l as [|x l IH]; intros m0 H; cbn [for_each].
  - eexists; reflexivity.
  - destruct (H x) as [v Hv]; [apply elem_of_cons; now left|].
    rewrite Hv. cbn [bind]. apply IH. intros y Hy. apply H, elem_of_cons. now right.
Qed.

Lemma fill_years_lookup (l : list Z) (value : Z -> result Q) (d : gmap Z Q) :
  fill_years l value = Ok d ->
  forall (y : Z) (v : Q), d !! y = Some v <-> y ∈ l /\ value y = Ok v.
Proof.
  intros H y v. destruct (fill_from_inv _ _ _ _ H y) as [Hin Hout]. split.
  - intros Hd. destruct (decide (y ∈ l)) as [Hy|Hy].
    + split; [exact Hy|]. destruct (Hin Hy) as (v' & Hv' & Hd'). congruence.
    + rewrite (Hout Hy), lookup_empty in Hd. discriminate.
  - intros [Hy Hv]. destruct (Hin Hy) as (v' & Hv' & Hd'). congruence.
Qed.

Lemma fill_years_defined (l : list Z) (value : Z -> result Q) :
  (forall y, y ∈ l -> exists v, value y = Ok v) ->
  exists d, fill_years l value = Ok d.
Proof. apply fill_from_defined. Qed.

Lemma fill_years_values (l : list Z) (value : Z -> result Q) (d : gmap Z Q) (y : Z) :
  fill_years l value = Ok d -> y ∈ l -> exists v, value y = Ok v /\ d !! y = Some v.
Proof. intros H Hy. now destruct (fill_from_inv _ _ _ _ H y) as [Hin _]; apply Hin. Qed.

(** *** max, min, first and last of the defined years *)

Lemma foldl_max_spec (l : list Z) (a : Z) :
  foldl Z.max a l ∈ a :: l /\ Forall (fun y => (y <= foldl Z.max a l)%Z) (a :: l).
Proof.
  revert a. induction l as [|x l IH]; intros a; cbn [foldl].
  - split; [apply elem_of_cons; now left|]. repeat constructor. lia.
  - destruct (IH (Z.max a x)) as [Hin Hall]. split.
    + apply elem_of_cons in Hin as [Heq|Hin].
      * rewrite Heq. destruct (Z.max_spec a x) as [[_ ->]|[_ ->]].
        -- apply elem_of_cons; right. apply elem_of_cons; now left.
        -- apply elem_of_cons; now left.
      * apply elem_of_cons; right. apply elem_of_cons; now right.
    + inversion Hall as [|? ? Hm Hrest]; subst.
      constructor; [lia|]. constructor; [lia | exact Hrest].
Qed.

Lemma foldl_min_spec (l : list Z) (a : Z) :
  foldl Z.min a l ∈ a :: l /\ Forall (fun y => (foldl Z.min a l <= y)%Z) (a :: l).
Proof.
  revert a. induction l as [|x l IH]; intros a; cbn [foldl].
  - split; [apply elem_of_cons; now left|]. repeat constructor. lia.
  - destruct (IH (Z.min a x)) as [Hin Hall]. split.
    + apply elem_of_cons in Hin as [Heq|Hin].
      * rewrite Heq. destruct (Z.min_spec a x) as [[_ ->]|[_ ->]].
        -- apply elem_of_cons; now left.
        -- apply elem_of_cons; right. apply elem_of_cons; now left.
      * apply elem_of_cons; right. apply elem_of_cons; now right.
    + inversion Hall as [|? ? Hm Hrest]; subst.
      constructor; [lia|]. constructor; [lia | exact Hrest].
Qed.

Lemma max_default_Some (l : list Z) (x : Z) :
  max_default l = Some x <-> x ∈ l /\ forall y, y ∈ l -> (y <= x)%Z.
Proof.
  destruct l as [|a l]; cbn [max_default].
  - split; [discriminate | intros [H _]; inversion H].
  - destruct (foldl_max_spec l a) as [Hin Hall]. rewrite Forall_forall in Hall. split.
    + intros [= <-]. split; [exact Hin | exact Hall].
    + intros [Hx Hmax]. f_equal. apply Z.le_antisymm; [now apply Hmax | now apply Hall].
Qed.

Lemma max_default_None (l : list Z) : max_default l = None <-> l = [].
Proof. destruct l; cbn; split; congruence. Qed.

Lemma min_default_Some (l : list Z) (x : Z) :
  min_default l = Some x <-> x ∈ l /\ forall y, y ∈ l -> (x <= y)%Z.
Proof.
  destruct l as [|a l]; cbn [min_default].
  - split; [discriminate | intros [H _]; inversion H].
  - destruct (foldl_min_spec l a) as [Hin Hall]. rewrite Forall_forall in Hall. split.
    + intros [= <-]. split; [exact Hin | exact Hall].
    + intros [Hx Hmin]. f_equal. apply Z.le_antisymm; [now apply Hall | now apply Hmin].
Qed.

Lemma min_default_None (l : list Z) : min_default l = None <-> l = [].
Proof. destruct l; cbn; split; congruence. Qed.

Lemma sorted_first_least (l : list Z) (x : Z) :
  StronglySorted Z.le l -> list_first l = Ok x ->
  x ∈ l /\ forall y, y ∈ l -> (x <= y)%Z.
Proof.
  intros Hs H. destruct l as [|a l]; cbn in H; [discriminate|]. injection H as <-.
  split; [apply elem_of_cons; now left|].
  apply StronglySorted_inv in Hs as [_ Hall]. rewrite Forall_forall in Hall.
  intros y Hy. apply elem_of_cons in Hy as [->|Hy]; [lia | now apply Hall].
Qed.

Lemma sorted_last_greatest (l : list Z) (x : Z) :
  StronglySorted Z.le l -> list_last l = Ok x ->
  x ∈ l /\ forall y, y ∈ l -> (y <= x)%Z.
Proof.
  unfold list_last. intros Hs H. destruct (last l) as [z|] eqn:Hl; [|discriminate].
  injection H as <-. split; [now apply last_Some_elem_of|].
  apply last_Some in Hl as [l' ->].
  intros y Hy. apply elem_of_app in Hy as [Hy|Hy].
  - now apply (StronglySorted_app_1_elem_of Z.le l' [z] y z Hs Hy), list_elem_of_singleton.
  - apply list_elem_of_singleton in Hy. lia.
Qed.

Lemma list_first_defined (l : list Z) : l <> [] -> exists x, list_first l = Ok x.
Proof. destruct l as [|a l]; [congruence|]. intros _. now exists a. Qed.

Lemma list_last_defined (l : list Z) : l <> [] -> exists x, list_last l = Ok x.
Proof.
  intros H. unfold list_last. destruct (last l) as [z|] eqn:Hl; [now exists z|].
  apply last_None in Hl. contradiction.
Qed.

(** The defined years are the keys up to [years], in increasing order. *)
Lemma elem_of_defined_years (table : gmap Z Q) (years k : Z) :
  k ∈ defined_years_of table years <-> is_Some (table !! k) /\ (k <= years)%Z.
Proof.
  unfold defined_years_of. rewrite merge_sort_Permutation, list_elem_of_filter.
  rewrite list_elem_of_fmap. split.
  - intros [Hle ([k' v] & -> & Hin)]. apply elem_of_map_to_list in Hin.
    split; [now exists v | exact Hle].
  - intros [[v Hv] Hle]. split; [exact Hle|]. exists (k, v).
    split; [reflexivity | now apply elem_of_map_to_list].
Qed.

Lemma defined_years_sorted (table : gmap Z Q) (years : Z) :
  StronglySorted Z.le (defined_years_of table years).
Proof. apply StronglySorted_merge_sort; apply _. Qed.

(** *** The interpolation loop *)

Lemma getitem_Some (d : gmap Z Q) (k : Z) (v : Q) : d !! k = Some v -> getitem d k = Ok v.
Proof. intros H. unfold getitem. now rewrite H. Qed.

Lemma no_element_nil {A : Type} (l : list A) : (forall x, x ∉ l) -> l = [].
Proof.
  destruct l as [|a l]; [reflexivity|]. intros H. exfalso. apply (H a), elem_of_cons. now left.
Qed.

Lemma interpolate_year_defined (table : gmap Z Q) (dy : list Z) (year : Z) :
  years_known table dy -> exists v, interpolate_year table dy year = Ok v.
Proof.
  intros (Hne & Hs & Hkeys). unfold interpolate_year.
  destruct (table !! year) as [v|]; [now exists v|].
  destruct (max_default (filter (fun y => (y < year)%Z) dy)) as [lo|] eqn:Hlo.
  - destruct (min_default (filter (fun y => (y > year)%Z) dy)) as [up|] eqn:Hup.
    + apply max_default_Some in Hlo as [Hlo _]. apply min_default_Some in Hup as [Hup _].
      apply list_elem_of_filter in Hlo as [Hlt Hlo], Hup as [Hgt Hup].
      destruct (Hkeys _ Hlo) as [vlo Hvlo], (Hkeys _ Hup) as [vup Hvup].
      rewrite (getitem_Some _ _ _ Hvlo), (getitem_Some _ _ _ Hvup). cbn [bind].
      unfold py_truediv.
      assert (Hd : Qeq_bool (inject_Z (up - lo)) 0 = false).
      { apply Qeq_bool_false. intros Hz.
        assert (Hpos : inject_Z 0 < inject_Z (up - lo)) by (rewrite <- Zlt_Qlt; lia).
        change (inject_Z 0) with 0 in Hpos. lra. }
      rewrite Hd. cbn [bind]. eexists; reflexivity.
    + destruct (list_last_defined dy Hne) as [k Hk]. rewrite Hk. cbn [bind].
      destruct (sorted_last_greatest _ _ Hs Hk) as [Hin _].
      destruct (Hkeys _ Hin) as [v Hv]. rewrite (getitem_Some _ _ _ Hv). now exists v.
  - destruct (list_first_defined dy Hne) as [k Hk]. rewrite Hk. cbn [bind].
    destruct (sorted_first_least _ _ Hs Hk) as [Hin _].
    destruct (Hkeys _ Hin) as [v Hv]. rewrite (getitem_Some _ _ _ Hv). now exists v.
Qed.

Lemma fallback_known (default_value : Q) :
  years_known {[ 1%Z := default_value ]} [1%Z].
Proof.
  split; [discriminate|]. split; [repeat constructor|].
  intros k Hk. apply list_elem_of_singleton in Hk as ->.
  exists default_value. apply lookup_singleton_eq.
Qed.

Lemma defined_years_known (table : gmap Z Q) (years : Z) :
  defined_years_of table years <> [] -> years_known table (defined_years_of table years).
Proof.
  intros Hne. split; [exact Hne|]. split; [apply defined_years_sorted|].
  intros k Hk. now apply elem_of_defined_years in Hk as [Hk _].
Qed.

(** [dense_table] as a case distinction on the defined years. *)
Lemma dense_table_cases (default_value : Q) (rates : schedule) (years : Z) :
  let table := as_table default_value rates years in
  (defined_years_of table years = []
   /\ dense_table default_value rates years
      = fill_years (seqZ 1 years) (interpolate_year {[ 1%Z := default_value ]} [1%Z]))
  \/ (defined_years_of table years <> []
      /\ dense_table default_value rates years
         = fill_years (seqZ 1 years)
                      (interpolate_year table (defined_years_of table years))).
Proof.
  intros table. unfold dense_table. fold table.
  destruct (defined_years_of table years) as [|a l] eqn:E.
  - left. split; reflexivity.
  - right. split; [discriminate | reflexivity].
Qed.

(** The dense table always exists and covers [1..years], nothing else. *)
Lemma dense_table_defined (default_value : Q) (rates : schedule) (years : Z) :
  exists d, dense_table default_value rates years = Ok d
            /\ forall y, is_Some (d !! y) <-> (1 <= y <= years)%Z.
Proof.
  assert (Hfill : forall table dy, years_known table dy ->
            exists d, fill_years (seqZ 1 years) (interpolate_year table dy) = Ok d
                      /\ forall y, is_Some (d !! y) <-> (1 <= y <= years)%Z).
  { intros table dy Hk.
    destruct (fill_years_defined (seqZ 1 years) (interpolate_year table dy)) as [d Hd].
    { intros y _. now apply interpolate_year_defined. }
    exists d. split; [exact Hd|]. intros y. split.
    - intros [v Hv]. apply (fill_years_lookup _ _ _ Hd) in Hv as [Hin _].
      apply elem_of_seqZ in Hin. lia.
    - intros Hy. destruct (fill_years_values _ _ _ y Hd) as (v & _ & Hv).
      + apply elem_of_seqZ. lia.
      + now exists v. }
  destruct (dense_table_cases default_value rates years) as [[_ ->]|[Hne ->]].
  - apply Hfill, fallback_known.
  - now apply Hfill, defined_years_known.
Qed.

(** The value the loop gives a year that is not a key, case by case. *)
Lemma interpolate_between (m : gmap Z Q) (H y lo up : Z) (vlo vup : Q) :
  m !! y = None -> nearest_below m H y lo -> nearest_above m H y up ->
  m !! lo = Some vlo -> m !! up = Some vup ->
  interpolate_year m (defined_years_of m H) y
  = Ok (vlo + (vup - vlo) * (inject_Z (y - lo) / inject_Z (up - lo))).
Proof.
  intros Hy (Hklo & Hlt & Hnlo) (Hkup & Hgt & Hnup) Hvlo Hvup.
  unfold interpolate_year. rewrite Hy.
  assert (Hlo : max_default (filter (fun k => (k < y)%Z) (defined_years_of m H)) = Some lo).
  { apply max_default_Some. split.
    - apply list_elem_of_filter. split; [exact Hlt | now apply elem_of_defined_years].
    - intros k Hk. apply list_elem_of_filter in Hk as [Hk1 Hk2].
      apply elem_of_defined_years in Hk2. now apply Hnlo. }
  assert (Hup : min_default (filter (fun k => (k > y)%Z) (defined_years_of m H)) = Some up).
  { apply min_default_Some. split.
    - apply list_elem_of_filter. split; [lia | now apply elem_of_defined_years].
    - intros k Hk. apply list_elem_of_filter in Hk as [Hk1 Hk2].
      apply elem_of_defined_years in Hk2. apply Hnup; [exact Hk2 | lia]. }
  rewrite Hlo, Hup, (getitem_Some _ _ _ Hvlo), (getitem_Some _ _ _ Hvup). cbn [bind].
  unfold py_truediv.
  assert (Hd : Qeq_bool (inject_Z (up - lo)) 0 = false).
  { apply Qeq_bool_false. intros Hz.
    assert (Hpos : inject_Z 0 < inject_Z (up - lo)) by (rewrite <- Zlt_Qlt; lia).
    change (inject_Z 0) with 0 in Hpos. lra. }
  rewrite Hd. reflexivity.
Qed.

Lemma interpolate_backward (m : gmap Z Q) (H y up : Z) (vup : Q) :
  m !! y = None -> none_below m H y -> nearest_above m H y up ->
  m !! up = Some vup ->
  interpolate_year m (defined_years_of m H) y = Ok vup.
Proof.
  intros Hy Hnone (Hkup & Hgt & Hnup) Hvup.
  unfold interpolate_year. rewrite Hy.
  assert (Hlo : max_default (filter (fun k => (k < y)%Z) (defined_years_of m H)) = None).
  { apply max_default_None, no_element_nil. intros k Hk.
    apply list_elem_of_filter in Hk as [Hk1 Hk2].
    apply elem_of_defined_years in Hk2. now apply (Hnone k). }
  rewrite Hlo.
  assert (Hin : up ∈ defined_years_of m H) by now apply elem_of_defined_years.
  assert (Hne : defined_years_of m H <> []).
  { intros E. rewrite E in Hin. inversion Hin. }
  destruct (list_first_defined _ Hne) as [k Hk]. rewrite Hk. cbn [bind].
  destruct (sorted_first_least _ _ (defined_years_sorted m H) Hk) as [Hkin Hleast].
  assert (k = up) as ->.
  { pose proof (Hleast up Hin) as H1.
    apply elem_of_defined_years in Hkin.
    assert (k <> y) by (intros ->; destruct Hkin as [[v Hv] _]; congruence).
    assert (~ (k < y)%Z) by now apply Hnone.
    assert (up <= k)%Z by (apply Hnup; [exact Hkin | lia]). lia. }
  now apply getitem_Some.
Qed.

Lemma interpolate_forward (m : gmap Z Q) (H y lo : Z) (vlo : Q) :
  m !! y = None -> nearest_below m H y lo -> none_above m H y ->
  m !! lo = Some vlo ->
  interpolate_year m (defined_years_of m H) y = Ok vlo.
Proof.
  intros Hy (Hklo & Hlt & Hnlo) Hnone Hvlo.
  unfold interpolate_year. rewrite Hy.
  assert (Hin : lo ∈ defined_years_of m H) by now apply elem_of_defined_years.
  assert (Hlo : max_default (filter (fun k => (k < y)%Z) (defined_years_of m H)) = Some lo).
  { apply max_default_Some. split.
    - apply list_elem_of_filter. split; [exact Hlt | exact Hin].
    - intros k Hk. apply list_elem_of_filter in Hk as [Hk1 Hk2].
      apply elem_of_defined_years in Hk2. now apply Hnlo. }
  assert (Hup : min_default (filter (fun k => (k > y)%Z) (defined_years_of m H)) = None).
  { apply min_default_None, no_element_nil. intros k Hk.
    apply list_elem_of_filter in Hk as [Hk1 Hk2].
    apply elem_of_defined_years in Hk2. apply (Hnone k Hk2). lia. }
  rewrite Hlo, Hup.
  assert (Hne : defined_years_of m H <> []).
  { intros E. rewrite E in Hin. inversion Hin. }
  destruct (list_last_defined _ Hne) as [k Hk]. rewrite Hk. cbn [bind].
  destruct (sorted_last_greatest _ _ (defined_years_sorted m H) Hk) as [Hkin Hgreatest].
  assert (k = lo) as ->.
  { pose proof (Hgreatest lo Hin) as H1.
    apply elem_of_defined_years in Hkin.
    assert (k <> y) by (intros ->; destruct Hkin as [[v Hv] _]; congruence).
    assert (~ (y < k)%Z) by now apply Hnone.
    assert (k <= lo)%Z by (apply Hnlo; [exact Hkin | lia]). lia. }
  now apply getitem_Some.
Qed.

Lemma single_key_defined (k : Z) (v : Q) (H k' : Z) :
  defined_key {[ k := v ]} H k' <-> k' = k /\ (k <= H)%Z.
Proof.
  unfold defined_key. split.
  - intros [[w Hw] Hle]. apply lookup_singleton_Some in Hw as [-> _]. now split.
  - intros [-> Hle]. split; [|exact Hle]. exists v. apply lookup_singleton_eq.
Qed.

(** A schedule with one key gives every year the same value. *)
Lemma dense_table_single_key (default_value : Q) (k : Z) (v : Q) (H : Z) :
  exists (d : gmap Z Q) (c : Q),
    dense_table default_value (Mapping {[ k := v ]}) H = Ok d
    /\ forall y, (1 <= y <= H)%Z -> d !! y = Some c.
Proof.
  destruct (dense_table_defined default_value (Mapping {[ k := v ]}) H) as (d & Hd & _).
  exists d.
  destruct (dense_table_cases default_value (Mapping {[ k := v ]}) H) as [[Hnil E]|[Hne E]];
    cbn [as_table] in *; rewrite E in Hd.
  - exists default_value. split; [now rewrite E|]. intros y Hy.
    apply (fill_years_lookup _ _ _ Hd). split; [apply elem_of_seqZ; lia|].
    unfold interpolate_year.
    destruct (decide (y = 1%Z)) as [->|Hy1].
    + now rewrite (lookup_singleton_eq (M:=gmap Z)).
    + rewrite (lookup_singleton_ne (M:=gmap Z)) by congruence.
      rewrite !filter_cons, !filter_nil.
      rewrite decide_True by lia. rewrite decide_False by lia.
      cbn [max_default min_default foldl list_last last bind]. unfold getitem.
      now rewrite (lookup_singleton_eq (M:=gmap Z)).
  - exists v. split; [now rewrite E|]. intros y Hy.
    assert (Hk : (k <= H)%Z).
    { destruct (defined_years_of {[ k := v ]} H) as [|a l] eqn:El; [congruence|].
      assert (Ha : a ∈ defined_years_of {[ k := v ]} H).
      { rewrite El. apply elem_of_cons. now left. }
      apply elem_of_defined_years, single_key_defined in Ha. tauto. }
    apply (fill_years_lookup _ _ _ Hd). split; [apply elem_of_seqZ; lia|].
    destruct (Z.lt_trichotomy y k) as [Hlt|[->|Hgt]].
    + apply (interpolate_backward _ H y k).
      * apply lookup_singleton_ne. lia.
      * intros k' Hk'. apply single_key_defined in Hk' as [-> _]. lia.
      * split; [now apply single_key_defined|]. split; [exact Hlt|].
        intros k' Hk' _. apply single_key_defined in Hk' as [-> _]. lia.
      * apply lookup_singleton_eq.
    + unfold interpolate_year. now rewrite (lookup_singleton_eq (M:=gmap Z)).
    + apply (interpolate_forward _ H y k).
      * apply lookup_singleton_ne. lia.
      * split; [now apply single_key_defined|]. split; [exact Hgt|].
        intros k' Hk' _. apply single_key_defined in Hk' as [-> _]. lia.
      * intros k' Hk'. apply single_key_defined in Hk' as [-> _]. lia.
      * apply lookup_singleton_eq.
Qed.

(** *** The two projectors always answer *)

Lemma sales_loop_defined (all_growth_rates : gmap Z Q) (annual_base : Q) (n : nat) :
  (forall y, (1 <= y <= Z.of_nat n)%Z -> is_Some (all_growth_rates !! y)) ->
  exists d,
    for_each (seqZ 1 (Z.of_nat n))
      (fun yearly_sales year =>
         let! previous_sales := getitem yearly_sales (year - 1) in
         let! growth_rate := getitem all_growth_rates year in
         Ok (<[year := previous_sales * (1 + growth_rate)]> yearly_sales))
      {[ 0%Z := annual_base ]} = Ok d
    /\ d !! 0%Z = Some annual_base
    /\ (forall y, (0 <= y <= Z.of_nat n)%Z -> is_Some (d !! y))
    /\ (forall y, (1 <= y <= Z.of_nat n)%Z ->
          exists previous_sales growth_rate,
            d !! (y - 1)%Z = Some previous_sales
            /\ all_growth_rates !! y = Some growth_rate
            /\ d !! y = Some (previous_sales * (1 + growth_rate))).
Proof.
  induction n as [|n IH]; intros Hall.
  - exists {[ 0%Z := annual_base ]}. split; [reflexivity|].
    split; [apply lookup_singleton_eq|]. split.
    + intros y Hy. assert (y = 0%Z) as -> by lia.
      exists annual_base. apply lookup_singleton_eq.
    + intros y Hy. lia.
  - destruct IH as (d & Hd & Hzero & Hkeys & Hstep); [intros y Hy; apply Hall; lia|].
    rewrite seqZ_S, for_each_app, Hd. cbn [bind for_each].
    destruct (Hkeys (1 + Z.of_nat n - 1)%Z) as [prev Hprev]; [lia|].
    destruct (Hall (1 + Z.of_nat n)%Z) as [g Hg]; [lia|].
    rewrite (getitem_Some _ _ _ Hprev), (getitem_Some _ _ _ Hg). cbn [bind].
    eexists. split; [reflexivity|]. split; [|split].
    + rewrite lookup_insert_ne by lia. exact Hzero.
    + intros y Hy. destruct (decide (y = (1 + Z.of_nat n)%Z)) as [->|Hne].
      * rewrite lookup_insert_eq. eauto.
      * rewrite lookup_insert_ne by congruence. apply Hkeys. lia.
    + intros y Hy. destruct (decide (y = (1 + Z.of_nat n)%Z)) as [->|Hne].
      * exists prev, g. rewrite lookup_insert_eq, lookup_insert_ne by lia. auto.
      * destruct (Hstep y) as (p' & g' & H1 & H2 & H3); [lia|].
        exists p', g'. rewrite !lookup_insert_ne by lia. auto.
Qed.

(** The volumes compound on the dense growth table: year 0 is the annual
    base, and each later year is the year before times (1 + growth). *)
Lemma calculate_product_sales_compounds (base_sales : Q) (growth_rates : schedule)
    (years : Z) :
  exists all_growth_rates d,
    dense_table (5 # 100) growth_rates years = Ok all_growth_rates
    /\ calculate_product_sales base_sales growth_rates years = Ok d
    /\ d !! 0%Z = Some (base_sales * 365)
    /\ forall y, (1 <= y <= years)%Z ->
         exists previous_sales growth_rate,
           d !! (y - 1)%Z = Some previous_sales
           /\ all_growth_rates !! y = Some growth_rate
           /\ d !! y = Some (previous_sales * (1 + growth_rate)).
Proof.
  unfold calculate_product_sales.
  destruct (dense_table_defined (5 # 100) growth_rates years) as (all & Hall & Hkeys).
  exists all. rewrite Hall. cbn [bind].
  destruct (Z.le_gt_cases years 0) as [Hle|Hgt].
  - rewrite seqZ_nil by exact Hle. cbn [for_each].
    eexists. split; [reflexivity|]. split; [reflexivity|].
    split; [apply lookup_singleton_eq | intros y Hy; lia].
  - destruct (sales_loop_defined all (base_sales * 365) (Z.to_nat years))
      as (d & Hd & Hzero & _ & Hstep).
    { intros y Hy. apply Hkeys. lia. }
    rewrite Z2Nat.id in Hd, Hstep by lia. exists d.
    split; [reflexivity|]. split; [exact Hd|]. split; [exact Hzero | exact Hstep].
Qed.

Lemma calculate_product_sales_defined (base_sales : Q) (growth_rates : schedule) (years : Z) :
  exists d, calculate_product_sales base_sales growth_rates years = Ok d
            /\ d !! 0%Z = Some (base_sales * 365).
Proof.
  destruct (calculate_product_sales_compounds base_sales growth_rates years)
    as (all & d & _ & Hd & Hzero & _).
  exists d. split; assumption.
Qed.

(** The revenue of one year, for the years the loop visits. *)
Lemma revenue_year_value (sales_volumes all_margins : gmap Z Q) (inflation_rate : Q) (year : Z) :
  (0 <= year)%Z ->
  revenue_year sales_volumes all_margins inflation_rate year
  = Ok (dict_get sales_volumes year 0
        * (if (year =? 0)%Z then dict_get all_margins 1 5
           else dict_get all_margins year (dict_get all_margins 1 5)
                * (1 + inflation_rate) ^ (year - 1))).
Proof.
  intros Hy. unfold revenue_year, revenue_margin.
  destruct (year =? 0)%Z eqn:E; [reflexivity|].
  apply Z.eqb_neq in E. unfold py_pow.
  assert (Hexp : (year - 1 <? 0)%Z = false) by (apply Z.ltb_ge; lia).
  rewrite Hexp. reflexivity.
Qed.

Lemma calculate_product_revenue_defined (sales_volumes : gmap Z Q) (margins : schedule)
    (years : Z) (inflation_rate : Q) :
  exists all_margins revenue,
    dense_table 5 margins years = Ok all_margins
    /\ calculate_product_revenue sales_volumes margins years inflation_rate = Ok revenue
    /\ forall year, (0 <= year <= years)%Z ->
         revenue !! year
         = Some (dict_get sales_volumes year 0
                 * (if (year =? 0)%Z then dict_get all_margins 1 5
                    else dict_get all_margins year (dict_get all_margins 1 5)
                         * (1 + inflation_rate) ^ (year - 1))).
Proof.
  unfold calculate_product_revenue.
  destruct (dense_table_defined 5 margins years) as (all & Hall & _).
  exists all. rewrite Hall. cbn [bind].
  destruct (fill_years_defined (seqZ 0 (years + 1))
              (revenue_year sales_volumes all inflation_rate)) as [rev Hrev].
  { intros y Hy. apply elem_of_seqZ in Hy. rewrite revenue_year_value by lia. eauto. }
  exists rev. split; [reflexivity|]. split; [exact Hrev|].
  intros year Hy. apply (fill_years_lookup _ _ _ Hrev).
  split; [apply elem_of_seqZ; lia | apply revenue_year_value; lia].
Qed.

(** ** Facts about run_scenario *)

(** *** The normalisation of the scenario object *)

Lemma ensure_growth_rates_growth (s : Scenario) (q : string) :
  default_growth_rates (ensure_growth_rates s q)
  = <[q := normalized_growth (default_growth_rates s !! q)]> (default_growth_rates s).
Proof.
  unfold ensure_growth_rates, normalized_growth.
  destruct (default_growth_rates s !! q) as [[m|v]|] eqn:E; cbn.
  - symmetry. now apply insert_id.
  - destruct (py_float v); reflexivity.
  - reflexivity.
Qed.

Lemma ensure_margins_margins (s : Scenario) (q : string) :
  default_margins (ensure_margins s q)
  = <[q := normalized_margin q (default_margins s !! q)]> (default_margins s).
Proof.
  unfold ensure_margins, normalized_margin.
  destruct (default_margins s !! q) as [[m|v]|] eqn:E; cbn.
  - symmetry. now apply insert_id.
  - destruct (py_float v); reflexivity.
  - reflexivity.
Qed.

Lemma ensure_growth_rates_frame (s : Scenario) (q : string) :
  same_parameters s (ensure_growth_rates s q)
  /\ analysis_years (ensure_growth_rates s q) = analysis_years s
  /\ default_margins (ensure_growth_rates s q) = default_margins s.
Proof.
  unfold ensure_growth_rates, same_parameters.
  destruct (default_growth_rates s !! q) as [[m|v]|]; [|destruct (py_float v)|];
    cbn; repeat split; reflexivity.
Qed.

Lemma ensure_margins_frame (s : Scenario) (q : string) :
  same_parameters s (ensure_margins s q)
  /\ analysis_years (ensure_margins s q) = analysis_years s
  /\ default_growth_rates (ensure_margins s q) = default_growth_rates s.
Proof.
  unfold ensure_margins, same_parameters.
  destruct (default_margins s !! q) as [[m|v]|]; [|destruct (py_float v)|];
    cbn; repeat split; reflexivity.
Qed.

Lemma same_parameters_trans (s1 s2 s3 : Scenario) :
  same_parameters s1 s2 -> same_parameters s2 s3 -> same_parameters s1 s3.
Proof.
  unfold same_parameters. intros (A1 & A2 & A3 & A4 & A5 & A6 & A7 & A8)
    (B1 & B2 & B3 & B4 & B5 & B6 & B7 & B8).
  repeat split; congruence.
Qed.

Lemma normalized_growth_idem (e : option schedule) :
  normalized_growth (Some (normalized_growth e)) = normalized_growth e.
Proof. destruct e as [[m|v]|]; reflexivity. Qed.

Lemma normalized_margin_idem (p : string) (e : option schedule) :
  normalized_margin p (Some (normalized_margin p e)) = normalized_margin p e.
Proof. destruct e as [[m|v]|]; reflexivity. Qed.

Lemma ensure_products_spec (l : list string) (s : Scenario) :
  let s' := foldl ensure_product s l in
  same_parameters s s'
  /\ analysis_years s' = analysis_years s
  /\ (forall p, default_growth_rates s' !! p
                = if decide (p ∈ l) then Some (normalized_growth (default_growth_rates s !! p))
                  else default_growth_rates s !! p)
  /\ (forall p, default_margins s' !! p
                = if decide (p ∈ l) then Some (normalized_margin p (default_margins s !! p))
                  else default_margins s !! p).
Proof.
  revert s. induction l as [|q l IH]; intros s; cbn [foldl].
  - split; [unfold same_parameters; repeat split; reflexivity|].
    split; [reflexivity|]. split; intros p; rewrite decide_False; auto using not_elem_of_nil.
  - destruct (IH (ensure_product s q)) as (Hsame & Hyears & Hg & Hm).
    destruct (ensure_growth_rates_frame s q) as (F1 & F2 & F3).
    destruct (ensure_margins_frame (ensure_growth_rates s q) q) as (G1 & G2 & G3).
    unfold ensure_product in *.
    split; [eapply same_parameters_trans; [|exact Hsame];
            eapply same_parameters_trans; eassumption|].
    split; [congruence|]. split; intros p.
    + rewrite Hg, G3, ensure_growth_rates_growth.
      destruct (decide (p = q)) as [->|Hne].
      * rewrite lookup_insert_eq, normalized_growth_idem.
        rewrite (decide_True (P := q ∈ q :: l)) by (apply elem_of_cons; now left).
        now destruct (decide (q ∈ l)).
      * rewrite lookup_insert_ne by congruence.
        destruct (decide (p ∈ l)) as [Hin|Hnin].
        -- rewrite decide_True by (apply elem_of_cons; now right). reflexivity.
        -- rewrite decide_False; [reflexivity|].
           intros Hc. apply elem_of_cons in Hc as [?|?]; contradiction.
    + rewrite Hm, ensure_margins_margins, F3.
      destruct (decide (p = q)) as [->|Hne].
      * rewrite lookup_insert_eq, normalized_margin_idem.
        rewrite (decide_True (P := q ∈ q :: l)) by (apply elem_of_cons; now left).
        now destruct (decide (q ∈ l)).
      * rewrite lookup_insert_ne by congruence.
        destruct (decide (p ∈ l)) as [Hin|Hnin].
        -- rewrite decide_True by (apply elem_of_cons; now right). reflexivity.
        -- rewrite decide_False; [reflexivity|].
           intros Hc. apply elem_of_cons in Hc as [?|?]; contradiction.
Qed.

Lemma ensure_analysis_years_spec (s : Scenario) :
  let s' := ensure_analysis_years s in
  same_parameters s s'
  /\ analysis_years s' = PyInt (horizon_of s)
  /\ default_growth_rates s' = default_growth_rates s
  /\ default_margins s' = default_margins s.
Proof.
  unfold ensure_analysis_years, horizon_of, same_parameters.
  destruct (analysis_years s) eqn:E; cbn; rewrite ?E; repeat split; reflexivity.
Qed.

(** The scenario object after a run. *)
Lemma normalize_scenario_spec (s : Scenario) :
  let s' := normalize_scenario s in
  same_parameters s s'
  /\ analysis_years s' = PyInt (horizon_of s)
  /\ (forall p, p ∈ products ->
        default_growth_rates s' !! p = Some (normalized_growth (default_growth_rates s !! p)))
  /\ (forall p, p ∈ products ->
        default_margins s' !! p = Some (normalized_margin p (default_margins s !! p))).
Proof.
  unfold normalize_scenario.
  destruct (ensure_analysis_years_spec s) as (A1 & A2 & A3 & A4).
  destruct (ensure_products_spec products (ensure_analysis_years s)) as (B1 & B2 & B3 & B4).
  split; [eapply same_parameters_trans; eassumption|].
  split; [congruence|]. split; intros p Hp.
  - rewrite B3, decide_True by exact Hp. now rewrite A3.
  - rewrite B4, decide_True by exact Hp. now rewrite A4.
Qed.

(** A scenario already in the engine's shape is left as it is. *)
Lemma normalize_scenario_fixed (s : Scenario) (z : Z) :
  analysis_years s = PyInt z ->
  (forall p, p ∈ products ->
     is_mapping (default_growth_rates s !! p) /\ is_mapping (default_margins s !! p)) ->
  normalize_scenario s = s.
Proof.
  intros Hyears Hmaps. unfold normalize_scenario, ensure_analysis_years. rewrite Hyears.
  revert Hmaps. generalize products as l. induction l as [|q l IH]; intros Hmaps.
  - reflexivity.
  - cbn [foldl].
    assert (Hq : ensure_product s q = s).
    { destruct (Hmaps q) as [[mg Hg] [mm Hm]]; [apply elem_of_cons; now left|].
      unfold ensure_product, ensure_growth_rates. rewrite Hg.
      unfold ensure_margins. now rewrite Hm. }
    rewrite Hq. apply IH. intros p Hp. apply Hmaps, elem_of_cons. now right.
Qed.

(** *** The yearly cost series *)

Lemma inflation_factor_defined (s : Scenario) (year : Z) :
  (1 <= year)%Z \/ ~ 1 + inflation_rate s == 0 ->
  inflation_factor s year = Ok ((1 + inflation_rate s) ^ (year - 1)).
Proof.
  intros H. unfold inflation_factor, py_pow. destruct H as [H|H].
  - assert (E : (year - 1 <? 0)%Z = false) by (apply Z.ltb_ge; lia). now rewrite E.
  - apply Qeq_bool_false in H. rewrite H. now rewrite andb_false_r.
Qed.

Lemma operating_costs_year_defined (d : DealerOutlet) (s : Scenario) (year : Z) :
  (0 <= year)%Z -> exists v, operating_costs_year d s year = Ok v.
Proof.
  intros Hy. unfold operating_costs_year. destruct (year =? 0)%Z eqn:E; [eauto|].
  apply Z.eqb_neq in E. rewrite inflation_factor_defined by (left; lia). cbn [bind]. eauto.
Qed.

Lemma insurance_year_defined (d : DealerOutlet) (s : Scenario) (year : Z) :
  (0 <= year)%Z -> exists v, insurance_year d s year = Ok v.
Proof.
  intros Hy. unfold insurance_year. destruct (year =? 0)%Z eqn:E; [eauto|].
  apply Z.eqb_neq in E. rewrite inflation_factor_defined by (left; lia). cbn [bind]. eauto.
Qed.

Lemma maintenance_year_defined (s : Scenario) (years year : Z) :
  (0 <= year)%Z ->
  ~ 1 + inflation_rate s == 0 ->
  ((1 <= year)%Z -> signage_maintenance_year s <> 0%Z) ->
  exists v, maintenance_year s years year = Ok v.
Proof.
  intros Hy Hinf Hsig. unfold maintenance_year.
  assert (Hf : inflation_factor s year = Ok ((1 + inflation_rate s) ^ (year - 1))).
  { apply inflation_factor_defined. now right. }
  destruct (0 <? year)%Z eqn:E.
  - apply Z.ltb_lt in E. unfold py_mod.
    assert (Hz : (signage_maintenance_year s =? 0)%Z = false).
    { apply Z.eqb_neq, Hsig. lia. }
    rewrite Hz. cbn [bind].
    destruct (_ && _); cbn [bind]; rewrite ?Hf; cbn [bind];
      destruct (year =? other_maintenance_year s)%Z; rewrite ?Hf; cbn [bind]; eauto.
  - cbn [bind]. destruct (year =? other_maintenance_year s)%Z; rewrite ?Hf; cbn [bind]; eauto.
Qed.

Lemma rental_income_year_defined (d : DealerOutlet) (s : Scenario) (years year : Z) :
  ~ 1 + inflation_rate s == 0 ->
  exists v, rental_income_year d s years year = Ok v.
Proof.
  intros Hinf. unfold rental_income_year.
  assert (Hf : inflation_factor s year = Ok ((1 + inflation_rate s) ^ (year - 1))).
  { apply inflation_factor_defined. now right. }
  generalize 0 as income. induction (rental_streams d) as [|stream l IH]; intros income.
  - cbn [for_each]. eauto.
  - cbn [for_each]. unfold rental_step at 1.
    destruct (_ && _); [rewrite Hf|]; cbn [bind]; apply IH.
Qed.

(** *** The metrics of a one-entry vector *)

Lemma calculate_metrics_single np_irr float_pow (x dr : Q) :
  exists m, calculate_metrics np_irr float_pow [x] dr None = Ok m.
Proof.
  unfold calculate_metrics, calculate_npv, enumerate. cbn [enumerate_from for_each list_comp].
  unfold npv_step, discount_flow, py_pow. cbn [Z.ltb Z.compare andb bind Qpower].
  unfold py_truediv. change (Qeq_bool 1 0) with false. cbn [bind].
  eexists; reflexivity.
Qed.

(** *** What a run that answers has computed *)

Lemma run_scenario_body_Ok np_irr float_pow (d : DealerOutlet) (s : Scenario) (r : Results) :
  run_scenario_body np_irr float_pow d s = Ok r ->
  exists years,
    as_int (analysis_years s) = Ok years
    /\ res_years r = years
    /\ res_initial_investment r = initial_investment d
    /\ fill_years (seqZ 0 (years + 1))
         (total_revenue_year (yd_pmg_revenue (res_yearly_data r))
            (yd_hsd_revenue (res_yearly_data r))
            (yd_hobc_revenue (res_yearly_data r))
            (yd_lube_revenue (res_yearly_data r)))
       = Ok (yd_total_revenue (res_yearly_data r))
    /\ fill_years (seqZ 0 (years + 1)) (operating_costs_year d s)
       = Ok (yd_operating_costs (res_yearly_data r))
    /\ fill_years (seqZ 0 (years + 1)) (maintenance_year s years)
       = Ok (yd_maintenance (res_yearly_data r))
    /\ fill_years (seqZ 0 (years + 1)) (insurance_year d s)
       = Ok (yd_insurance (res_yearly_data r))
    /\ fill_years (seqZ 0 (years + 1)) (rental_income_year d s years)
       = Ok (yd_rental_income (res_yearly_data r))
    /\ res_cash_flows r
       = (- initial_investment d)
         :: (net_cash_flow (yd_total_revenue (res_yearly_data r))
               (yd_operating_costs (res_yearly_data r))
               (yd_maintenance (res_yearly_data r))
               (yd_insurance (res_yearly_data r))
               (yd_rental_income (res_yearly_data r))
               (tax_rate s)
             <$> seqZ 1 years)
    /\ calculate_metrics np_irr float_pow (res_cash_flows r) (discount_rate s) None
       = Ok (res_npv r, res_irr r, res_payback_period r,
             res_discounted_cash_flows r, res_cumulative_cash_flows r, res_mirr r).
Proof.
  unfold run_scenario_body. intros H.
  apply bind_Ok in H as (years & Hyears & H). exists years.
  apply bind_Ok in H as (s1 & _ & H). apply bind_Ok in H as (s2 & _ & H).
  apply bind_Ok in H as (s3 & _ & H). apply bind_Ok in H as (s4 & _ & H).
  apply bind_Ok in H as (r1 & _ & H). apply bind_Ok in H as (r2 & _ & H).
  apply bind_Ok in H as (r3 & _ & H). apply bind_Ok in H as (r4 & _ & H).
  apply bind_Ok in H as (tot & Htot & H). apply bind_Ok in H as (oc & Hoc & H).
  apply bind_Ok in H as (mt & Hmt & H). apply bind_Ok in H as (ins & Hins & H).
  apply bind_Ok in H as (ri & Hri & H).
  apply bind_Ok in H as ([[[[[npv irr] pb] dcf] ccf] mirr] & Hm & H).
  injection H as <-. cbn. repeat split; assumption.
Qed.

(** A run answers unless it divides by zero: the inflation rate is not -1
    and, when there is at least one year, neither is the discount rate, and
    the signage maintenance period is not 0. *)
Lemma run_scenario_body_defined np_irr float_pow (d : DealerOutlet) (s : Scenario) (years : Z) :
  analysis_years s = PyInt years ->
  ~ 1 + inflation_rate s == 0 ->
  ((1 <= years)%Z -> signage_maintenance_year s <> 0%Z /\ ~ 1 + discount_rate s == 0) ->
  exists r, run_scenario_body np_irr float_pow d s = Ok r.
Proof.
  intros Hyears Hinf Hpos. unfold run_scenario_body. rewrite Hyears. cbn [as_int bind].
  destruct (calculate_product_sales_defined (pmg_sales d)
              (schedule_get (default_growth_rates s) "pmg" (5 # 100)) years) as (s1 & -> & _).
  destruct (calculate_product_sales_defined (hsd_sales d)
              (schedule_get (default_growth_rates s) "hsd" (5 # 100)) years) as (s2 & -> & _).
  destruct (calculate_product_sales_defined (hobc_sales d)
              (schedule_get (default_growth_rates s) "hobc" (6 # 100)) years) as (s3 & -> & _).
  destruct (calculate_product_sales_defined (lube_sales d)
              (schedule_get (default_growth_rates s) "lube" (1 # 100)) years) as (s4 & -> & _).
  cbn [bind].
  destruct (calculate_product_revenue_defined s1
              (schedule_get (default_margins s) "pmg" 5) years (inflation_rate s))
    as (? & r1 & _ & -> & _).
  destruct (calculate_product_revenue_defined s2
              (schedule_get (default_margins s) "hsd" 4) years (inflation_rate s))
    as (? & r2 & _ & -> & _).
  destruct (calculate_product_revenue_defined s3
              (schedule_get (default_margins s) "hobc" 6) years (inflation_rate s))
    as (? & r3 & _ & -> & _).
  destruct (calculate_product_revenue_defined s4
              (schedule_get (default_margins s) "lube" 100) years (inflation_rate s))
    as (? & r4 & _ & -> & _).
  cbn [bind].
  destruct (fill_years_defined (seqZ 0 (years + 1)) (total_revenue_year r1 r2 r3 r4))
    as [tot ->]; [intros y _; unfold total_revenue_year; eauto|].
  destruct (fill_years_defined (seqZ 0 (years + 1)) (operating_costs_year d s)) as [oc ->].
  { intros y Hy. apply elem_of_seqZ in Hy. apply operating_costs_year_defined. lia. }
  destruct (fill_years_defined (seqZ 0 (years + 1)) (maintenance_year s years)) as [mt ->].
  { intros y Hy. apply elem_of_seqZ in Hy.
    apply maintenance_year_defined; [lia | exact Hinf |]. intros Hy1. apply Hpos. lia. }
  destruct (fill_years_defined (seqZ 0 (years + 1)) (insurance_year d s)) as [ins ->].
  { intros y Hy. apply elem_of_seqZ in Hy. apply insurance_year_defined. lia. }
  destruct (fill_years_defined (seqZ 0 (years + 1)) (rental_income_year d s years))
    as [ri ->].
  { intros y _. now apply rental_income_year_defined. }
  cbn [bind].
  assert (Hm : exists m,
             calculate_metrics np_irr float_pow
               ((- initial_investment d)
                :: (net_cash_flow tot oc mt ins ri (tax_rate s) <$> seqZ 1 years))
               (discount_rate s) None = Ok m).
  { destruct (Z.le_gt_cases 1 years) as [Hge|Hlt].
    - apply calculate_metrics_defined. now apply Hpos.
    - rewrite seqZ_nil by lia. apply calculate_metrics_single. }
  destruct Hm as ([[[[[npv irr] pb] dcf] ccf] mirr] & ->). cbn [bind].
  eexists; reflexivity.
Qed.

(** The body of a run answers exactly when its maintenance loop, its rental
    loop and its metrics do. *)
Lemma run_scenario_body_answers np_irr float_pow (d : DealerOutlet) (s : Scenario)
    (years : Z) :
  analysis_years s = PyInt years ->
  (exists r, run_scenario_body np_irr float_pow d s = Ok r)
  <-> (forall y, (0 <= y <= years)%Z -> exists v, maintenance_year s years y = Ok v)
      /\ (forall y, (0 <= y <= years)%Z -> exists v, rental_income_year d s years y = Ok v)
      /\ ((1 <= years)%Z -> ~ 1 + discount_rate s == 0).
Proof.
  intros Hyears. split.
  - intros [r Hr].
    apply run_scenario_body_Ok in Hr
      as (years' & Hy & _ & _ & _ & _ & Hmt & _ & Hri & Hcf & Hm).
    rewrite Hyears in Hy. cbn [as_int] in Hy. injection Hy as <-.
    split; [|split].
    + intros y Hy. destruct (fill_years_values _ _ _ y Hmt) as (v & Hv & _);
        [apply elem_of_seqZ; lia | eauto].
    + intros y Hy. destruct (fill_years_values _ _ _ y Hri) as (v & Hv & _);
        [apply elem_of_seqZ; lia | eauto].
    + intros Hge. apply calculate_metrics_Ok in Hm as (npv & dcf & Hnpv & _).
      refine (npv_defined_discount_rate (discount_rate s) (res_cash_flows r) npv _ Hnpv).
      rewrite Hcf. unfold len. cbn [length]. rewrite length_fmap, length_seqZ. lia.
  - intros (Hmaint & Hrent & Hdr). unfold run_scenario_body. rewrite Hyears.
    cbn [as_int bind].
    destruct (calculate_product_sales_defined (pmg_sales d)
                (schedule_get (default_growth_rates s) "pmg" (5 # 100)) years) as (s1 & -> & _).
    destruct (calculate_product_sales_defined (hsd_sales d)
                (schedule_get (default_growth_rates s) "hsd" (5 # 100)) years) as (s2 & -> & _).
    destruct (calculate_product_sales_defined (hobc_sales d)
                (schedule_get (default_growth_rates s) "hobc" (6 # 100)) years) as (s3 & -> & _).
    destruct (calculate_product_sales_defined (lube_sales d)
                (schedule_get (default_growth_rates s) "lube" (1 # 100)) years) as (s4 & -> & _).
    cbn [bind].
    destruct (calculate_product_revenue_defined s1
                (schedule_get (default_margins s) "pmg" 5) years (inflation_rate s))
      as (? & r1 & _ & -> & _).
    destruct (calculate_product_revenue_defined s2
                (schedule_get (default_margins s) "hsd" 4) years (inflation_rate s))
      as (? & r2 & _ & -> & _).
    destruct (calculate_product_revenue_defined s3
                (schedule_get (default_margins s) "hobc" 6) years (inflation_rate s))
      as (? & r3 & _ & -> & _).
    destruct (calculate_product_revenue_defined s4
                (schedule_get (default_margins s) "lube" 100) years (inflation_rate s))
      as (? & r4 & _ & -> & _).
    cbn [bind].
    destruct (fill_years_defined (seqZ 0 (years + 1)) (total_revenue_year r1 r2 r3 r4))
      as [tot ->]; [intros y _; unfold total_revenue_year; eauto|].
    destruct (fill_years_defined (seqZ 0 (years + 1)) (operating_costs_year d s)) as [oc ->].
    { intros y Hy. apply elem_of_seqZ in Hy. apply operating_costs_year_defined. lia. }
    destruct (fill_years_defined (seqZ 0 (years + 1)) (maintenance_year s years)) as [mt ->].
    { intros y Hy. apply elem_of_seqZ in Hy. apply Hmaint. lia. }
    destruct (fill_years_defined (seqZ 0 (years + 1)) (insurance_year d s)) as [ins ->].
    { intros y Hy. apply elem_of_seqZ in Hy. apply insurance_year_defined. lia. }
    destruct (fill_years_defined (seqZ 0 (years + 1)) (rental_income_year d s years))
      as [ri ->].
    { intros y Hy. apply elem_of_seqZ in Hy. apply Hrent. lia. }
    cbn [bind].
    assert (Hm : exists m,
               calculate_metrics np_irr float_pow
                 ((- initial_investment d)
                  :: (net_cash_flow tot oc mt ins ri (tax_rate s) <$> seqZ 1 years))
                 (discount_rate s) None = Ok m).
    { destruct (Z.le_gt_cases 1 years) as [Hge|Hlt].
      - apply calculate_metrics_defined. now apply Hdr.
      - rewrite seqZ_nil by lia. apply calculate_metrics_single. }
    destruct Hm as ([[[[[npv irr] pb] dcf] ccf] mirr] & ->). cbn [bind].
    eexists; reflexivity.
Qed.

(** ** The specification's statements about the metrics *)

(** C8, as the code has it.  The NPV at discount rate 0 is the plain sum of
    the cash-flow vector rounded to two decimals (ties to even), hence within
    0.005 of the sum. *)
Theorem npv_at_zero_rate_is_rounded_sum (cash_flows : list Q) :
  calculate_npv cash_flows 0 = Ok (round2 (py_sum cash_flows))
  /\ Qabs (round2 (py_sum cash_flows) - py_sum cash_flows) <= 1 # 200.
Proof.
  split; [|apply round2_close].
  unfold calculate_npv, enumerate.
  destruct (npv_loop_zero_rate cash_flows 0 0) as (v & -> & Hv). cbn [bind].
  f_equal. apply round2_comp. rewrite Hv. ring.
Qed.

(** C8, as stated, fails: the vector [0.1875] has NPV 0.19 at rate 0, not
    its sum 0.1875. *)
Lemma npv_at_zero_rate_not_plain_sum :
  calculate_npv [3 # 16] 0 = Ok (19 # 100)
  /\ ~ 19 # 100 == py_sum [3 # 16].
Proof.
  split; [vm_compute; reflexivity|]. vm_compute. discriminate.
Qed.

(** C3, as the code has it.  When the cash-flow vector has no sign change,
    [calculate_irr] answers [None] and [calculate_metrics] puts the number 0
    in its place: the IRR of the returned result is 0, for the metrics of any
    vector and for the result of any run. *)
Theorem irr_without_sign_change_is_zero np_irr float_pow :
  (forall cash_flows dr rr m,
      no_sign_change cash_flows ->
      calculate_metrics np_irr float_pow cash_flows dr rr = Ok m ->
      calculate_irr np_irr cash_flows = None /\ metrics_irr m = Some 0)
  /\ (forall d s r s',
         run_scenario np_irr float_pow d s = (Ok r, s') ->
         no_sign_change (res_cash_flows r) ->
         res_irr r = Some 0).
Proof.
  assert (Hm : forall cash_flows dr rr m,
             no_sign_change cash_flows ->
             calculate_metrics np_irr float_pow cash_flows dr rr = Ok m ->
             calculate_irr np_irr cash_flows = None /\ metrics_irr m = Some 0).
  { intros cfs dr rr m Hns H.
    pose proof (calculate_irr_no_sign_change np_irr cfs Hns) as Hirr.
    split; [exact Hirr|].
    apply calculate_metrics_Ok in H as (npv & dcf & _ & _ & ->).
    cbn. now rewrite Hirr. }
  split; [exact Hm|].
  intros d s r s' Hrun Hns. unfold run_scenario in Hrun. injection Hrun as Hbody _.
  apply run_scenario_body_Ok in Hbody as (years & _ & _ & _ & _ & _ & _ & _ & _ & _ & Hmet).
  now destruct (Hm _ _ _ _ Hns Hmet) as [_ H].
Qed.

(** C4, as the code has it.  When the running sum never reaches 0,
    [calculate_payback_period] answers [None] and [calculate_metrics] puts
    the length of the vector in its place: the payback period of the
    returned result is that number. *)
Theorem payback_without_recovery_is_length np_irr float_pow :
  (forall cash_flows dr rr m,
      Forall (fun c => c < 0) (cumulative_from 0 cash_flows) ->
      calculate_metrics np_irr float_pow cash_flows dr rr = Ok m ->
      calculate_payback_period cash_flows = None
      /\ metrics_payback m = Some (inject_Z (len cash_flows)))
  /\ (forall d s r s',
         run_scenario np_irr float_pow d s = (Ok r, s') ->
         Forall (fun c => c < 0) (res_cumulative_cash_flows r) ->
         res_payback_period r = Some (inject_Z (len (res_cash_flows r)))).
Proof.
  assert (Hm : forall cash_flows dr rr m,
             Forall (fun c => c < 0) (cumulative_from 0 cash_flows) ->
             calculate_metrics np_irr float_pow cash_flows dr rr = Ok m ->
             calculate_payback_period cash_flows = None
             /\ metrics_payback m = Some (inject_Z (len cash_flows))).
  { intros cfs dr rr m Hneg H.
    assert (Hpb : calculate_payback_period cfs = None) by now apply payback_loop_never.
    split; [exact Hpb|].
    apply calculate_metrics_Ok in H as (npv & dcf & _ & _ & ->).
    cbn. now rewrite Hpb. }
  split; [exact Hm|].
  intros d s r s' Hrun Hneg. unfold run_scenario in Hrun. injection Hrun as Hbody _.
  apply run_scenario_body_Ok in Hbody as (years & _ & _ & _ & _ & _ & _ & _ & _ & _ & Hmet).
  pose proof Hmet as Hinv.
  apply calculate_metrics_Ok in Hinv as (npv & dcf & _ & _ & Heq).
  apply (f_equal metrics_cumulative) in Heq. cbn [metrics_cumulative] in Heq.
  rewrite Heq in Hneg.
  now destruct (Hm _ _ _ _ Hneg Hmet) as [_ H].
Qed.

(** C9, as the code has it.  A defined payback period [p] comes from the
    first index [i] at which the running sum is not negative, and lies in the
    year that ends there: [i - 1 <= p <= i] (it is 0 when [i] is 0).  So
    whenever [p] is not a whole number, the running sum is negative at
    [floor p] and non-negative at [ceil p]. *)
Theorem payback_period_brackets_recovery (cash_flows : list Q) (p : Q) :
  calculate_payback_period cash_flows = Some p ->
  (exists (i : nat) (c : Q),
      cumulative_from 0 cash_flows !! i = Some c /\ 0 <= c
      /\ (forall (j : nat) (c' : Q),
            (j < i)%nat -> cumulative_from 0 cash_flows !! j = Some c' -> c' < 0)
      /\ inject_Z (Z.of_nat i) - 1 <= p <= inject_Z (Z.of_nat i)
      /\ (i = 0%nat -> p = 0))
  /\ (~ p == inject_Z (Qfloor p) ->
      exists c1 c2 : Q,
        cumulative_from 0 cash_flows !! Z.to_nat (Qfloor p) = Some c1 /\ c1 < 0
        /\ cumulative_from 0 cash_flows !! Z.to_nat (Qceiling p) = Some c2 /\ 0 <= c2).
Proof.
  intros H. unfold calculate_payback_period, enumerate in H.
  apply payback_loop_first_recovery in H as (i & c & Hi & Hc & Hbefore & Hp & Hz);
    [|lia|lia].
  rewrite Z.add_0_l in Hp, Hz.
  split.
  - exists i, c. repeat split; try assumption; try apply Hp. intros ->. now apply Hz.
  - intros Hfrac.
    assert (Hnotint : forall z : Z, ~ p == inject_Z z).
    { intros z Hpz. apply Hfrac. rewrite (Qfloor_comp _ _ Hpz), Qfloor_Z. exact Hpz. }
    assert (Hi1 : (1 <= i)%nat).
    { destruct i; [|lia]. exfalso. apply (Hnotint 0%Z). now rewrite Hz. }
    assert (Hm : inject_Z (Z.of_nat i - 1) == inject_Z (Z.of_nat i) - 1).
    { unfold Z.sub. rewrite inject_Z_plus. reflexivity. }
    destruct Hp as [Hlo Hhi].
    assert (Hlo' : inject_Z (Z.of_nat i - 1) < p).
    { destruct (Qlt_le_dec (inject_Z (Z.of_nat i - 1)) p) as [?|Hle]; [assumption|].
      exfalso. apply (Hnotint (Z.of_nat i - 1)%Z). lra. }
    assert (Hhi' : p < inject_Z (Z.of_nat i)).
    { destruct (Qlt_le_dec p (inject_Z (Z.of_nat i))) as [?|Hle]; [assumption|].
      exfalso. apply (Hnotint (Z.of_nat i)). lra. }
    assert (Hfl : Qfloor p = (Z.of_nat i - 1)%Z).
    { apply Qfloor_unique; [lra|]. now replace (Z.of_nat i - 1 + 1)%Z with (Z.of_nat i) by lia. }
    assert (Hce : Qceiling p = Z.of_nat i).
    { apply Qceiling_unique; lra. }
    rewrite Hfl, Hce, Nat2Z.id.
    replace (Z.to_nat (Z.of_nat i - 1)) with (i - 1)%nat by lia.
    destruct (lookup_lt_is_Some_2 (cumulative_from 0 cash_flows) (i - 1)) as [c1 Hc1].
    { apply lookup_lt_Some in Hi. lia. }
    exists c1, c. split; [exact Hc1|]. split; [|split; assumption].
    apply (Hbefore (i - 1)%nat); [lia | exact Hc1].
Qed.

(** C9, as stated, fails at both ends.  The vector [5] has payback 0, where
    the running sum is 5, not negative; the vector [-1, 1000] has payback
    0.0 (the fraction 0.001 rounds away), where the running sum is -1, not
    non-negative. *)
Lemma payback_period_outside_brackets :
  (calculate_payback_period [5] = Some 0
   /\ cumulative_from 0 [5] !! Z.to_nat (Qfloor 0) = Some (0 + 5)
   /\ ~ 0 + 5 < 0)
  /\ (calculate_payback_period [-1; 1000] = Some (0 # 100)
      /\ cumulative_from 0 [-1; 1000] !! Z.to_nat (Qceiling (0 # 100)) = Some (0 + -1)
      /\ ~ 0 <= 0 + -1).
Proof.
  split; (split; [vm_compute; reflexivity|]); (split; [vm_compute; reflexivity|]).
  - vm_compute. discriminate.
  - vm_compute. intros H. now apply H.
Qed.



(** ** The specification's statements about a projection run *)

(** C1.  In the result of every run the cash-flow vector has one entry for
    year 0 and one for each year of 1..horizon, the horizon being the
    scenario's (15 when that is not an [int]).  Entry 0 is the negated
    initial investment.  Entry [y], for [y] in 1..horizon, is assembled from
    the five series of the yearly breakdown at [y]: with
    [pretax = revenue - costs - maintenance - insurance + rent], it is
    [pretax - pretax * tax_rate] when [pretax] is positive and [pretax]
    itself when it is not, so a loss passes through unchanged. *)
Theorem cash_flow_vector_assembly np_irr float_pow
    (d : DealerOutlet) (s : Scenario) (r : Results) (s' : Scenario) :
  run_scenario np_irr float_pow d s = (Ok r, s') ->
  res_years r = horizon_of s
  /\ length (res_cash_flows r) = S (Z.to_nat (horizon_of s))
  /\ res_cash_flows r !! 0%nat = Some (- initial_investment d)
  /\ forall y : Z, (1 <= y <= horizon_of s)%Z ->
       exists revenue costs maintenance insurance rent cf : Q,
         yd_total_revenue (res_yearly_data r) !! y = Some revenue
         /\ yd_operating_costs (res_yearly_data r) !! y = Some costs
         /\ yd_maintenance (res_yearly_data r) !! y = Some maintenance
         /\ yd_insurance (res_yearly_data r) !! y = Some insurance
         /\ yd_rental_income (res_yearly_data r) !! y = Some rent
         /\ res_cash_flows r !! Z.to_nat y = Some cf
         /\ let pretax := revenue - costs - maintenance - insurance + rent in
            (0 < pretax -> cf == pretax - pretax * tax_rate s)
            /\ (pretax <= 0 -> cf == pretax).
Proof.
  intros Hrun. unfold run_scenario in Hrun. injection Hrun as Hbody _.
  destruct (normalize_scenario_spec s) as ((_ & _ & Htax & _) & Hint & _).
  apply run_scenario_body_Ok in Hbody
    as (years & Hy & Hyears & _ & Htot & Hoc & Hmt & Hins & Hri & Hcf & _).
  rewrite Hint in Hy. cbn [as_int] in Hy. injection Hy as <-.
  rewrite Htax in Hcf. split; [exact Hyears|]. rewrite Hcf. split.
  { cbn [length]. now rewrite length_fmap, length_seqZ. }
  split; [reflexivity|].
  intros y Hy.
  assert (Hin : y ∈ seqZ 0 (horizon_of s + 1)) by (apply elem_of_seqZ; lia).
  destruct (fill_years_values _ _ _ y Htot Hin) as (revenue & _ & Hrev).
  destruct (fill_years_values _ _ _ y Hoc Hin) as (costs & _ & Hcosts).
  destruct (fill_years_values _ _ _ y Hmt Hin) as (maintenance & _ & Hmaint).
  destruct (fill_years_values _ _ _ y Hins Hin) as (insurance & _ & Hinsur).
  destruct (fill_years_values _ _ _ y Hri Hin) as (rent & _ & Hrent).
  exists revenue, costs, maintenance, insurance, rent,
    (revenue - costs - maintenance - insurance + rent
     - py_max 0 (revenue - costs - maintenance - insurance + rent) * tax_rate s).
  repeat (split; [assumption|]). split.
  - replace (Z.to_nat y) with (S (Z.to_nat (y - 1))) by lia.
    rewrite lookup_cons_ne_0 by lia. cbn [Nat.pred].
    rewrite list_lookup_fmap, lookup_seqZ_lt by lia. cbn [fmap option_fmap option_map].
    replace (1 + Z.of_nat (Z.to_nat (y - 1)))%Z with y by lia.
    unfold net_cash_flow, dict_get. rewrite Hrev, Hcosts, Hmaint, Hinsur, Hrent.
    reflexivity.
  - cbv zeta. split.
    + intros Hpos. rewrite py_max_0_pos by exact Hpos. reflexivity.
    + intros Hneg. rewrite py_max_0_nonpos by exact Hneg. ring.
Qed.


(** C10.  A run writes to the caller's scenario object: a horizon that is
    not an [int] becomes 15; for each of the four products a scalar growth
    rate or margin becomes the mapping [{1: value}] and a missing schedule
    becomes the product's default mapping.  Whenever one of these applies,
    the object after the call differs from the object before. *)
Theorem run_scenario_mutates_scenario np_irr float_pow (d : DealerOutlet) (s : Scenario) :
  let s' := snd (run_scenario np_irr float_pow d s) in
  ((forall z, analysis_years s <> PyInt z) -> analysis_years s' = PyInt 15)
  /\ (forall product v x,
         product ∈ products ->
         default_growth_rates s !! product = Some (Scalar v) -> py_float v = Some x ->
         default_growth_rates s' !! product = Some (Mapping {[ 1%Z := x ]}))
  /\ (forall product,
         product ∈ products -> default_growth_rates s !! product = None ->
         default_growth_rates s' !! product = Some (Mapping {[ 1%Z := 5 # 100 ]}))
  /\ (forall product v x,
         product ∈ products ->
         default_margins s !! product = Some (Scalar v) -> py_float v = Some x ->
         default_margins s' !! product = Some (Mapping {[ 1%Z := x ]}))
  /\ (forall product,
         product ∈ products -> default_margins s !! product = None ->
         default_margins s' !! product
         = Some (Mapping {[ 1%Z := default_margin_of product ]}))
  /\ (needs_normalizing s -> s' <> s).
Proof.
  unfold run_scenario. cbn [snd]. cbv zeta.
  destruct (normalize_scenario_spec s) as (_ & Hyears & Hg & Hm).
  split; [|split; [|split; [|split; [|split]]]].
  - intros Hni. rewrite Hyears. unfold horizon_of.
    destruct (analysis_years s) as [z| |]; [now destruct (Hni z) | reflexivity | reflexivity].
  - intros p v x Hp Hs Hx. rewrite (Hg p Hp), Hs. cbn. now rewrite Hx.
  - intros p Hp Hs. rewrite (Hg p Hp), Hs. reflexivity.
  - intros p v x Hp Hs Hx. rewrite (Hm p Hp), Hs. cbn. now rewrite Hx.
  - intros p Hp Hs. rewrite (Hm p Hp), Hs. reflexivity.
  - intros [Hni|(p & Hp & [Hng|Hnm])] Heq.
    + rewrite Heq in Hyears. now apply (Hni (horizon_of s)).
    + apply Hng. specialize (Hg p Hp). rewrite Heq in Hg. rewrite Hg.
      destruct (default_growth_rates s !! p) as [[m|v]|]; cbn; eexists; reflexivity.
    + apply Hnm. specialize (Hm p Hp). rewrite Heq in Hm. rewrite Hm.
      destruct (default_margins s !! p) as [[m|v]|]; cbn; eexists; reflexivity.
Qed.

(** ** The specification's statements about the projectors *)

(** C5.  The dense table that [calculate_product_sales] (default 0.05) and
    [calculate_product_revenue] (default 5.0) build from a sparse schedule,
    for a horizon [H >= 1] and a year [y] of 1..H that is not a key: between
    the nearest defined years it interpolates linearly; with defined years on
    one side only it takes the value of the nearest one; and a schedule with
    exactly one key gives every year of 1..H the same value. *)
Theorem dense_table_interpolation (default_value : Q) :
  (forall (m : gmap Z Q) (H y : Z),
      (1 <= H)%Z -> (1 <= y <= H)%Z -> m !! y = None ->
      exists d,
        dense_table default_value (Mapping m) H = Ok d
        /\ (forall lo up vlo vup,
               nearest_below m H y lo -> nearest_above m H y up ->
               m !! lo = Some vlo -> m !! up = Some vup ->
               exists v,
                 d !! y = Some v
                 /\ v == vlo + (vup - vlo) * (inject_Z y - inject_Z lo)
                                / (inject_Z up - inject_Z lo))
        /\ (forall up vup,
               none_below m H y -> nearest_above m H y up -> m !! up = Some vup ->
               d !! y = Some vup)
        /\ (forall lo vlo,
               nearest_below m H y lo -> none_above m H y -> m !! lo = Some vlo ->
               d !! y = Some vlo))
  /\ (forall (k : Z) (v : Q) (H : Z),
         (1 <= H)%Z ->
         exists (d : gmap Z Q) (c : Q),
           dense_table default_value (Mapping {[ k := v ]}) H = Ok d
           /\ forall y, (1 <= y <= H)%Z -> d !! y = Some c).
Proof.
  split.
  - intros m H y HH Hy Hnone.
    destruct (dense_table_defined default_value (Mapping m) H) as (d & Hd & _).
    exists d. split; [exact Hd|].
    assert (Hyin : y ∈ seqZ 1 H) by (apply elem_of_seqZ; lia).
    assert (Hfill : forall k, defined_key m H k ->
              fill_years (seqZ 1 H) (interpolate_year m (defined_years_of m H)) = Ok d).
    { intros k Hk.
      destruct (dense_table_cases default_value (Mapping m) H) as [[Hnil _]|[_ E]];
        cbn [as_table] in *.
      - apply elem_of_defined_years in Hk. rewrite Hnil in Hk. inversion Hk.
      - now rewrite <- E. }
    split; [|split].
    + intros lo up vlo vup Hlo Hup Hvlo Hvup.
      pose proof (Hfill lo (proj1 Hlo)) as Hf.
      exists (vlo + (vup - vlo) * (inject_Z (y - lo) / inject_Z (up - lo))). split.
      * apply (fill_years_lookup _ _ _ Hf). split; [exact Hyin|].
        now apply (interpolate_between m H y lo up).
      * destruct Hlo as (_ & Hlt & _), Hup as (_ & Hgt & _).
        assert (Hden : ~ inject_Z up - inject_Z lo == 0).
        { assert (Hlu : inject_Z lo < inject_Z up) by (rewrite <- Zlt_Qlt; lia). lra. }
        unfold Z.sub. rewrite !inject_Z_plus, !inject_Z_opp. now field.
    + intros up vup Hnb Hup Hvup.
      pose proof (Hfill up (proj1 Hup)) as Hf.
      apply (fill_years_lookup _ _ _ Hf). split; [exact Hyin|].
      now apply (interpolate_backward m H y up).
    + intros lo vlo Hlo Hna Hvlo.
      pose proof (Hfill lo (proj1 Hlo)) as Hf.
      apply (fill_years_lookup _ _ _ Hf). split; [exact Hyin|].
      now apply (interpolate_forward m H y lo).
  - intros k v H _. apply dense_table_single_key.
Qed.

(** C6.  For a horizon [H >= 1], the revenue of year 0 is the volume of
    year 0 times the dense margin of year 1, with no inflation; the revenue
    of a year [y] of 1..H is the volume of [y] times the dense margin of [y]
    times (1 + inflation)^(y-1), whatever way that margin entered the dense
    table. *)
Theorem revenue_inflates_by_year_minus_one
    (sales_volumes : gmap Z Q) (margins : schedule) (H : Z) (inflation_rate : Q) :
  (1 <= H)%Z ->
  exists all_margins revenue : gmap Z Q,
    dense_table 5 margins H = Ok all_margins
    /\ calculate_product_revenue sales_volumes margins H inflation_rate = Ok revenue
    /\ (exists margin1,
           all_margins !! 1%Z = Some margin1
           /\ revenue !! 0%Z = Some (dict_get sales_volumes 0 0 * margin1))
    /\ forall y, (1 <= y <= H)%Z ->
         exists margin value,
           all_margins !! y = Some margin
           /\ revenue !! y = Some value
           /\ value == dict_get sales_volumes y 0 * margin
                       * (1 + inflation_rate) ^ (y - 1).
Proof.
  intros HH.
  destruct (calculate_product_revenue_defined sales_volumes margins H inflation_rate)
    as (all & rev & Hall & Hrev & Hval).
  destruct (dense_table_defined 5 margins H) as (all' & Hall' & Hkeys).
  assert (all' = all) as -> by congruence.
  exists all, rev. split; [exact Hall|]. split; [exact Hrev|]. split.
  - destruct (proj2 (Hkeys 1%Z)) as [m1 Hm1]; [lia|].
    exists m1. split; [exact Hm1|].
    rewrite (Hval 0%Z) by lia. cbn [Z.eqb]. unfold dict_get at 2. now rewrite Hm1.
  - intros y Hy. destruct (proj2 (Hkeys y)) as [my Hmy]; [lia|].
    exists my. eexists. split; [exact Hmy|]. split; [apply Hval; lia|].
    assert (E : (y =? 0)%Z = false) by (apply Z.eqb_neq; lia). rewrite E.
    unfold dict_get at 2. rewrite Hmy. cbn [default from_option id]. ring.
Qed.

(** ** The statements at concrete inputs *)

(** C1 at the test dealer, three years: four entries, and a first year
    with a profit of 6480640 before tax, taxed at 29%. *)
Lemma cash_flow_vector_assembly_witness :
  exists r s',
    run_scenario no_irr unit_pow test_dealer mixed_scenario = (Ok r, s')
    /\ res_years r = 3%Z
    /\ length (res_cash_flows r) = 4%nat
    /\ res_cash_flows r !! 0%nat = Some (- initial_investment test_dealer)
    /\ exists revenue costs maintenance insurance rent cf : Q,
         yd_total_revenue (res_yearly_data r) !! 1%Z = Some revenue
         /\ yd_operating_costs (res_yearly_data r) !! 1%Z = Some costs
         /\ yd_maintenance (res_yearly_data r) !! 1%Z = Some maintenance
         /\ yd_insurance (res_yearly_data r) !! 1%Z = Some insurance
         /\ yd_rental_income (res_yearly_data r) !! 1%Z = Some rent
         /\ res_cash_flows r !! 1%nat = Some cf
         /\ revenue - costs - maintenance - insurance + rent == 6480640
         /\ cf == 6480640 - 6480640 * (29 # 100).
Proof.
  destruct (run_scenario no_irr unit_pow test_dealer mixed_scenario) as [[r|e] s'] eqn:E;
    [|vm_compute in E; discriminate].
  destruct (cash_flow_vector_assembly no_irr unit_pow _ _ _ _ E) as (Hy & Hlen & H0 & Hall).
  destruct (Hall 1%Z) as (rev & c & m & i & rent & cf & Hrev & Hc & Hm & Hi & Hrent & Hcf
                          & Hpos & _); [cbn; lia|].
  assert (Hpre : rev - c - m - i + rent == 6480640).
  { pose proof E as E'. vm_compute in E'. injection E' as Hr _.
    rewrite <- Hr in Hrev, Hc, Hm, Hi, Hrent.
    vm_compute in Hrev, Hc, Hm, Hi, Hrent.
    injection Hrev as <-. injection Hc as <-. injection Hm as <-.
    injection Hi as <-. injection Hrent as <-. vm_compute. reflexivity. }
  exists r, s'. split; [reflexivity|]. split; [exact Hy|]. split; [exact Hlen|].
  split; [exact H0|].
  exists rev, c, m, i, rent, cf.
  split; [exact Hrev|]. split; [exact Hc|]. split; [exact Hm|]. split; [exact Hi|].
  split; [exact Hrent|]. split; [exact Hcf|]. split; [exact Hpre|].
  cbv zeta in Hpos. rewrite Hpos by (rewrite Hpre; reflexivity).
  rewrite Hpre. reflexivity.
Defined.



(** C3, as stated, fails: the idle dealer's cash flows are all negative and
    the IRR of the result is the number 0, not [None]. *)
Lemma irr_of_loss_making_run_is_a_number :
  exists r,
    fst (run_scenario no_irr unit_pow idle_dealer mixed_scenario) = Ok r
    /\ no_sign_change (res_cash_flows r)
    /\ res_irr r = Some 0
    /\ res_irr r <> None.
Proof.
  eexists. split; [vm_compute; reflexivity|].
  split; [|split; [vm_compute; reflexivity | discriminate]].
  right. vm_compute. repeat (constructor; [discriminate|]). constructor.
Qed.

(** C3, as the code has it, at the vector [1, 2] and at the idle dealer. *)
Lemma irr_without_sign_change_is_zero_witness :
  (calculate_irr no_irr [1; 2] = None)
  /\ exists r s',
       run_scenario no_irr unit_pow idle_dealer mixed_scenario = (Ok r, s')
       /\ res_irr r = Some 0.
Proof.
  destruct (irr_without_sign_change_is_zero no_irr unit_pow) as [Hm Hrun]. split.
  - destruct (calculate_metrics no_irr unit_pow [1; 2] (1 # 10) None) as [m|e] eqn:E;
      [|vm_compute in E; discriminate].
    apply (Hm [1; 2] (1 # 10) None m); [|exact E].
    left. repeat (constructor; [vm_compute; discriminate|]). constructor.
  - destruct (run_scenario no_irr unit_pow idle_dealer mixed_scenario) as [[r|e] s'] eqn:E;
      [|vm_compute in E; discriminate].
    exists r, s'. split; [reflexivity|]. apply (Hrun _ _ _ _ E).
    pose proof E as E'. vm_compute in E'. injection E' as Hr _. rewrite <- Hr.
    right. vm_compute. repeat (constructor; [discriminate|]). constructor.
Defined.

(** C4, as stated, fails: the idle dealer never recovers the investment and
    the payback period of the result is the number 4, the length of the
    vector, not [None]. *)
Lemma payback_of_loss_making_run_is_a_number :
  exists r,
    fst (run_scenario no_irr unit_pow idle_dealer mixed_scenario) = Ok r
    /\ Forall (fun c => c < 0) (res_cumulative_cash_flows r)
    /\ res_payback_period r = Some (inject_Z 4)
    /\ res_payback_period r <> None.
Proof.
  eexists. split; [vm_compute; reflexivity|].
  split; [|split; [vm_compute; reflexivity | discriminate]].
  vm_compute. repeat (constructor; [reflexivity|]). constructor.
Qed.

(** C4, as the code has it, at the vector [-10, 1] and at the idle dealer. *)
Lemma payback_without_recovery_is_length_witness :
  (calculate_payback_period [-10; 1] = None)
  /\ exists r s',
       run_scenario no_irr unit_pow idle_dealer mixed_scenario = (Ok r, s')
       /\ res_payback_period r = Some (inject_Z (len (res_cash_flows r))).
Proof.
  destruct (payback_without_recovery_is_length no_irr unit_pow) as [Hm Hrun]. split.
  - destruct (calculate_metrics no_irr unit_pow [-10; 1] (1 # 10) None) as [m|e] eqn:E;
      [|vm_compute in E; discriminate].
    apply (Hm [-10; 1] (1 # 10) None m); [|exact E].
    vm_compute. repeat (constructor; [reflexivity|]). constructor.
  - destruct (run_scenario no_irr unit_pow idle_dealer mixed_scenario) as [[r|e] s'] eqn:E;
      [|vm_compute in E; discriminate].
    exists r, s'. split; [reflexivity|]. apply (Hrun _ _ _ _ E).
    pose proof E as E'. vm_compute in E'. injection E' as Hr _. rewrite <- Hr.
    vm_compute. repeat (constructor; [reflexivity|]). constructor.
Defined.

(** C5 at the margins {1: 5.0, 3: 5.4} over three years: year 2 gets 5.2;
    and at the single key {1: 5.0}. *)
Lemma dense_table_interpolation_witness :
  (exists d v,
      dense_table 5 (Mapping pmg_margin_schedule) 3 = Ok d
      /\ d !! 2%Z = Some v /\ v == 26 # 5)
  /\ (exists d c,
         dense_table 5 (Mapping {[ 1%Z := 5 ]}) 3 = Ok d
         /\ forall y, (1 <= y <= 3)%Z -> d !! y = Some c).
Proof.
  destruct (dense_table_interpolation 5) as [Hsparse Hsingle]. split.
  - destruct (Hsparse pmg_margin_schedule 3%Z 2%Z) as (d & Hd & Hbetween & _);
      [lia | lia | vm_compute; reflexivity |].
    destruct (Hbetween 1%Z 3%Z 5 (27 # 5)) as (v & Hv & Heq).
    + split; [split; [exists 5; vm_compute; reflexivity | lia]|]. split; lia.
    + split; [split; [exists (27 # 5); vm_compute; reflexivity | lia]|]. split; lia.
    + vm_compute; reflexivity.
    + vm_compute; reflexivity.
    + exists d, v. split; [exact Hd|]. split; [exact Hv|]. rewrite Heq. reflexivity.
  - apply Hsingle. lia.
Defined.

(** C6 at the same margins and three years of volumes. *)
Lemma revenue_inflates_by_year_minus_one_witness :
  exists all_margins revenue margin value,
    calculate_product_revenue pmg_volumes (Mapping pmg_margin_schedule) 3 (5 # 100)
    = Ok revenue
    /\ dense_table 5 (Mapping pmg_margin_schedule) 3 = Ok all_margins
    /\ all_margins !! 2%Z = Some margin
    /\ revenue !! 2%Z = Some value
    /\ value == dict_get pmg_volumes 2 0 * margin * (1 + (5 # 100)) ^ (2 - 1).
Proof.
  destruct (revenue_inflates_by_year_minus_one pmg_volumes (Mapping pmg_margin_schedule)
              3 (5 # 100)) as (all & rev & Hall & Hrev & _ & Hy); [lia|].
  destruct (Hy 2%Z) as (margin & value & Hm & Hv & Heq); [lia|].
  exists all, rev, margin, value.
  split; [exact Hrev|]. split; [exact Hall|]. split; [exact Hm|]. split; [exact Hv | exact Heq].
Defined.


(** C9, as the code has it, at [-100, 60, 60]: the payback period is 1.67, the
    running sum is -40 after year 1 and 20 after year 2. *)
Lemma payback_period_brackets_recovery_witness :
  exists c1 c2 : Q,
    cumulative_from 0 recovering_flows !! Z.to_nat (Qfloor (167 # 100)) = Some c1 /\ c1 < 0
    /\ cumulative_from 0 recovering_flows !! Z.to_nat (Qceiling (167 # 100)) = Some c2
    /\ 0 <= c2.
Proof.
  destruct (payback_period_brackets_recovery recovering_flows (167 # 100)) as [_ Hfrac];
    [vm_compute; reflexivity|].
  apply Hfrac. vm_compute. discriminate.
Defined.

(** C10 at the mixed scenario (scalar [pmg] growth rate, scalar [hsd]
    margin, no [lube] schedules) and at a horizon of 3.0. *)
Lemma run_scenario_mutates_scenario_witness :
  analysis_years (snd (run_scenario no_irr unit_pow test_dealer float_years_scenario))
  = PyInt 15
  /\ default_growth_rates (snd (run_scenario no_irr unit_pow test_dealer mixed_scenario))
     !! "pmg"%string = Some (Mapping {[ 1%Z := 5 # 100 ]})
  /\ default_margins (snd (run_scenario no_irr unit_pow test_dealer mixed_scenario))
     !! "hsd"%string = Some (Mapping {[ 1%Z := 4 ]})
  /\ default_margins (snd (run_scenario no_irr unit_pow test_dealer mixed_scenario))
     !! "lube"%string = Some (Mapping {[ 1%Z := 100 ]})
  /\ snd (run_scenario no_irr unit_pow test_dealer mixed_scenario) <> mixed_scenario.
Proof.
  destruct (run_scenario_mutates_scenario no_irr unit_pow test_dealer float_years_scenario)
    as (Hyears & _).
  destruct (run_scenario_mutates_scenario no_irr unit_pow test_dealer mixed_scenario)
    as (_ & Hgs & _ & Hms & Hmn & Hne).
  split; [apply Hyears; intros z; discriminate|].
  split; [apply (Hgs "pmg"%string (PyFloat (5 # 100)));
          [unfold products; repeat constructor | vm_compute; reflexivity | reflexivity]|].
  split; [apply (Hms "hsd"%string (PyFloat 4));
          [unfold products; repeat constructor | vm_compute; reflexivity | reflexivity]|].
  split; [apply (Hmn "lube"%string);
          [unfold products; repeat constructor | vm_compute; reflexivity]|].
  apply Hne. right. exists "pmg"%string. split; [unfold products; repeat constructor|].
  left. intros [m Hm]. vm_compute in Hm. discriminate.
Defined.

(** * Further properties of the code *)

(** ** More about financial.py *)

Lemma cumulative_from_lookup (cash_flows : list Q) (a : Q) (k : nat) :
  (k < length cash_flows)%nat ->
  cumulative_from a cash_flows !! k = Some (foldl Qplus a (take (S k) cash_flows)).
Proof.
  revert a k. induction cash_flows as [|cf l IH]; intros a k Hk; simpl in Hk; [lia|].
  destruct k as [|k]; cbn [cumulative_from].
  - reflexivity.
  - rewrite lookup_cons_ne_0 by lia. cbn [Nat.pred]. rewrite IH by lia. reflexivity.
Qed.

Lemma cumulative_from_same_length (cash_flows : list Q) (a : Q) :
  length (cumulative_from a cash_flows) = length cash_flows.
Proof.
  revert a. induction cash_flows as [|cf l IH]; intros a; simpl; [reflexivity|].
  now rewrite IH.
Qed.

Lemma list_comp_lookup {A B : Type} (f : A -> result B) (l : list A) (ys : list B) :
  list_comp f l = Ok ys ->
  length ys = length l
  /\ forall (i : nat) (x : A), l !! i = Some x -> exists y, f x = Ok y /\ ys !! i = Some y.
Proof.
  revert ys. induction l as [|x l IH]; intros ys H; cbn [list_comp] in H.
  - injection H as <-. split; [reflexivity|]. intros i x Hx. inversion Hx.
  - apply bind_Ok in H as (y & Hy & H). apply bind_Ok in H as (ys' & Hys & H).
    injection H as <-. destruct (IH _ Hys) as [Hlen Hall]. split; [simpl; lia|].
    intros [|i] x' Hx'; simpl in Hx'.
    + injection Hx' as <-. exists y. split; [exact Hy | reflexivity].
    + destruct (Hall i x' Hx') as (y' & Hy' & Hl). exists y'. split; [exact Hy' | exact Hl].
Qed.

Lemma enumerate_from_lookup {A : Type} (l : list A) (t : Z) (i : nat) :
  enumerate_from t l !! i = (fun x => ((t + Z.of_nat i)%Z, x)) <$> l !! i.
Proof.
  revert t i. induction l as [|x l IH]; intros t i; cbn [enumerate_from].
  - reflexivity.
  - destruct i as [|i]; cbn.
    + now rewrite Z.add_0_r.
    + rewrite IH. destruct (l !! i); cbn; [|reflexivity]. do 2 f_equal. lia.
Qed.

Lemma enumerate_from_length {A : Type} (l : list A) (t : Z) :
  length (enumerate_from t l) = length l.
Proof. revert t. induction l as [|x l IH]; intros t; simpl; [reflexivity | now rewrite IH]. Qed.

(** The NPV loop adds up what the discounted vector holds. *)
Lemma npv_loop_sums_discounted (dr : Q) (l : list (Z * Q)) (a v : Q) (ds : list Q) :
  for_each l (npv_step dr) a = Ok v ->
  list_comp (discount_flow dr) l = Ok ds ->
  v == a + py_sum ds.
Proof.
  revert a ds. induction l as [|[t cf] l IH]; intros a ds Hv Hds;
    cbn [for_each list_comp] in Hv, Hds.
  - injection Hv as <-. injection Hds as <-. unfold py_sum. simpl. ring.
  - apply bind_Ok in Hv as (a' & Hstep & Hv).
    apply bind_Ok in Hds as (d & Hd & Hds). apply bind_Ok in Hds as (ds' & Hds' & Hds).
    injection Hds as <-.
    unfold npv_step in Hstep. unfold discount_flow in Hd.
    apply bind_Ok in Hstep as (p & Hp & Hstep). apply bind_Ok in Hstep as (d' & Hd' & Hstep).
    injection Hstep as <-.
    apply bind_Ok in Hd as (p' & Hp' & Hd).
    assert (p' = p) as -> by congruence. assert (d' = d) as -> by congruence.
    rewrite (IH _ _ Hv Hds'), py_sum_cons. ring.
Qed.

(** With a discount rate of -1 and two entries or more, the second entry is
    divided by zero. *)
Lemma npv_raises_at_minus_one (dr : Q) (cash_flows : list Q) :
  1 + dr == 0 -> (2 <= len cash_flows)%Z ->
  calculate_npv cash_flows dr = Raise ZeroDivisionError.
Proof.
  intros Hz Hlen. unfold calculate_npv, enumerate.
  destruct cash_flows as [|x [|y l]]; unfold len in Hlen; simpl length in Hlen; try lia.
  cbn [enumerate_from for_each]. unfold npv_step at 1. unfold py_pow at 1.
  cbn [Z.ltb Z.compare andb bind Qpower]. unfold py_truediv at 1.
  change (Qeq_bool 1 0) with false. cbn [bind].
  unfold npv_step at 1. unfold py_pow at 1. change (0 + 1 <? 0)%Z with false.
  cbn [andb bind]. unfold py_truediv at 1.
  assert (E : Qeq_bool ((1 + dr) ^ (0 + 1)) 0 = true).
  { apply Qeq_bool_iff. change ((1 + dr) ^ (0 + 1)) with (1 + dr). exact Hz. }
  rewrite E. reflexivity.
Qed.

Lemma calculate_metrics_short np_irr float_pow (cash_flows : list Q) (dr : Q) (rr : option Q) :
  (len cash_flows < 2)%Z ->
  exists m, calculate_metrics np_irr float_pow cash_flows dr rr = Ok m.
Proof.
  intros Hlen.
  destruct cash_flows as [|x [|y l]]; unfold len in Hlen; simpl length in Hlen; try lia.
  - unfold calculate_metrics, calculate_npv, enumerate. cbn [enumerate_from for_each list_comp bind].
    eexists; reflexivity.
  - unfold calculate_metrics, calculate_npv, enumerate. cbn [enumerate_from for_each list_comp].
    unfold npv_step, discount_flow, py_pow. cbn [Z.ltb Z.compare andb bind Qpower].
    unfold py_truediv. change (Qeq_bool 1 0) with false. cbn [bind].
    eexists; reflexivity.
Qed.

(** X1.  With a discount rate of -1 and two entries or more
    [calculate_metrics] raises [ZeroDivisionError]: the second entry is
    divided by zero.  A vector of fewer than two entries gets its tuple at
    every discount rate, -1 included.  And whether a tuple is returned never
    depends on the reinvestment rate: nothing the MIRR block raises
    escapes. *)
Theorem calculate_metrics_division_by_zero np_irr float_pow
    (cash_flows : list Q) (dr : Q) (rr : option Q) :
  (1 + dr == 0 -> (2 <= len cash_flows)%Z ->
   calculate_metrics np_irr float_pow cash_flows dr rr = Raise ZeroDivisionError)
  /\ ((len cash_flows < 2)%Z ->
      exists m, calculate_metrics np_irr float_pow cash_flows dr rr = Ok m)
  /\ (forall rr',
        (exists m, calculate_metrics np_irr float_pow cash_flows dr rr = Ok m) ->
        exists m', calculate_metrics np_irr float_pow cash_flows dr rr' = Ok m').
Proof.
  split; [|split].
  - intros Hz Hlen. unfold calculate_metrics.
    now rewrite (npv_raises_at_minus_one dr cash_flows Hz Hlen).
  - apply calculate_metrics_short.
  - intros rr' [m Hm].
    apply calculate_metrics_Ok in Hm as (npv & dcf & Hnpv & Hdcf & _).
    unfold calculate_metrics. rewrite Hnpv. cbn [bind]. rewrite Hdcf. cbn [bind].
    eexists; reflexivity.
Qed.

Lemma calculate_metrics_division_by_zero_witness :
  calculate_metrics no_irr unit_pow [-100; 60; 60] (-1) None = Raise ZeroDivisionError
  /\ (exists m, calculate_metrics no_irr unit_pow [-100] (-1) None = Ok m)
  /\ exists m, calculate_metrics no_irr unit_pow recovering_flows (1 # 10) (Some (-1)) = Ok m.
Proof.
  destruct (calculate_metrics_division_by_zero no_irr unit_pow [-100; 60; 60] (-1) None)
    as (Hraise & _ & _).
  destruct (calculate_metrics_division_by_zero no_irr unit_pow [-100] (-1) None)
    as (_ & Hok & _).
  destruct (calculate_metrics_division_by_zero no_irr unit_pow recovering_flows (1 # 10) None)
    as (_ & _ & Hany).
  split; [|split].
  - apply Hraise; [reflexivity | unfold len; simpl; lia].
  - apply Hok. unfold len. simpl. lia.
  - apply (Hany (Some (-1))).
    destruct (calculate_metrics no_irr unit_pow recovering_flows (1 # 10) None)
      as [m|e] eqn:E; [eauto | vm_compute in E; discriminate].
Defined.

(** X2.  In the tuple [calculate_metrics] returns, the cumulative vector and
    the discounted vector have one entry per cash flow: entry [k] of the
    first is the sum of the cash flows up to [k], entry [t] of the second is
    [cf / (1 + r)^t], and the NPV is the sum of the discounted vector rounded
    to two decimals. *)
Theorem metrics_vectors_agree np_irr float_pow
    (cash_flows : list Q) (dr : Q) (rr : option Q) (m : metrics) :
  calculate_metrics np_irr float_pow cash_flows dr rr = Ok m ->
  let '(npv, _, _, discounted, cumulative, _) := m in
  length cumulative = length cash_flows
  /\ length discounted = length cash_flows
  /\ (forall k : nat, (k < length cash_flows)%nat ->
        cumulative !! k = Some (py_sum (take (S k) cash_flows)))
  /\ (forall (t : nat) (cf : Q), cash_flows !! t = Some cf ->
        discounted !! t = Some (cf / (1 + dr) ^ Z.of_nat t))
  /\ npv = round2 (py_sum discounted).
Proof.
  intros H. pose proof H as Hinv.
  apply calculate_metrics_Ok in Hinv as (npv & dcf & Hnpv & Hdcf & ->).
  split; [apply cumulative_from_same_length|].
  destruct (list_comp_lookup _ _ _ Hdcf) as [Hlen Hall].
  unfold enumerate in Hlen. rewrite enumerate_from_length in Hlen. split; [exact Hlen|].
  split; [intros k Hk; now apply cumulative_from_lookup|].
  split.
  - intros t cf Ht.
    destruct (Hall t (Z.of_nat t, cf)) as (y & Hy & Hl).
    { unfold enumerate. rewrite enumerate_from_lookup, Ht. reflexivity. }
    rewrite Hl. f_equal. unfold discount_flow in Hy.
    apply bind_Ok in Hy as (p & Hp & Hy). unfold py_pow in Hp.
    destruct (_ && _); [discriminate|]. injection Hp as <-.
    unfold py_truediv in Hy. destruct (Qeq_bool _ _); [discriminate|]. now injection Hy as <-.
  - unfold calculate_npv in Hnpv. apply bind_Ok in Hnpv as (v & Hv & Hr).
    injection Hr as <-. apply round2_comp.
    rewrite (npv_loop_sums_discounted _ _ _ _ _ Hv Hdcf). ring.
Qed.

Lemma metrics_vectors_agree_witness :
  exists npv irr payback discounted cumulative mirr,
    calculate_metrics no_irr unit_pow recovering_flows (1 # 10) None
    = Ok (npv, irr, payback, discounted, cumulative, mirr)
    /\ cumulative !! 2%nat = Some (py_sum (take 3 recovering_flows))
    /\ npv = round2 (py_sum discounted).
Proof.
  destruct (calculate_metrics no_irr unit_pow recovering_flows (1 # 10) None)
    as [[[[[[npv irr] pb] dcf] ccf] mirr]|e] eqn:E; [|vm_compute in E; discriminate].
  pose proof (metrics_vectors_agree no_irr unit_pow _ _ _ _ E) as (_ & _ & Hc & _ & Hn).
  exists npv, irr, pb, dcf, ccf, mirr. split; [reflexivity|].
  split; [apply Hc; simpl; lia | exact Hn].
Defined.

(** *** Payback *)

Lemma payback_loop_None (cash_flows : list Q) (t : Z) (a : Q) :
  payback_loop a (enumerate_from t cash_flows) = None ->
  Forall (fun c => c < 0) (cumulative_from a cash_flows).
Proof.
  revert t a. induction cash_flows as [|cf l IH]; intros t a H;
    cbn [enumerate_from payback_loop cumulative_from] in *; [constructor|].
  destruct (Qle_bool 0 (a + cf)) eqn:E.
  - destruct (_ && _); discriminate.
  - apply Qle_bool_false in E. constructor; [exact E | now apply (IH (t + 1)%Z)].
Qed.

(** X3.  [calculate_payback_period] answers [None] exactly when the running
    sum of the cash flows is negative at every index; an empty vector has no
    payback period. *)
Theorem payback_undefined_iff_never_recovers (cash_flows : list Q) :
  calculate_payback_period cash_flows = None
  <-> Forall (fun c => c < 0) (cumulative_from 0 cash_flows).
Proof.
  unfold calculate_payback_period, enumerate. split.
  - apply payback_loop_None.
  - apply payback_loop_never.
Qed.

(** The loop's answer: nothing before the first index [i] at which the
    running sum is not negative, then the year before [i] plus the share of
    flow [i] that closes the gap, rounded. *)
Lemma payback_loop_value (cash_flows : list Q) (t : Z) (a p : Q) :
  (0 <= t)%Z -> ((0 < t)%Z -> a < 0) ->
  payback_loop a (enumerate_from t cash_flows) = Some p ->
  exists (i : nat) (cf : Q),
    cash_flows !! i = Some cf
    /\ (forall j : nat, (j < i)%nat -> foldl Qplus a (take (S j) cash_flows) < 0)
    /\ 0 <= foldl Qplus a (take (S i) cash_flows)
    /\ ((t + Z.of_nat i = 0)%Z -> p = 0)
    /\ ((0 < t + Z.of_nat i)%Z ->
        0 < cf
        /\ p = round2 (inject_Z (t + Z.of_nat i) - 1
                       + (0 - foldl Qplus a (take i cash_flows)) / cf)).
Proof.
  revert t a. induction cash_flows as [|cf l IH]; intros t a Ht Ha H;
    cbn [enumerate_from payback_loop] in H; [discriminate|].
  destruct (Qle_bool 0 (a + cf)) eqn:Hrec.
  - apply Qle_bool_iff in Hrec. exists 0%nat, cf. cbn [take foldl].
    split; [reflexivity|]. split; [intros j Hj; lia|]. split; [exact Hrec|].
    rewrite Z.add_0_r.
    destruct (0 <? t)%Z eqn:Hpos; cbn [andb] in H.
    + apply Z.ltb_lt in Hpos. specialize (Ha Hpos).
      destruct (Qeq_bool cf 0) eqn:Hz; cbn [negb] in H.
      { apply Qeq_bool_iff in Hz. lra. }
      injection H as <-. split; [lia|]. intros _. split; [lra|].
      apply round2_comp.
      assert (Hcf : ~ cf == 0) by lra. field. exact Hcf.
    + apply Z.ltb_ge in Hpos. injection H as <-.
      assert (t = 0%Z) by lia. subst t. split; [reflexivity | lia].
  - apply Qle_bool_false in Hrec.
    destruct (IH (t + 1)%Z (a + cf)) as (i & cf' & Hi & Hbefore & Hat & Hz & Hv);
      [lia | intros _; exact Hrec | exact H |].
    exists (S i), cf'. cbn [take foldl]. split; [exact Hi|]. split.
    + intros [|j] Hj; cbn [take foldl]; [exact Hrec | apply Hbefore; lia].
    + split; [exact Hat|]. split; [lia|]. intros _.
      replace (t + Z.of_nat (S i))%Z with (t + 1 + Z.of_nat i)%Z by lia.
      apply Hv. lia.
Qed.

(** The running sum after one more flow. *)
Lemma py_sum_take_S (l : list Q) (i : nat) (x : Q) :
  l !! i = Some x -> py_sum (take (S i) l) = py_sum (take i l) + x.
Proof.
  intros Hi. rewrite (take_S_r l i x Hi). unfold py_sum. now rewrite foldl_app.
Qed.

(** X4.  A defined payback period is read off the first index [i] at which
    the running sum is not negative.  It is 0 when [i] is 0.  Otherwise
    flow [i] is positive, the gap left after [i - 1] is positive and at most
    flow [i], and the period is within 0.005 of [i - 1 + gap / flow]: the
    year before plus the share of flow [i] that closes the gap, which the
    code rounds to two decimals. *)
Theorem payback_period_is_interpolated (cash_flows : list Q) (p : Q) :
  calculate_payback_period cash_flows = Some p ->
  exists (i : nat) (cf : Q),
    cash_flows !! i = Some cf
    /\ (forall j : nat, (j < i)%nat -> py_sum (take (S j) cash_flows) < 0)
    /\ 0 <= py_sum (take (S i) cash_flows)
    /\ (i = 0%nat -> p = 0)
    /\ ((0 < i)%nat ->
        let gap := 0 - py_sum (take i cash_flows) in
        0 < cf
        /\ 0 < gap <= cf
        /\ Qabs (p - (inject_Z (Z.of_nat i) - 1 + gap / cf)) <= 1 # 200).
Proof.
  intros H. unfold calculate_payback_period, enumerate in H.
  apply payback_loop_value in H as (i & cf & Hi & Hbefore & Hat & Hz & Hv); [|lia|lia].
  rewrite Z.add_0_l in Hz, Hv.
  exists i, cf. split; [exact Hi|]. split; [exact Hbefore|]. split; [exact Hat|].
  split; [intros ->; now apply Hz|]. intros Hpos. cbv zeta.
  destruct Hv as [Hcf ->]; [lia|]. split; [exact Hcf|]. split.
  - fold (py_sum (take (S i) cash_flows)) in Hat. rewrite (py_sum_take_S _ _ _ Hi) in Hat.
    destruct i as [|i]; [lia|]. specialize (Hbefore i ltac:(lia)).
    fold (py_sum (take (S i) cash_flows)) in Hbefore. split; lra.
  - apply round2_close.
Qed.

Lemma payback_period_is_interpolated_witness :
  exists (i : nat) (cf : Q),
    recovering_flows !! i = Some cf
    /\ 0 <= py_sum (take (S i) recovering_flows)
    /\ ((0 < i)%nat ->
        Qabs ((167 # 100)
              - (inject_Z (Z.of_nat i) - 1 + (0 - py_sum (take i recovering_flows)) / cf))
        <= 1 # 200).
Proof.
  destruct (payback_period_is_interpolated recovering_flows (167 # 100))
    as (i & cf & Hi & _ & Hat & _ & Hv); [vm_compute; reflexivity|].
  exists i, cf. split; [exact Hi|]. split; [exact Hat|]. intros Hpos.
  now destruct (Hv Hpos) as (_ & _ & Hclose).
Defined.

(** The payback loop does not tell equal rationals apart. *)
Lemma payback_loop_comp (l l' : list (Z * Q)) (a a' : Q) :
  a == a' ->
  Forall2 (fun x y => fst x = fst y /\ snd x == snd y) l l' ->
  payback_loop a l = payback_loop a' l'.
Proof.
  intros Ha Hl. revert a a' Ha.
  induction Hl as [|[i cf] [i' cf'] l l' [Hi Hcf] _ IH]; intros a a' Ha; [reflexivity|].
  cbn [fst snd] in Hi, Hcf. subst i'. cbn [payback_loop].
  assert (Hsum : a + cf == a' + cf') by (rewrite Ha, Hcf; reflexivity).
  assert (E1 : Qle_bool 0 (a + cf) = Qle_bool 0 (a' + cf')).
  { destruct (Qle_bool 0 (a + cf)) eqn:E, (Qle_bool 0 (a' + cf')) eqn:E'; try reflexivity.
    - apply Qle_bool_iff in E. apply Qle_bool_false in E'. lra.
    - apply Qle_bool_iff in E'. apply Qle_bool_false in E. lra. }
  assert (E2 : Qeq_bool cf 0 = Qeq_bool cf' 0).
  { destruct (Qeq_bool cf 0) eqn:E, (Qeq_bool cf' 0) eqn:E'; try reflexivity.
    - apply Qeq_bool_iff in E. apply Qeq_bool_false in E'. lra.
    - apply Qeq_bool_iff in E'. apply Qeq_bool_false in E. lra. }
  rewrite <- E1, <- E2.
  destruct (Qle_bool 0 (a + cf)); [|now apply IH].
  destruct ((0 <? i)%Z && negb (Qeq_bool cf 0)) eqn:G; [|reflexivity].
  apply andb_true_iff in G as [_ G]. apply negb_true_iff, Qeq_bool_false in G.
  f_equal. apply round2_comp.
  assert (G' : ~ cf' == 0) by lra.
  rewrite Hsum. rewrite Hcf at 1 2. reflexivity.
Qed.

Lemma discounted_at_zero_rate (cash_flows : list Q) (t : Z) :
  exists ds,
    list_comp (discount_flow 0) (enumerate_from t cash_flows) = Ok ds
    /\ Forall2 (fun x y => fst x = fst y /\ snd x == snd y)
               (enumerate_from t ds) (enumerate_from t cash_flows).
Proof.
  revert t. induction cash_flows as [|cf l IH]; intros t; cbn [enumerate_from list_comp].
  - exists []. split; [reflexivity | constructor].
  - assert (Hne : ~ 1 + 0 == 0) by (intros H; lra).
    rewrite (discount_flow_defined 0 t cf Hne). cbn [bind].
    destruct (IH (t + 1)%Z) as (ds & -> & Hall). cbn [bind].
    eexists. split; [reflexivity|]. cbn [enumerate_from]. constructor; [|exact Hall].
    cbn [fst snd]. split; [reflexivity|].
    assert (H1 : (1 + 0) ^ t == 1).
    { assert (H10 : 1 + 0 == 1) by ring. rewrite H10. apply Qpower_1. }
    rewrite H1. field.
Qed.

(** X5.  At a discount rate of 0 the discounted payback period is the
    payback period; and at a rate of -1 with two entries or more the
    discounted variant raises [ZeroDivisionError], where the undiscounted one
    still answers. *)
Theorem discounted_payback_at_zero_rate (cash_flows : list Q) :
  calculate_discounted_payback_period cash_flows 0
  = Ok (calculate_payback_period cash_flows)
  /\ ((2 <= len cash_flows)%Z ->
      calculate_discounted_payback_period cash_flows (-1) = Raise ZeroDivisionError).
Proof.
  split.
  - unfold calculate_discounted_payback_period, calculate_payback_period, enumerate.
    destruct (discounted_at_zero_rate cash_flows 0) as (ds & -> & Hall). cbn [bind].
    f_equal. apply payback_loop_comp; [reflexivity | exact Hall].
  - intros Hlen. unfold calculate_discounted_payback_period, enumerate.
    destruct cash_flows as [|x [|y l]]; unfold len in Hlen; simpl length in Hlen; try lia.
    cbn [enumerate_from list_comp]. unfold discount_flow at 1. unfold py_pow at 1.
    cbn [Z.ltb Z.compare andb bind Qpower]. unfold py_truediv at 1.
    change (Qeq_bool 1 0) with false. cbn [bind].
    unfold discount_flow at 1. unfold py_pow at 1. change (0 + 1 <? 0)%Z with false.
    cbn [andb bind]. unfold py_truediv at 1.
    change (Qeq_bool ((1 + -1) ^ (0 + 1)) 0) with true. reflexivity.
Qed.

Lemma discounted_payback_at_zero_rate_witness :
  calculate_discounted_payback_period recovering_flows 0 = Ok (Some (167 # 100))
  /\ calculate_discounted_payback_period recovering_flows (-1) = Raise ZeroDivisionError.
Proof.
  destruct (discounted_payback_at_zero_rate recovering_flows) as [Hzero Hraise].
  split.
  - rewrite Hzero. vm_compute. reflexivity.
  - apply Hraise. unfold len. simpl. lia.
Defined.

(** *** The financial summary and the IRR *)





(** ** More about the projectors *)

Lemma fallback_year (default_value : Q) (y : Z) :
  (1 <= y)%Z ->
  interpolate_year {[ 1%Z := default_value ]} [1%Z] y = Ok default_value.
Proof.
  intros Hy. unfold interpolate_year.
  destruct (decide (y = 1%Z)) as [->|Hy1].
  - now rewrite (lookup_singleton_eq (M:=gmap Z)).
  - rewrite (lookup_singleton_ne (M:=gmap Z)) by congruence.
    rewrite !filter_cons, !filter_nil.
    rewrite decide_True by lia. rewrite decide_False by lia.
    cbn [max_default min_default foldl list_last last bind]. unfold getitem.
    now rewrite (lookup_singleton_eq (M:=gmap Z)).
Qed.

Lemma uniform_table_lookup (rate : Q) (years y : Z) :
  uniform_table rate years !! y = if decide (1 <= y <= years)%Z then Some rate else None.
Proof.
  unfold uniform_table.
  assert (Hgen : forall l : list Z,
             (list_to_map ((fun year => (year, rate)) <$> l) : gmap Z Q) !! y
             = if decide (y ∈ l) then Some rate else None).
  { induction l as [|x l IH]; cbn [fmap list_fmap list_to_map foldr].
    - rewrite lookup_empty. now rewrite decide_False by apply not_elem_of_nil.
    - cbn. destruct (decide (x = y)) as [->|Hne].
      + rewrite lookup_insert_eq. rewrite decide_True; [reflexivity|].
        apply elem_of_cons. now left.
      + rewrite lookup_insert_ne by exact Hne. rewrite IH.
        destruct (decide (y ∈ l)) as [Hin|Hnin].
        * rewrite decide_True; [reflexivity|]. apply elem_of_cons. now right.
        * rewrite decide_False; [reflexivity|].
          intros Hc. apply elem_of_cons in Hc as [?|?]; [congruence | contradiction]. }
  rewrite Hgen. destruct (decide (1 <= y <= years)%Z) as [Hy|Hy].
  - rewrite decide_True; [reflexivity|]. apply elem_of_seqZ. lia.
  - rewrite decide_False; [reflexivity|]. intros Hc. apply elem_of_seqZ in Hc. lia.
Qed.

(** The dense table of a schedule that has a defined year: the loop runs on
    the schedule itself. *)
Lemma dense_table_on_schedule (default_value : Q) (rates : schedule) (H k : Z) (d : gmap Z Q) :
  defined_key (as_table default_value rates H) H k ->
  dense_table default_value rates H = Ok d ->
  fill_years (seqZ 1 H)
    (interpolate_year (as_table default_value rates H)
       (defined_years_of (as_table default_value rates H) H)) = Ok d.
Proof.
  intros Hk Hd.
  destruct (dense_table_cases default_value rates H) as [[Hnil _]|[_ E]].
  - apply elem_of_defined_years in Hk. rewrite Hnil in Hk. inversion Hk.
  - now rewrite <- E.
Qed.

(** X8.  The dense table of a sparse schedule is always built (no lookup
    fails, nothing is divided by zero), has an entry for every year of
    1..H and for no other, and gives a year that is a key of the schedule
    the schedule's own value. *)
Theorem dense_table_covers_horizon (default_value : Q) (m : gmap Z Q) (H : Z) :
  exists d,
    dense_table default_value (Mapping m) H = Ok d
    /\ (forall y, is_Some (d !! y) <-> (1 <= y <= H)%Z)
    /\ (forall y v, (1 <= y <= H)%Z -> m !! y = Some v -> d !! y = Some v).
Proof.
  destruct (dense_table_defined default_value (Mapping m) H) as (d & Hd & Hdom).
  exists d. split; [exact Hd|]. split; [exact Hdom|].
  intros y v Hy Hv.
  assert (Hk : defined_key (as_table default_value (Mapping m) H) H y).
  { cbn [as_table]. split; [now exists v | lia]. }
  pose proof (dense_table_on_schedule _ _ _ _ _ Hk Hd) as Hf. cbn [as_table] in Hf.
  apply (fill_years_lookup _ _ _ Hf). split; [apply elem_of_seqZ; lia|].
  unfold interpolate_year. now rewrite Hv.
Qed.

(** Without a defined year the loop runs on [{1: default_value}]. *)
Lemma no_defined_year_default (default_value : Q) (m : gmap Z Q) (H : Z) (d : gmap Z Q) :
  (forall k, is_Some (m !! k) -> (H < k)%Z) ->
  dense_table default_value (Mapping m) H = Ok d ->
  forall y, (1 <= y <= H)%Z -> d !! y = Some default_value.
Proof.
  intros Hbeyond Hd y Hy.
  destruct (dense_table_cases default_value (Mapping m) H) as [[_ E]|[Hne _]];
    cbn [as_table] in *.
  - rewrite E in Hd. apply (fill_years_lookup _ _ _ Hd).
    split; [apply elem_of_seqZ; lia | apply fallback_year; lia].
  - exfalso. apply Hne, no_element_nil. intros k Hk.
    apply elem_of_defined_years in Hk as [Hsome Hle]. specialize (Hbeyond k Hsome). lia.
Qed.

(** X9.  A schedule with no key up to the horizon (an empty schedule, or one
    whose keys all lie beyond it) gives every year of 1..H the default value:
    5% for growth rates, 5.0 for margins. *)
Theorem dense_table_without_defined_year (default_value : Q) (m : gmap Z Q) (H : Z) :
  (forall k, is_Some (m !! k) -> (H < k)%Z) ->
  exists d,
    dense_table default_value (Mapping m) H = Ok d
    /\ forall y, (1 <= y <= H)%Z -> d !! y = Some default_value.
Proof.
  intros Hbeyond.
  destruct (dense_table_defined default_value (Mapping m) H) as (d & Hd & _).
  exists d. split; [exact Hd|].
  now apply (no_defined_year_default default_value m H d).
Qed.

Lemma dense_table_without_defined_year_witness :
  exists d,
    dense_table (5 # 100) (Mapping {[ 20%Z := 1 # 10 ]}) 3 = Ok d
    /\ forall y, (1 <= y <= 3)%Z -> d !! y = Some (5 # 100).
Proof.
  apply (dense_table_without_defined_year (5 # 100) {[ 20%Z := 1 # 10 ]} 3).
  intros k [v Hv]. apply lookup_singleton_Some in Hv as [<- _]. lia.
Defined.

(** X10.  A schedule that is not a mapping is applied to every year: the
    number itself when [float] accepts it, the default value otherwise. *)
Theorem dense_table_of_scalar (default_value : Q) (v : pyval) (H : Z) :
  exists d,
    dense_table default_value (Scalar v) H = Ok d
    /\ forall y, (1 <= y <= H)%Z -> d !! y = Some (default default_value (py_float v)).
Proof.
  destruct (dense_table_defined default_value (Scalar v) H) as (d & Hd & _).
  exists d. split; [exact Hd|]. intros y Hy.
  assert (Htab : as_table default_value (Scalar v) H
                 = uniform_table (default default_value (py_float v)) H).
  { cbn [as_table]. now destruct (py_float v). }
  assert (Hlook : as_table default_value (Scalar v) H !! y
                  = Some (default default_value (py_float v))).
  { rewrite Htab, uniform_table_lookup. now rewrite decide_True by lia. }
  assert (Hk : defined_key (as_table default_value (Scalar v) H) H y).
  { split; [rewrite Hlook; eauto | lia]. }
  pose proof (dense_table_on_schedule _ _ _ _ _ Hk Hd) as Hf.
  apply (fill_years_lookup _ _ _ Hf). split; [apply elem_of_seqZ; lia|].
  unfold interpolate_year. now rewrite Hlook.
Qed.

(** *** Where an interpolated value comes from *)

(** Every value of the loop is a convex combination of two values of the
    table. *)
Lemma interpolate_year_convex (table : gmap Z Q) (dy : list Z) (y : Z) (v : Q) :
  interpolate_year table dy y = Ok v ->
  exists kl ku vl vu ratio,
    table !! kl = Some vl /\ table !! ku = Some vu
    /\ 0 <= ratio <= 1 /\ v == vl + (vu - vl) * ratio.
Proof.
  intros H. unfold interpolate_year in H.
  assert (Hget : forall k w, getitem table k = Ok w -> table !! k = Some w).
  { intros k w Hg. unfold getitem in Hg. destruct (table !! k) as [w'|]; [|discriminate].
    now injection Hg as <-. }
  assert (Hsame : forall k w, table !! k = Some w ->
            exists kl ku vl vu ratio,
              table !! kl = Some vl /\ table !! ku = Some vu
              /\ 0 <= ratio <= 1 /\ w == vl + (vu - vl) * ratio).
  { intros k w Hk. exists k, k, w, w, 0. split; [exact Hk|]. split; [exact Hk|].
    split; [lra | ring]. }
  destruct (table !! y) as [w|] eqn:Hy.
  { injection H as <-. now apply (Hsame y). }
  destruct (max_default (filter (fun k => (k < y)%Z) dy)) as [l|] eqn:Hlo.
  - destruct (min_default (filter (fun k => (k > y)%Z) dy)) as [u|] eqn:Hup.
    + apply bind_Ok in H as (vl & Hvl & H). apply bind_Ok in H as (vu & Hvu & H).
      apply bind_Ok in H as (ratio & Hr & H). injection H as <-.
      apply max_default_Some in Hlo as [Hlo _]. apply min_default_Some in Hup as [Hup _].
      apply list_elem_of_filter in Hlo as [Hlt _], Hup as [Hgt _].
      unfold py_truediv in Hr. destruct (Qeq_bool _ _); [discriminate|]. injection Hr as <-.
      assert (Hden : 0 < inject_Z (u - l)).
      { change 0 with (inject_Z 0). rewrite <- Zlt_Qlt. lia. }
      assert (Hnum : 0 <= inject_Z (y - l)).
      { change 0 with (inject_Z 0). rewrite <- Zle_Qle. lia. }
      assert (Hle : inject_Z (y - l) <= inject_Z (u - l)) by (rewrite <- Zle_Qle; lia).
      exists l, u, vl, vu, (inject_Z (y - l) / inject_Z (u - l)).
      split; [now apply Hget|]. split; [now apply Hget|]. split; [|reflexivity].
      split; [apply Qle_shift_div_l; [exact Hden | lra]
             | apply Qle_shift_div_r; [exact Hden | lra]].
    + apply bind_Ok in H as (k & _ & H). apply (Hsame k). now apply Hget.
  - apply bind_Ok in H as (k & _ & H). apply (Hsame k). now apply Hget.
Qed.

(** A lower bound of the schedule's values and of the default value is a
    lower bound of the dense table. *)
Lemma dense_table_lower_bound (default_value : Q) (m : gmap Z Q) (H : Z) (lo : Q)
    (d : gmap Z Q) :
  lo <= default_value ->
  (forall j w, m !! j = Some w -> lo <= w) ->
  dense_table default_value (Mapping m) H = Ok d ->
  forall y v, d !! y = Some v -> lo <= v.
Proof.
  intros Hdef Hvals Hd y v Hv.
  assert (Hconv : forall table dy, (forall j w, table !! j = Some w -> lo <= w) ->
            interpolate_year table dy y = Ok v -> lo <= v).
  { intros table dy Ht Hi.
    apply interpolate_year_convex in Hi as (kl & ku & vl & vu & ratio & Hl & Hu & Hr & ->).
    apply Ht in Hl, Hu. nra. }
  destruct (dense_table_cases default_value (Mapping m) H) as [[_ E]|[_ E]];
    cbn [as_table] in E; rewrite E in Hd;
    apply (fill_years_lookup _ _ _ Hd) in Hv as [_ Hv]; revert Hv; apply Hconv.
  - intros j w Hw. apply lookup_singleton_Some in Hw as [_ <-]. exact Hdef.
  - exact Hvals.
Qed.

(** The values of the dense table of a schedule with a defined year stay
    between the bounds of the schedule's values. *)
Lemma dense_table_range (default_value : Q) (m : gmap Z Q) (H k : Z) (lo hi : Q)
    (d : gmap Z Q) :
  defined_key m H k ->
  (forall j w, m !! j = Some w -> lo <= w <= hi) ->
  dense_table default_value (Mapping m) H = Ok d ->
  forall y v, d !! y = Some v -> lo <= v <= hi.
Proof.
  intros Hk Hvals Hd y v Hv.
  pose proof (dense_table_on_schedule default_value (Mapping m) H k d Hk Hd) as Hf.
  cbn [as_table] in Hf.
  apply (fill_years_lookup _ _ _ Hf) in Hv as [_ Hv].
  apply interpolate_year_convex in Hv as (kl & ku & vl & vu & ratio & Hl & Hu & Hr & ->).
  apply Hvals in Hl, Hu. split; nra.
Qed.

(** X11.  Interpolation never leaves the range of the schedule: when the
    schedule has a key up to the horizon and all its values lie between [lo]
    and [hi], so does every entry of the dense table. *)
Theorem dense_table_within_schedule_range (default_value : Q) (m : gmap Z Q) (H k : Z)
    (lo hi : Q) :
  defined_key m H k ->
  (forall j w, m !! j = Some w -> lo <= w <= hi) ->
  exists d,
    dense_table default_value (Mapping m) H = Ok d
    /\ forall y v, d !! y = Some v -> lo <= v <= hi.
Proof.
  intros Hk Hvals.
  destruct (dense_table_defined default_value (Mapping m) H) as (d & Hd & _).
  exists d. split; [exact Hd|]. now apply (dense_table_range default_value m H k lo hi d).
Qed.

Lemma dense_table_within_schedule_range_witness :
  exists d,
    dense_table 5 (Mapping pmg_margin_schedule) 3 = Ok d
    /\ forall y v, d !! y = Some v -> 5 <= v <= 27 # 5.
Proof.
  apply (dense_table_within_schedule_range 5 pmg_margin_schedule 3 1 5 (27 # 5)).
  - split; [exists 5; vm_compute; reflexivity | lia].
  - intros j w Hw. unfold pmg_margin_schedule in Hw.
    apply lookup_insert_Some in Hw as [[_ <-]|[_ Hw]]; [split; [apply Qle_refl | discriminate]|].
    apply lookup_singleton_Some in Hw as [_ <-]. split; [discriminate | apply Qle_refl].
Defined.

(** *** The volumes *)

(** The keys a loop of the shape [d[year] = ...] leaves in [d]. *)
Lemma sales_loop_keys (all_growth_rates : gmap Z Q) (l : list Z) (m0 d : gmap Z Q) :
  for_each l
    (fun yearly_sales year =>
       let! previous_sales := getitem yearly_sales (year - 1) in
       let! growth_rate := getitem all_growth_rates year in
       Ok (<[year := previous_sales * (1 + growth_rate)]> yearly_sales)) m0 = Ok d ->
  forall y, is_Some (d !! y) -> is_Some (m0 !! y) \/ y ∈ l.
Proof.
  revert m0. induction l as [|x l IH]; intros m0 H y Hy; cbn [for_each] in H.
  - injection H as <-. now left.
  - apply bind_Ok in H as (m1 & Hstep & Hrest).
    apply bind_Ok in Hstep as (p & _ & Hstep). apply bind_Ok in Hstep as (g & _ & Hstep).
    injection Hstep as <-.
    destruct (IH _ Hrest y Hy) as [Hm|Hl].
    + destruct (decide (y = x)) as [->|Hne].
      * right. apply elem_of_cons. now left.
      * rewrite lookup_insert_ne in Hm by congruence. now left.
    + right. apply elem_of_cons. now right.
Qed.

(** The years of the series: year 0 and the years of 1..years. *)
Lemma product_sales_keys (base_sales : Q) (growth_rates : schedule) (years : Z)
    (d : gmap Z Q) :
  calculate_product_sales base_sales growth_rates years = Ok d ->
  forall y, is_Some (d !! y) <-> y = 0%Z \/ (1 <= y <= years)%Z.
Proof.
  intros Hd.
  destruct (calculate_product_sales_compounds base_sales growth_rates years)
    as (all & d' & Hall & Hd' & Hzero & Hstep).
  rewrite Hd in Hd'. injection Hd' as <-.
  unfold calculate_product_sales in Hd. rewrite Hall in Hd. cbn [bind] in Hd.
  intros y. split.
  - intros Hy. destruct (sales_loop_keys _ _ _ _ Hd y Hy) as [Hm|Hl].
    + left. destruct Hm as [v Hv]. now apply lookup_singleton_Some in Hv as [<- _].
    + right. apply elem_of_seqZ in Hl. lia.
  - intros [->|Hy]; [rewrite Hzero; eauto|].
    destruct (Hstep y Hy) as (p & g & _ & _ & Hv). rewrite Hv. eauto.
Qed.

(** X12.  [calculate_product_sales] always answers; the series it returns
    has year 0, holding the daily base volume times 365, and the years
    1..years, and no other key: a horizon below 1 gives the one-entry
    series. *)
Theorem product_sales_years (base_sales : Q) (growth_rates : schedule) (years : Z) :
  exists d,
    calculate_product_sales base_sales growth_rates years = Ok d
    /\ d !! 0%Z = Some (base_sales * 365)
    /\ (forall y, is_Some (d !! y) <-> y = 0%Z \/ (1 <= y <= years)%Z)
    /\ ((years < 1)%Z -> d = {[ 0%Z := base_sales * 365 ]}).
Proof.
  destruct (calculate_product_sales_compounds base_sales growth_rates years)
    as (all & d & Hall & Hd & Hzero & Hstep).
  exists d. split; [exact Hd|]. split; [exact Hzero|].
  split; [now apply (product_sales_keys base_sales growth_rates years)|].
  unfold calculate_product_sales in Hd. rewrite Hall in Hd. cbn [bind] in Hd.
  intros Hlt. rewrite seqZ_nil in Hd by lia. cbn [for_each] in Hd. now injection Hd as <-.
Qed.

(** Zero in, zero out: the volumes of a zero base. *)
Lemma zero_base_zero_volumes (base_sales : Q) (growth_rates : schedule) (years : Z)
    (d : gmap Z Q) :
  base_sales == 0 ->
  calculate_product_sales base_sales growth_rates years = Ok d ->
  forall y v, d !! y = Some v -> v == 0.
Proof.
  intros Hbase Hd.
  destruct (calculate_product_sales_compounds base_sales growth_rates years)
    as (all & d' & _ & Hd' & Hzero & Hstep).
  rewrite Hd in Hd'. injection Hd' as <-.
  pose proof (product_sales_keys base_sales growth_rates years d Hd) as Hdom.
  assert (Hnat : forall n : nat, forall v, d !! Z.of_nat n = Some v -> v == 0).
  { induction n as [|n IH]; intros v Hv.
    - change (Z.of_nat 0) with 0%Z in Hv. rewrite Hzero in Hv. injection Hv as <-.
      rewrite Hbase. ring.
    - assert (Hy : (1 <= Z.of_nat (S n) <= years)%Z).
      { destruct (proj1 (Hdom (Z.of_nat (S n)))) as [?|?]; [rewrite Hv; eauto | lia | lia]. }
      destruct (Hstep _ Hy) as (p & g & Hp & _ & Hv').
      replace (Z.of_nat (S n) - 1)%Z with (Z.of_nat n) in Hp by lia.
      rewrite Hv in Hv'. injection Hv' as ->. rewrite (IH p Hp). ring. }
  intros y v Hv.
  assert (Hy : (0 <= y)%Z).
  { destruct (proj1 (Hdom y)) as [?|?]; [rewrite Hv; eauto | lia | lia]. }
  apply (Hnat (Z.to_nat y)). now rewrite Z2Nat.id by exact Hy.
Qed.

(** X13.  A dealer that sells nothing of a product is projected to sell
    nothing of it in every year, whatever the growth schedule. *)
Theorem product_sales_zero_base (base_sales : Q) (growth_rates : schedule) (years : Z) :
  base_sales == 0 ->
  exists d,
    calculate_product_sales base_sales growth_rates years = Ok d
    /\ forall y v, d !! y = Some v -> v == 0.
Proof.
  intros Hbase.
  destruct (calculate_product_sales_defined base_sales growth_rates years) as (d & Hd & _).
  exists d. split; [exact Hd|].
  now apply (zero_base_zero_volumes base_sales growth_rates years).
Qed.

Lemma product_sales_zero_base_witness :
  exists d,
    calculate_product_sales 0 (Mapping {[ 1%Z := 5 # 100 ]}) 3 = Ok d
    /\ forall y v, d !! y = Some v -> v == 0.
Proof.
  apply (product_sales_zero_base 0 (Mapping {[ 1%Z := 5 # 100 ]}) 3). reflexivity.
Defined.

(** X14.  With a non-negative base volume and a growth schedule without
    negative rates, the projected volumes never fall: each year's volume is
    at least the volume of the year before, and none is negative. *)
Theorem product_sales_never_fall (base_sales : Q) (m : gmap Z Q) (years : Z) (d : gmap Z Q) :
  0 <= base_sales ->
  (forall j g, m !! j = Some g -> 0 <= g) ->
  calculate_product_sales base_sales (Mapping m) years = Ok d ->
  forall y, (1 <= y <= years)%Z ->
    exists previous_sales sales,
      d !! (y - 1)%Z = Some previous_sales /\ d !! y = Some sales
      /\ 0 <= previous_sales <= sales.
Proof.
  intros Hbase Hrates Hd.
  destruct (calculate_product_sales_compounds base_sales (Mapping m) years)
    as (all & d' & Hall & Hd' & Hzero & Hstep).
  rewrite Hd in Hd'. injection Hd' as <-.
  assert (Hg : forall y g, all !! y = Some g -> 0 <= g).
  { apply (dense_table_lower_bound (5 # 100) m years 0 all); [discriminate | exact Hrates
                                                             | exact Hall]. }
  assert (Hnat : forall n : nat, (Z.of_nat n <= years)%Z ->
             exists v, d !! Z.of_nat n = Some v /\ 0 <= v).
  { induction n as [|n IH]; intros Hn.
    - exists (base_sales * 365). split; [exact Hzero | nra].
    - destruct IH as (p & Hp & Hp0); [lia|].
      destruct (Hstep (Z.of_nat (S n))) as (p' & g & Hp' & Hgy & Hv); [lia|].
      replace (Z.of_nat (S n) - 1)%Z with (Z.of_nat n) in Hp' by lia.
      rewrite Hp in Hp'. injection Hp' as <-.
      exists (p * (1 + g)). split; [exact Hv|]. apply Hg in Hgy. nra. }
  intros y Hy. destruct (Hstep y Hy) as (p & g & Hp & Hgy & Hv).
  exists p, (p * (1 + g)). split; [exact Hp|]. split; [exact Hv|].
  destruct (Hnat (Z.to_nat (y - 1))) as (p' & Hp' & Hp0); [lia|].
  rewrite Z2Nat.id in Hp' by lia. rewrite Hp in Hp'. injection Hp' as <-.
  apply Hg in Hgy. nra.
Qed.

Lemma product_sales_never_fall_witness :
  exists d,
    calculate_product_sales 1000 (Mapping {[ 1%Z := 5 # 100 ]}) 3 = Ok d
    /\ forall y, (1 <= y <= 3)%Z ->
         exists previous_sales sales,
           d !! (y - 1)%Z = Some previous_sales /\ d !! y = Some sales
           /\ 0 <= previous_sales <= sales.
Proof.
  destruct (calculate_product_sales 1000 (Mapping {[ 1%Z := 5 # 100 ]}) 3) as [d|e] eqn:E;
    [|vm_compute in E; discriminate].
  exists d. split; [reflexivity|].
  apply (product_sales_never_fall 1000 {[ 1%Z := 5 # 100 ]} 3 d).
  - discriminate.
  - intros j g Hg. apply lookup_singleton_Some in Hg as [_ <-]. discriminate.
  - exact E.
Defined.

(** Volumes on a dense table that holds one rate grow geometrically. *)
Lemma product_sales_geometric (base_sales : Q) (rates : schedule) (years : Z) (g : Q)
    (all d : gmap Z Q) :
  dense_table (5 # 100) rates years = Ok all ->
  (forall y g', all !! y = Some g' -> g' == g) ->
  calculate_product_sales base_sales rates years = Ok d ->
  forall y, (0 <= y <= years)%Z ->
    exists v, d !! y = Some v /\ v == base_sales * 365 * (1 + g) ^ y.
Proof.
  intros Hall Hrate Hd.
  destruct (calculate_product_sales_compounds base_sales rates years)
    as (all' & d' & Hall' & Hd' & Hzero & Hstep).
  rewrite Hd in Hd'. injection Hd' as <-.
  rewrite Hall in Hall'. injection Hall' as <-.
  assert (Hnat : forall n : nat, (Z.of_nat n <= years)%Z ->
             exists v, d !! Z.of_nat n = Some v /\ v == base_sales * 365 * (1 + g) ^ Z.of_nat n).
  { induction n as [|n IH]; intros Hn.
    - exists (base_sales * 365). split; [exact Hzero|].
      change (Z.of_nat 0) with 0%Z. cbn [Qpower]. ring.
    - destruct IH as (p & Hp & Hpv); [lia|].
      destruct (Hstep (Z.of_nat (S n))) as (p' & g' & Hp' & Hgy & Hv); [lia|].
      replace (Z.of_nat (S n) - 1)%Z with (Z.of_nat n) in Hp' by lia.
      rewrite Hp in Hp'. injection Hp' as <-.
      apply Hrate in Hgy.
      exists (p * (1 + g')). split; [exact Hv|]. rewrite Hpv, Hgy.
      replace (Z.of_nat (S n)) with (Z.of_nat n + 1)%Z by lia.
      destruct (Qeq_dec (1 + g) 0) as [Hz|Hnz].
      + rewrite Hz. rewrite !Qmult_0_r.
        rewrite Qpower_0 by lia. ring.
      + rewrite Qpower_plus by exact Hnz. cbn [Qpower Qpower_positive pow_pos]. ring. }
  intros y Hy. destruct (Hnat (Z.to_nat y)) as (v & Hv & Hval); [lia|].
  rewrite Z2Nat.id in Hv, Hval by lia. eauto.
Qed.

(** The dense table of a one-key schedule holds that key's rate when the key
    is a defined year. *)
Lemma dense_table_one_rate (default_value : Q) (k : Z) (g : Q) (years : Z) (all : gmap Z Q) :
  (k <= years)%Z ->
  dense_table default_value (Mapping {[ k := g ]}) years = Ok all ->
  forall y g', all !! y = Some g' -> g' == g.
Proof.
  intros Hk Hall y g' Hy.
  destruct (dense_table_range default_value {[ k := g ]} years k g g all) with (y := y) (v := g')
    as [Hlo Hhi].
  - split; [exists g; apply lookup_singleton_eq | exact Hk].
  - intros j w Hw. apply lookup_singleton_Some in Hw as [_ <-]. split; apply Qle_refl.
  - exact Hall.
  - exact Hy.
  - now apply Qle_antisym.
Qed.

(** X15.  A one-key growth schedule [{k: g}] with [k] up to the horizon makes
    the volumes grow geometrically: year [y] holds the annual base times
    [(1 + g) ^ y]. *)
Theorem product_sales_constant_growth (base_sales : Q) (k : Z) (g : Q) (years : Z)
    (d : gmap Z Q) :
  (k <= years)%Z ->
  calculate_product_sales base_sales (Mapping {[ k := g ]}) years = Ok d ->
  forall y, (0 <= y <= years)%Z ->
    exists v, d !! y = Some v /\ v == base_sales * 365 * (1 + g) ^ y.
Proof.
  intros Hk Hd.
  destruct (dense_table_defined (5 # 100) (Mapping {[ k := g ]}) years) as (all & Hall & _).
  apply (product_sales_geometric base_sales (Mapping {[ k := g ]}) years g all d Hall);
    [|exact Hd].
  now apply (dense_table_one_rate (5 # 100) k g years).
Qed.

Lemma product_sales_constant_growth_witness :
  exists d,
    calculate_product_sales 1000 (Mapping {[ 1%Z := 5 # 100 ]}) 3 = Ok d
    /\ forall y, (0 <= y <= 3)%Z ->
         exists v, d !! y = Some v /\ v == 1000 * 365 * (1 + (5 # 100)) ^ y.
Proof.
  destruct (calculate_product_sales 1000 (Mapping {[ 1%Z := 5 # 100 ]}) 3) as [d|e] eqn:E;
    [|vm_compute in E; discriminate].
  exists d. split; [reflexivity|].
  apply (product_sales_constant_growth 1000 1 (5 # 100) 3 d); [lia | exact E].
Defined.

(** *** The revenues *)

(** The years of a revenue series: 0..years. *)
Lemma product_revenue_keys (sales_volumes : gmap Z Q) (margins : schedule) (years : Z)
    (inflation_rate : Q) (revenue : gmap Z Q) :
  calculate_product_revenue sales_volumes margins years inflation_rate = Ok revenue ->
  forall y, is_Some (revenue !! y) <-> (0 <= y <= years)%Z.
Proof.
  intros Hrev y.
  destruct (calculate_product_revenue_defined sales_volumes margins years inflation_rate)
    as (all & rev' & Hall & Hrev' & Hval).
  rewrite Hrev in Hrev'. injection Hrev' as <-.
  unfold calculate_product_revenue in Hrev. rewrite Hall in Hrev. cbn [bind] in Hrev. split.
  - intros [v Hv]. apply (fill_years_lookup _ _ _ Hrev) in Hv as [Hin _].
    apply elem_of_seqZ in Hin. lia.
  - intros Hy. rewrite (Hval y Hy). eauto.
Qed.

(** X16.  [calculate_product_revenue] always answers, and its series has
    exactly the years 0..years.  For a horizon of 0 the dense margin table is
    empty, so the year-0 revenue is the year-0 volume times the literal
    fallback 5.0, whatever the margin schedule says. *)
Theorem product_revenue_years (sales_volumes : gmap Z Q) (margins : schedule) (years : Z)
    (inflation_rate : Q) :
  (exists revenue,
     calculate_product_revenue sales_volumes margins years inflation_rate = Ok revenue
     /\ forall y, is_Some (revenue !! y) <-> (0 <= y <= years)%Z)
  /\ calculate_product_revenue sales_volumes margins 0 inflation_rate
     = Ok {[ 0%Z := dict_get sales_volumes 0 0 * 5 ]}.
Proof.
  split.
  - destruct (calculate_product_revenue_defined sales_volumes margins years inflation_rate)
      as (all & rev & _ & Hrev & _).
    exists rev. split; [exact Hrev|].
    now apply (product_revenue_keys sales_volumes margins years inflation_rate).
  - unfold calculate_product_revenue.
    assert (Hd : dense_table 5 margins 0 = Ok ∅).
    { destruct (dense_table_cases 5 margins 0) as [[_ E]|[_ E]]; rewrite E; reflexivity. }
    rewrite Hd. reflexivity.
Qed.

(** Zero in, zero out: the revenues of zero volumes. *)
Lemma zero_volumes_zero_revenue (sales_volumes : gmap Z Q) (margins : schedule)
    (years : Z) (inflation_rate : Q) (revenue : gmap Z Q) :
  (forall y v, sales_volumes !! y = Some v -> v == 0) ->
  calculate_product_revenue sales_volumes margins years inflation_rate = Ok revenue ->
  forall y v, revenue !! y = Some v -> v == 0.
Proof.
  intros Hzero Hrev y v Hv.
  pose proof (product_revenue_keys _ _ _ _ _ Hrev y) as Hdom.
  destruct (calculate_product_revenue_defined sales_volumes margins years inflation_rate)
    as (all & rev' & _ & Hrev' & Hval).
  rewrite Hrev in Hrev'. injection Hrev' as <-.
  assert (Hy : (0 <= y <= years)%Z) by (apply Hdom; rewrite Hv; eauto).
  rewrite (Hval y Hy) in Hv. injection Hv as <-.
  assert (Hs : dict_get sales_volumes y 0 == 0).
  { unfold dict_get. destruct (sales_volumes !! y) as [w|] eqn:E; cbn; [|reflexivity].
    now apply (Hzero y). }
  rewrite Hs. ring.
Qed.

(** X17.  Volumes that are all zero (or missing) give revenues that are all
    zero, whatever the margins and the inflation rate. *)
Theorem product_revenue_zero_volumes (sales_volumes : gmap Z Q) (margins : schedule)
    (years : Z) (inflation_rate : Q) :
  (forall y v, sales_volumes !! y = Some v -> v == 0) ->
  exists revenue,
    calculate_product_revenue sales_volumes margins years inflation_rate = Ok revenue
    /\ forall y v, revenue !! y = Some v -> v == 0.
Proof.
  intros Hzero.
  destruct (calculate_product_revenue_defined sales_volumes margins years inflation_rate)
    as (all & revenue & _ & Hrev & _).
  exists revenue. split; [exact Hrev|].
  now apply (zero_volumes_zero_revenue sales_volumes margins years inflation_rate).
Qed.

Lemma product_revenue_zero_volumes_witness :
  exists revenue,
    calculate_product_revenue {[ 0%Z := 0; 1%Z := 0 ]} (Mapping pmg_margin_schedule) 3 (5 # 100)
    = Ok revenue
    /\ forall y v, revenue !! y = Some v -> v == 0.
Proof.
  apply (product_revenue_zero_volumes {[ 0%Z := 0; 1%Z := 0 ]} (Mapping pmg_margin_schedule)
           3 (5 # 100)).
  intros y v Hv. apply lookup_insert_Some in Hv as [[_ <-]|[_ Hv]]; [reflexivity|].
  apply lookup_singleton_Some in Hv as [_ <-]. reflexivity.
Defined.

(** ** More about run_scenario *)

(** *** What a run that answers has projected *)

Lemma run_scenario_body_products np_irr float_pow (d : DealerOutlet) (s : Scenario)
    (r : Results) :
  run_scenario_body np_irr float_pow d s = Ok r ->
  exists years,
    as_int (analysis_years s) = Ok years
    /\ calculate_product_sales (pmg_sales d)
         (schedule_get (default_growth_rates s) "pmg" (5 # 100)) years
       = Ok (yd_pmg_sales (res_yearly_data r))
    /\ calculate_product_sales (hsd_sales d)
         (schedule_get (default_growth_rates s) "hsd" (5 # 100)) years
       = Ok (yd_hsd_sales (res_yearly_data r))
    /\ calculate_product_sales (hobc_sales d)
         (schedule_get (default_growth_rates s) "hobc" (6 # 100)) years
       = Ok (yd_hobc_sales (res_yearly_data r))
    /\ calculate_product_sales (lube_sales d)
         (schedule_get (default_growth_rates s) "lube" (1 # 100)) years
       = Ok (yd_lube_sales (res_yearly_data r))
    /\ calculate_product_revenue (yd_pmg_sales (res_yearly_data r))
         (schedule_get (default_margins s) "pmg" 5) years (inflation_rate s)
       = Ok (yd_pmg_revenue (res_yearly_data r))
    /\ calculate_product_revenue (yd_hsd_sales (res_yearly_data r))
         (schedule_get (default_margins s) "hsd" 4) years (inflation_rate s)
       = Ok (yd_hsd_revenue (res_yearly_data r))
    /\ calculate_product_revenue (yd_hobc_sales (res_yearly_data r))
         (schedule_get (default_margins s) "hobc" 6) years (inflation_rate s)
       = Ok (yd_hobc_revenue (res_yearly_data r))
    /\ calculate_product_revenue (yd_lube_sales (res_yearly_data r))
         (schedule_get (default_margins s) "lube" 100) years (inflation_rate s)
       = Ok (yd_lube_revenue (res_yearly_data r)).
Proof.
  unfold run_scenario_body. intros H.
  apply bind_Ok in H as (years & Hyears & H). exists years.
  apply bind_Ok in H as (s1 & Hs1 & H). apply bind_Ok in H as (s2 & Hs2 & H).
  apply bind_Ok in H as (s3 & Hs3 & H). apply bind_Ok in H as (s4 & Hs4 & H).
  apply bind_Ok in H as (r1 & Hr1 & H). apply bind_Ok in H as (r2 & Hr2 & H).
  apply bind_Ok in H as (r3 & Hr3 & H). apply bind_Ok in H as (r4 & Hr4 & H).
  apply bind_Ok in H as (tot & _ & H). apply bind_Ok in H as (oc & _ & H).
  apply bind_Ok in H as (mt & _ & H). apply bind_Ok in H as (ins & _ & H).
  apply bind_Ok in H as (ri & _ & H).
  apply bind_Ok in H as ([[[[[npv irr] pb] dcf] ccf] mirr] & _ & H).
  injection H as <-. cbn.
  split; [exact Hyears|]. split; [exact Hs1|]. split; [exact Hs2|]. split; [exact Hs3|].
  split; [exact Hs4|]. split; [exact Hr1|]. split; [exact Hr2|]. split; [exact Hr3|].
  exact Hr4.
Qed.

(** A run that answers ran the body on the normalised object, whose horizon
    is the scenario's (or 15) and whose parameters are the scenario's. *)
Lemma run_scenario_Ok np_irr float_pow (d : DealerOutlet) (s : Scenario)
    (r : Results) (s' : Scenario) :
  run_scenario np_irr float_pow d s = (Ok r, s') ->
  s' = normalize_scenario s
  /\ run_scenario_body np_irr float_pow d s' = Ok r
  /\ analysis_years s' = PyInt (horizon_of s)
  /\ res_years r = horizon_of s
  /\ same_parameters s s'.
Proof.
  intros Hrun. unfold run_scenario in Hrun. injection Hrun as Hbody <-.
  destruct (normalize_scenario_spec s) as (Hsame & Hyears & _).
  split; [reflexivity|]. split; [exact Hbody|]. split; [exact Hyears|]. split; [|exact Hsame].
  apply run_scenario_body_Ok in Hbody as (years & Hy & Hry & _).
  rewrite Hyears in Hy. cbn [as_int] in Hy. congruence.
Qed.

(** The series [fill_years] builds over [range(years + 1)]. *)
Lemma fill_years_keys (years : Z) (value : Z -> result Q) (d : gmap Z Q) :
  fill_years (seqZ 0 (years + 1)) value = Ok d ->
  forall y, is_Some (d !! y) <-> (0 <= y <= years)%Z.
Proof.
  intros Hd y. split.
  - intros [v Hv]. apply (fill_years_lookup _ _ _ Hd) in Hv as [Hin _].
    apply elem_of_seqZ in Hin. lia.
  - intros Hy. destruct (fill_years_values _ _ _ y Hd) as (v & _ & Hv);
      [apply elem_of_seqZ; lia|]. rewrite Hv. eauto.
Qed.

(** X18.  In the result of a run, operating costs and insurance are 0 in
    year 0; in a year [y] of 1..horizon the operating costs are twelve times
    the dealer's monthly costs and the insurance is the initial investment
    times the property rate (1% when the scenario gives none), both inflated
    by (1 + inflation)^(y-1). *)
Theorem run_scenario_cost_series np_irr float_pow
    (d : DealerOutlet) (s : Scenario) (r : Results) (s' : Scenario) :
  run_scenario np_irr float_pow d s = (Ok r, s') ->
  let insurance_rate := default (1 # 100) (insurance_rates s !! "property"%string) in
  ((0 <= res_years r)%Z ->
     yd_operating_costs (res_yearly_data r) !! 0%Z = Some 0
     /\ yd_insurance (res_yearly_data r) !! 0%Z = Some 0)
  /\ forall y, (1 <= y <= res_years r)%Z ->
       yd_operating_costs (res_yearly_data r) !! y
       = Some (operating_costs d * 12 * (1 + inflation_rate s) ^ (y - 1))
       /\ yd_insurance (res_yearly_data r) !! y
          = Some (initial_investment d * insurance_rate * (1 + inflation_rate s) ^ (y - 1)).
Proof.
  intros Hrun. cbv zeta.
  apply run_scenario_Ok in Hrun as (_ & Hbody & _ & Hyears & Hsame).
  destruct Hsame as (_ & Hinf & _ & _ & _ & _ & _ & Hins).
  apply run_scenario_body_Ok in Hbody
    as (years & _ & Hry & _ & _ & Hoc & _ & Hin & _).
  rewrite Hry. split.
  - intros H0. split.
    + apply (fill_years_lookup _ _ _ Hoc). split; [apply elem_of_seqZ; lia | reflexivity].
    + apply (fill_years_lookup _ _ _ Hin). split; [apply elem_of_seqZ; lia | reflexivity].
  - intros y Hy.
    assert (Hne : (y =? 0)%Z = false) by (apply Z.eqb_neq; lia).
    split.
    + apply (fill_years_lookup _ _ _ Hoc). split; [apply elem_of_seqZ; lia|].
      unfold operating_costs_year. rewrite Hne.
      rewrite inflation_factor_defined by (left; lia). cbn [bind]. now rewrite Hinf.
    + apply (fill_years_lookup _ _ _ Hin). split; [apply elem_of_seqZ; lia|].
      unfold insurance_year. rewrite Hne.
      rewrite inflation_factor_defined by (left; lia). cbn [bind]. now rewrite Hinf, Hins.
Qed.

Lemma run_scenario_cost_series_witness :
  exists r s',
    run_scenario no_irr unit_pow test_dealer mixed_scenario = (Ok r, s')
    /\ yd_operating_costs (res_yearly_data r) !! 2%Z
       = Some (50000 * 12 * (1 + (5 # 100)) ^ (2 - 1))
    /\ yd_insurance (res_yearly_data r) !! 2%Z
       = Some (5000000 * (1 # 100) * (1 + (5 # 100)) ^ (2 - 1)).
Proof.
  destruct (run_scenario no_irr unit_pow test_dealer mixed_scenario) as [[r|e] s'] eqn:E;
    [|vm_compute in E; discriminate].
  assert (Hyears : res_years r = 3%Z).
  { destruct (run_scenario_Ok _ _ _ _ _ _ E) as (_ & _ & _ & Hy & _). exact Hy. }
  destruct (run_scenario_cost_series no_irr unit_pow _ _ _ _ E) as [_ Hy].
  destruct (Hy 2%Z) as [Hoc Hins]; [rewrite Hyears; lia|].
  exists r, s'. split; [reflexivity|]. split; [exact Hoc | exact Hins].
Defined.

(** *** Maintenance and rental income *)

Lemma inflation_factor_year_0 (s : Scenario) :
  ~ 1 + inflation_rate s == 0 ->
  inflation_factor s 0 = Ok (/ (1 + inflation_rate s)).
Proof.
  intros Hne. unfold inflation_factor, py_pow. apply Qeq_bool_false in Hne.
  rewrite Hne, andb_false_r. reflexivity.
Qed.

Lemma inflation_factor_raises (s : Scenario) :
  1 + inflation_rate s == 0 -> inflation_factor s 0 = Raise ZeroDivisionError.
Proof.
  intros Hz. unfold inflation_factor, py_pow. apply Qeq_bool_iff in Hz. now rewrite Hz.
Qed.

(** The maintenance of a year of 1..years, when the signage period is not 0. *)
Lemma maintenance_year_value (s : Scenario) (years y : Z) :
  (1 <= y <= years)%Z ->
  signage_maintenance_year s <> 0%Z ->
  maintenance_year s years y
  = Ok (let factor := (1 + inflation_rate s) ^ (y - 1) in
        let signage :=
          if (y mod signage_maintenance_year s =? 0)%Z
          then 0 + signage_maintenance s * factor else 0 in
        if (y =? other_maintenance_year s)%Z
        then signage + other_maintenance s * factor else signage).
Proof.
  intros Hy Hsig. unfold maintenance_year.
  assert (Hpos : (0 <? y)%Z = true) by (apply Z.ltb_lt; lia).
  assert (Hle : (y <=? years)%Z = true) by (apply Z.leb_le; lia).
  assert (Hz : (signage_maintenance_year s =? 0)%Z = false) by now apply Z.eqb_neq.
  rewrite Hpos. unfold py_mod. rewrite Hz. cbn [bind]. rewrite Hle, andb_true_r.
  rewrite !inflation_factor_defined by (left; lia). cbv zeta.
  destruct (y mod signage_maintenance_year s =? 0)%Z; cbn [bind];
    destruct (y =? other_maintenance_year s)%Z; cbn [bind]; reflexivity.
Qed.

(** A year of 1..years stops the run when the signage period is 0. *)
Lemma maintenance_year_raises (s : Scenario) (years y : Z) :
  (1 <= y)%Z -> signage_maintenance_year s = 0%Z ->
  maintenance_year s years y = Raise ZeroDivisionError.
Proof.
  intros Hy Hsig. unfold maintenance_year.
  assert (Hpos : (0 <? y)%Z = true) by (apply Z.ltb_lt; lia).
  rewrite Hpos. unfold py_mod. rewrite Hsig. reflexivity.
Qed.

(** Year 0 has no signage maintenance; the other maintenance falls in it
    when its year is 0, deflated by one year. *)
Lemma maintenance_year_0 (s : Scenario) (years : Z) :
  maintenance_year s years 0
  = if (0 =? other_maintenance_year s)%Z
    then let! factor := inflation_factor s 0 in Ok (0 + other_maintenance s * factor)
    else Ok 0.
Proof. reflexivity. Qed.

(** X19.  In the result of a run with at least one year, the signage
    maintenance period is not 0, and the maintenance of a year [y] of
    1..horizon is the signage maintenance when the period divides [y], plus
    the other maintenance when [y] is its year, each inflated by
    (1 + inflation)^(y-1); it is 0 in every other year. *)
Theorem run_scenario_maintenance_series np_irr float_pow
    (d : DealerOutlet) (s : Scenario) (r : Results) (s' : Scenario) :
  run_scenario np_irr float_pow d s = (Ok r, s') ->
  forall y, (1 <= y <= res_years r)%Z ->
    signage_maintenance_year s <> 0%Z
    /\ exists m,
         yd_maintenance (res_yearly_data r) !! y = Some m
         /\ m == (if (y mod signage_maintenance_year s =? 0)%Z
                  then signage_maintenance s * (1 + inflation_rate s) ^ (y - 1) else 0)
               + (if (y =? other_maintenance_year s)%Z
                  then other_maintenance s * (1 + inflation_rate s) ^ (y - 1) else 0).
Proof.
  intros Hrun y Hy.
  apply run_scenario_Ok in Hrun as (_ & Hbody & _ & Hyears & Hsame).
  destruct Hsame as (_ & Hinf & _ & Hsm & Hsmy & Hom & Homy & _).
  apply run_scenario_body_Ok in Hbody
    as (years & _ & Hry & _ & _ & _ & Hmt & _).
  rewrite Hry in Hy.
  assert (Hsig : signage_maintenance_year s' <> 0%Z).
  { intros Hz. destruct (fill_years_values _ _ _ 1%Z Hmt) as (v & Hv & _);
      [apply elem_of_seqZ; lia|].
    rewrite maintenance_year_raises in Hv by (lia || exact Hz). discriminate. }
  split; [now rewrite <- Hsmy|].
  destruct (fill_years_values _ _ _ y Hmt) as (m & Hm & Hlook); [apply elem_of_seqZ; lia|].
  exists m. split; [exact Hlook|].
  rewrite maintenance_year_value in Hm by (lia || exact Hsig).
  injection Hm as <-. cbv zeta. rewrite Hinf, Hsm, Hsmy, Hom, Homy.
  destruct (y mod signage_maintenance_year s =? 0)%Z;
    destruct (y =? other_maintenance_year s)%Z; ring.
Qed.

Lemma run_scenario_maintenance_series_witness :
  exists r s',
    run_scenario no_irr unit_pow test_dealer mixed_scenario = (Ok r, s')
    /\ exists m, yd_maintenance (res_yearly_data r) !! 3%Z = Some m
                 /\ m == 5000 * (1 + (5 # 100)) ^ 2.
Proof.
  destruct (run_scenario no_irr unit_pow test_dealer mixed_scenario) as [[r|e] s'] eqn:E;
    [|vm_compute in E; discriminate].
  assert (Hyears : res_years r = 3%Z).
  { destruct (run_scenario_Ok _ _ _ _ _ _ E) as (_ & _ & _ & Hy & _). exact Hy. }
  destruct (run_scenario_maintenance_series no_irr unit_pow _ _ _ _ E 3%Z)
    as (_ & m & Hm & Hval); [rewrite Hyears; lia|].
  exists r, s'. split; [reflexivity|]. exists m. split; [exact Hm|].
  rewrite Hval. vm_compute. reflexivity.
Defined.

(** The rental loop adds up what the active streams pay. *)
Lemma rental_loop_value (s : Scenario) (years y : Z) (l : list rental_stream) (a v : Q) :
  for_each l (rental_step s years y) a = Ok v ->
  v == a + py_sum (map (stream_rent (inflation_rate s) years y) l).
Proof.
  revert a. induction l as [|st l IH]; intros a H; cbn [for_each] in H.
  - injection H as <-. unfold py_sum. cbn. ring.
  - apply bind_Ok in H as (a' & Hstep & H). apply IH in H. rewrite H.
    cbn [map]. rewrite py_sum_cons.
    unfold rental_step in Hstep. unfold stream_rent, stream_active.
    destruct (_ && _).
    + apply bind_Ok in Hstep as (f & Hf & Hstep). injection Hstep as <-.
      unfold inflation_factor, py_pow in Hf. destruct (_ && _); [discriminate|].
      injection Hf as <-. ring.
    + injection Hstep as <-. ring.
Qed.

(** X20.  In the result of a run, the rental income of a year of 0..horizon
    is the sum, over the dealer's rental streams that are active in that year
    (start year, 1 by default, up to end year, the horizon by default), of
    twelve monthly rents inflated by (1 + inflation)^(year-1); a dealer
    without rental streams has a rental income of exactly 0 every year. *)
Theorem run_scenario_rental_series np_irr float_pow
    (d : DealerOutlet) (s : Scenario) (r : Results) (s' : Scenario) :
  run_scenario np_irr float_pow d s = (Ok r, s') ->
  forall y, (0 <= y <= res_years r)%Z ->
    exists rent,
      yd_rental_income (res_yearly_data r) !! y = Some rent
      /\ rent == py_sum (map (stream_rent (inflation_rate s) (res_years r) y)
                             (rental_streams d))
      /\ (rental_streams d = [] -> rent = 0).
Proof.
  intros Hrun y Hy.
  apply run_scenario_Ok in Hrun as (_ & Hbody & _ & Hyears & Hsame).
  destruct Hsame as (_ & Hinf & _).
  apply run_scenario_body_Ok in Hbody
    as (years & _ & Hry & _ & _ & _ & _ & _ & Hri & _).
  rewrite Hry in *.
  destruct (fill_years_values _ _ _ y Hri) as (rent & Hrent & Hlook);
    [apply elem_of_seqZ; lia|].
  exists rent. split; [exact Hlook|]. unfold rental_income_year in Hrent. split.
  - apply rental_loop_value in Hrent. rewrite Hrent, Hinf. ring.
  - intros Hnil. rewrite Hnil in Hrent. cbn [for_each] in Hrent. now injection Hrent as <-.
Qed.

Lemma run_scenario_rental_series_witness :
  exists r s',
    run_scenario no_irr unit_pow landlord_dealer mixed_scenario = (Ok r, s')
    /\ exists rent, yd_rental_income (res_yearly_data r) !! 2%Z = Some rent
                    /\ rent == 1000 * 12 * (1 + (5 # 100)).
Proof.
  destruct (run_scenario no_irr unit_pow landlord_dealer mixed_scenario) as [[r|e] s'] eqn:E;
    [|vm_compute in E; discriminate].
  assert (Hyears : res_years r = 3%Z).
  { destruct (run_scenario_Ok _ _ _ _ _ _ E) as (_ & _ & _ & Hy & _). exact Hy. }
  destruct (run_scenario_rental_series no_irr unit_pow _ _ _ _ E 2%Z)
    as (rent & Hrent & Hval & _); [rewrite Hyears; lia|].
  exists r, s'. split; [reflexivity|]. exists rent. split; [exact Hrent|].
  rewrite Hval, Hyears. vm_compute. reflexivity.
Defined.

(** *** The shape of the result *)

(** X21.  In the result of a run with horizon [H], every yearly series has
    exactly the years 0..H (the volumes keep year 0 even when H is negative),
    and the three vectors (cash flows, discounted cash flows, cumulative cash
    flows) all have max(H, 0) + 1 entries. *)
Theorem run_scenario_result_shape np_irr float_pow
    (d : DealerOutlet) (s : Scenario) (r : Results) (s' : Scenario) :
  run_scenario np_irr float_pow d s = (Ok r, s') ->
  let H := horizon_of s in
  let yd := res_yearly_data r in
  res_years r = H
  /\ (forall series,
        series ∈ [yd_pmg_sales yd; yd_hsd_sales yd; yd_hobc_sales yd; yd_lube_sales yd] ->
        forall y, is_Some (series !! y) <-> y = 0%Z \/ (1 <= y <= H)%Z)
  /\ (forall series,
        series ∈ [yd_pmg_revenue yd; yd_hsd_revenue yd; yd_hobc_revenue yd;
                  yd_lube_revenue yd; yd_total_revenue yd; yd_operating_costs yd;
                  yd_maintenance yd; yd_insurance yd; yd_rental_income yd] ->
        forall y, is_Some (series !! y) <-> (0 <= y <= H)%Z)
  /\ length (res_cash_flows r) = S (Z.to_nat H)
  /\ length (res_discounted_cash_flows r) = S (Z.to_nat H)
  /\ length (res_cumulative_cash_flows r) = S (Z.to_nat H).
Proof.
  intros Hrun. cbv zeta.
  apply run_scenario_Ok in Hrun as (_ & Hbody & Hint & Hyears & _).
  destruct (run_scenario_body_products _ _ _ _ _ Hbody)
    as (years & Hy & Hs1 & Hs2 & Hs3 & Hs4 & Hr1 & Hr2 & Hr3 & Hr4).
  apply run_scenario_body_Ok in Hbody
    as (years' & Hy' & Hry & _ & Htot & Hoc & Hmt & Hins & Hri & Hcf & Hm).
  rewrite Hint in Hy, Hy'. cbn [as_int] in Hy, Hy'.
  injection Hy as <-. injection Hy' as <-.
  split; [exact Hyears|]. split; [|split].
  - intros series Hin.
    repeat (apply elem_of_cons in Hin as [->|Hin]);
      [eapply product_sales_keys; eassumption ..|]. inversion Hin.
  - intros series Hin.
    repeat (apply elem_of_cons in Hin as [->|Hin]);
      [first [eapply product_revenue_keys; eassumption
             | eapply fill_years_keys; eassumption] ..|].
    inversion Hin.
  - assert (Hlen : length (res_cash_flows r) = S (Z.to_nat (horizon_of s))).
    { rewrite Hcf. cbn [length]. now rewrite length_fmap, length_seqZ. }
    apply calculate_metrics_Ok in Hm as (npv & dcf & _ & Hdcf & Heq).
    split; [exact Hlen|]. split.
    + apply (f_equal (fun m : metrics => let '(_, _, _, x, _, _) := m in x)) in Heq.
      cbn in Heq. rewrite Heq. apply list_comp_lookup in Hdcf as [Hdcf _].
      rewrite Hdcf. unfold enumerate. now rewrite enumerate_from_length.
    + apply (f_equal metrics_cumulative) in Heq. cbn in Heq.
      now rewrite Heq, cumulative_from_same_length.
Qed.

Lemma run_scenario_result_shape_witness :
  exists r s',
    run_scenario no_irr unit_pow test_dealer mixed_scenario = (Ok r, s')
    /\ res_years r = 3%Z
    /\ length (res_cash_flows r) = 4%nat.
Proof.
  destruct (run_scenario no_irr unit_pow test_dealer mixed_scenario)
    as [[r|e] s'] eqn:E; [|vm_compute in E; discriminate].
  destruct (run_scenario_result_shape no_irr unit_pow _ _ _ _ E)
    as (Hy & _ & _ & Hlen & _).
  exists r, s'. split; [reflexivity|]. split; [exact Hy | exact Hlen].
Defined.

(** X22.  In the result of a run, the total revenue of every year of
    0..horizon is the sum of the four product revenues of that year, and each
    of those is the product's volume of the year times a margin: a dealer
    whose four base volumes are zero has a total revenue of zero every year. *)
Theorem run_scenario_total_revenue np_irr float_pow
    (d : DealerOutlet) (s : Scenario) (r : Results) (s' : Scenario) :
  run_scenario np_irr float_pow d s = (Ok r, s') ->
  forall y, (0 <= y <= res_years r)%Z ->
    exists pmg hsd hobc lube : Q,
      yd_pmg_revenue (res_yearly_data r) !! y = Some pmg
      /\ yd_hsd_revenue (res_yearly_data r) !! y = Some hsd
      /\ yd_hobc_revenue (res_yearly_data r) !! y = Some hobc
      /\ yd_lube_revenue (res_yearly_data r) !! y = Some lube
      /\ yd_total_revenue (res_yearly_data r) !! y = Some (pmg + hsd + hobc + lube)
      /\ (pmg_sales d == 0 -> hsd_sales d == 0 -> hobc_sales d == 0 -> lube_sales d == 0 ->
          pmg + hsd + hobc + lube == 0).
Proof.
  intros Hrun y Hy.
  apply run_scenario_Ok in Hrun as (_ & Hbody & Hint & Hyears & _).
  destruct (run_scenario_body_products _ _ _ _ _ Hbody)
    as (years & Hyr & Hs1 & Hs2 & Hs3 & Hs4 & Hr1 & Hr2 & Hr3 & Hr4).
  apply run_scenario_body_Ok in Hbody
    as (years' & Hy' & Hry & _ & Htot & _).
  rewrite Hint in Hyr, Hy'. cbn [as_int] in Hyr, Hy'.
  injection Hyr as <-. injection Hy' as <-. rewrite Hry in Hy.
  destruct (proj2 (product_revenue_keys _ _ _ _ _ Hr1 y) Hy) as [pmg Hpmg].
  destruct (proj2 (product_revenue_keys _ _ _ _ _ Hr2 y) Hy) as [hsd Hhsd].
  destruct (proj2 (product_revenue_keys _ _ _ _ _ Hr3 y) Hy) as [hobc Hhobc].
  destruct (proj2 (product_revenue_keys _ _ _ _ _ Hr4 y) Hy) as [lube Hlube].
  exists pmg, hsd, hobc, lube.
  split; [exact Hpmg|]. split; [exact Hhsd|]. split; [exact Hhobc|]. split; [exact Hlube|].
  split.
  - apply (fill_years_lookup _ _ _ Htot). split; [apply elem_of_seqZ; lia|].
    unfold total_revenue_year, dict_get. now rewrite Hpmg, Hhsd, Hhobc, Hlube.
  - intros Z1 Z2 Z3 Z4.
    assert (Hzero : forall base rates margins (vol rev : gmap Z Q) v,
               base == 0 ->
               calculate_product_sales base rates (horizon_of s) = Ok vol ->
               calculate_product_revenue vol margins (horizon_of s) (inflation_rate s')
               = Ok rev ->
               rev !! y = Some v -> v == 0).
    { intros base rates margins vol rev v Hb Hvol Hrev Hv.
      apply (zero_volumes_zero_revenue vol margins (horizon_of s) (inflation_rate s')
               rev) with (y := y); [|exact Hrev | exact Hv].
      now apply (zero_base_zero_volumes base rates (horizon_of s)). }
    rewrite (Hzero _ _ _ _ _ _ Z1 Hs1 Hr1 Hpmg), (Hzero _ _ _ _ _ _ Z2 Hs2 Hr2 Hhsd),
      (Hzero _ _ _ _ _ _ Z3 Hs3 Hr3 Hhobc), (Hzero _ _ _ _ _ _ Z4 Hs4 Hr4 Hlube).
    ring.
Qed.

Lemma run_scenario_total_revenue_witness :
  exists r s',
    run_scenario no_irr unit_pow idle_dealer mixed_scenario = (Ok r, s')
    /\ exists v, yd_total_revenue (res_yearly_data r) !! 2%Z = Some v /\ v == 0.
Proof.
  destruct (run_scenario no_irr unit_pow idle_dealer mixed_scenario) as [[r|e] s'] eqn:E;
    [|vm_compute in E; discriminate].
  assert (Hyears : res_years r = 3%Z).
  { destruct (run_scenario_Ok _ _ _ _ _ _ E) as (_ & _ & _ & Hy & _). exact Hy. }
  destruct (run_scenario_total_revenue no_irr unit_pow _ _ _ _ E 2%Z)
    as (a & b & c & e & _ & _ & _ & _ & Htot & Hzero); [rewrite Hyears; lia|].
  exists r, s'. split; [reflexivity|]. eexists. split; [exact Htot|].
  apply Hzero; reflexivity.
Defined.

(** *** When a run answers, and what stops it *)

Lemma only_zero_division_Ok {A : Type} (a : A) : only_zero_division (Ok a).
Proof. intros e H. discriminate. Qed.

Lemma only_zero_division_Raise {A : Type} : only_zero_division (A:=A) (Raise ZeroDivisionError).
Proof. intros e H. now injection H as <-. Qed.

Lemma only_zero_division_bind {A B : Type} (r : result A) (k : A -> result B) :
  only_zero_division r -> (forall a, only_zero_division (k a)) ->
  only_zero_division (bind r k).
Proof.
  intros Hr Hk. destruct r as [a|e]; cbn [bind]; [apply Hk|].
  intros e' H. injection H as <-. now apply Hr.
Qed.

Lemma only_zero_division_for_each {S A : Type} (l : list A) (body : S -> A -> result S)
    (s : S) :
  (forall s x, only_zero_division (body s x)) -> only_zero_division (for_each l body s).
Proof.
  intros Hbody. revert s. induction l as [|x l IH]; intros s; cbn [for_each].
  - apply only_zero_division_Ok.
  - apply only_zero_division_bind; [apply Hbody | exact IH].
Qed.

Lemma only_zero_division_list_comp {A B : Type} (f : A -> result B) (l : list A) :
  (forall x, only_zero_division (f x)) -> only_zero_division (list_comp f l).
Proof.
  intros Hf. induction l as [|x l IH]; cbn [list_comp].
  - apply only_zero_division_Ok.
  - apply only_zero_division_bind; [apply Hf|]. intros y.
    apply only_zero_division_bind; [exact IH|]. intros ys. apply only_zero_division_Ok.
Qed.

Lemma only_zero_division_fill_years (l : list Z) (value : Z -> result Q) :
  (forall y, only_zero_division (value y)) -> only_zero_division (fill_years l value).
Proof.
  intros Hv. apply only_zero_division_for_each. intros d y.
  apply only_zero_division_bind; [apply Hv|]. intros v. apply only_zero_division_Ok.
Qed.

Lemma only_zero_division_pow (b : Q) (e : Z) : only_zero_division (py_pow b e).
Proof.
  unfold py_pow. destruct (_ && _);
    [apply only_zero_division_Raise | apply only_zero_division_Ok].
Qed.

Lemma only_zero_division_truediv (a b : Q) : only_zero_division (py_truediv a b).
Proof.
  unfold py_truediv. destruct (Qeq_bool b 0);
    [apply only_zero_division_Raise | apply only_zero_division_Ok].
Qed.

Lemma only_zero_division_mod (a b : Z) : only_zero_division (py_mod a b).
Proof.
  unfold py_mod. destruct (b =? 0)%Z;
    [apply only_zero_division_Raise | apply only_zero_division_Ok].
Qed.

Lemma only_zero_division_maintenance (s : Scenario) (years y : Z) :
  only_zero_division (maintenance_year s years y).
Proof.
  unfold maintenance_year, inflation_factor.
  apply only_zero_division_bind.
  - destruct (0 <? y)%Z; [|apply only_zero_division_Ok].
    apply only_zero_division_bind; [apply only_zero_division_mod|].
    intros z. apply only_zero_division_Ok.
  - intros due. apply only_zero_division_bind.
    + destruct due; [|apply only_zero_division_Ok].
      apply only_zero_division_bind; [apply only_zero_division_pow|].
      intros f. apply only_zero_division_Ok.
    + intros m. destruct (y =? other_maintenance_year s)%Z; [|apply only_zero_division_Ok].
      apply only_zero_division_bind; [apply only_zero_division_pow|].
      intros f. apply only_zero_division_Ok.
Qed.

Lemma only_zero_division_rental (d : DealerOutlet) (s : Scenario) (years y : Z) :
  only_zero_division (rental_income_year d s years y).
Proof.
  unfold rental_income_year. apply only_zero_division_for_each. intros a st.
  unfold rental_step, inflation_factor. destruct (_ && _); [|apply only_zero_division_Ok].
  apply only_zero_division_bind; [apply only_zero_division_pow|].
  intros f. apply only_zero_division_Ok.
Qed.

Lemma only_zero_division_discount (dr : Q) (tcf : Z * Q) :
  only_zero_division (discount_flow dr tcf).
Proof.
  unfold discount_flow. destruct tcf as [t cf].
  apply only_zero_division_bind; [apply only_zero_division_pow|].
  intros f. apply only_zero_division_truediv.
Qed.

Lemma only_zero_division_metrics np_irr float_pow (cash_flows : list Q) (dr : Q)
    (rr : option Q) :
  only_zero_division (calculate_metrics np_irr float_pow cash_flows dr rr).
Proof.
  unfold calculate_metrics. apply only_zero_division_bind.
  - unfold calculate_npv. apply only_zero_division_bind.
    + apply only_zero_division_for_each. intros a [t cf]. unfold npv_step.
      apply only_zero_division_bind; [apply only_zero_division_pow|]. intros f.
      apply only_zero_division_bind; [apply only_zero_division_truediv|]. intros q.
      apply only_zero_division_Ok.
    + intros v. apply only_zero_division_Ok.
  - intros npv. apply only_zero_division_bind.
    + apply only_zero_division_list_comp. apply only_zero_division_discount.
    + intros dcf. apply only_zero_division_Ok.
Qed.

Lemma only_zero_division_inflated (s : Scenario) (y : Z) (k : Q -> Q) :
  only_zero_division (let! factor := inflation_factor s y in Ok (k factor)).
Proof.
  unfold inflation_factor. apply only_zero_division_bind; [apply only_zero_division_pow|].
  intros f. apply only_zero_division_Ok.
Qed.

Lemma only_zero_division_sales (base_sales : Q) (growth_rates : schedule) (years : Z) :
  only_zero_division (calculate_product_sales base_sales growth_rates years).
Proof.
  destruct (calculate_product_sales_defined base_sales growth_rates years) as (d & -> & _).
  apply only_zero_division_Ok.
Qed.

Lemma only_zero_division_revenue (sales_volumes : gmap Z Q) (margins : schedule) (years : Z)
    (inflation_rate : Q) :
  only_zero_division (calculate_product_revenue sales_volumes margins years inflation_rate).
Proof.
  destruct (calculate_product_revenue_defined sales_volumes margins years inflation_rate)
    as (all & rev & _ & -> & _).
  apply only_zero_division_Ok.
Qed.

Lemma only_zero_division_body np_irr float_pow (d : DealerOutlet) (s : Scenario) (years : Z) :
  analysis_years s = PyInt years ->
  only_zero_division (run_scenario_body np_irr float_pow d s).
Proof.
  intros Hyears. unfold run_scenario_body. rewrite Hyears. cbn [as_int bind].
  do 4 (apply only_zero_division_bind; [apply only_zero_division_sales | intros ?]).
  do 4 (apply only_zero_division_bind; [apply only_zero_division_revenue | intros ?]).
  apply only_zero_division_bind.
  { apply only_zero_division_fill_years. intros y. apply only_zero_division_Ok. }
  intros tot. apply only_zero_division_bind.
  { apply only_zero_division_fill_years. intros y. unfold operating_costs_year.
    destruct (y =? 0)%Z; [apply only_zero_division_Ok|].
    apply (only_zero_division_inflated s y (fun f => operating_costs d * 12 * f)). }
  intros oc. apply only_zero_division_bind.
  { apply only_zero_division_fill_years, only_zero_division_maintenance. }
  intros mt. apply only_zero_division_bind.
  { apply only_zero_division_fill_years. intros y. unfold insurance_year.
    destruct (y =? 0)%Z; [apply only_zero_division_Ok|].
    apply (only_zero_division_inflated s y
             (fun f => initial_investment d
                       * default (1 # 100) (insurance_rates s !! "property"%string) * f)). }
  intros ins. apply only_zero_division_bind.
  { apply only_zero_division_fill_years, only_zero_division_rental. }
  intros ri. apply only_zero_division_bind; [apply only_zero_division_metrics|].
  intros [[[[[npv irr] pb] dcf] ccf] mirr]. apply only_zero_division_Ok.
Qed.

(** X23.  A run never fails on a lookup: whatever [run_scenario] raises, it
    is neither [KeyError] nor [IndexError].  After the normalisation every
    product has a schedule, the dense tables hold every year that is read,
    each year's volume is read after the year before was written, and the
    list of defined years is not empty where its first or last element is
    taken. *)
Theorem run_scenario_lookups_never_fail np_irr float_pow
    (d : DealerOutlet) (s : Scenario) (e : exn) :
  fst (run_scenario np_irr float_pow d s) = Raise e ->
  e <> KeyError /\ e <> IndexError.
Proof.
  unfold run_scenario. cbn [fst]. intros H.
  destruct (normalize_scenario_spec s) as (_ & Hyears & _).
  rewrite (only_zero_division_body np_irr float_pow d (normalize_scenario s) (horizon_of s)
             Hyears e H).
  split; discriminate.
Qed.

Lemma run_scenario_lookups_never_fail_witness :
  exists e,
    fst (run_scenario no_irr unit_pow landlord_dealer deflated_scenario) = Raise e
    /\ e <> KeyError /\ e <> IndexError.
Proof.
  destruct (fst (run_scenario no_irr unit_pow landlord_dealer deflated_scenario))
    as [r|e] eqn:E; [vm_compute in E; discriminate|].
  exists e. split; [reflexivity|].
  exact (run_scenario_lookups_never_fail no_irr unit_pow _ _ e E).
Defined.

(** The maintenance loop completes exactly when it neither takes a remainder
    by 0 nor raises 0 to the power -1. *)
Lemma maintenance_defined_iff (s : Scenario) (years : Z) :
  (forall y, (0 <= y <= years)%Z -> exists v, maintenance_year s years y = Ok v)
  <-> ((1 <= years)%Z -> signage_maintenance_year s <> 0%Z)
      /\ ((0 <= years)%Z -> 1 + inflation_rate s == 0 -> other_maintenance_year s <> 0%Z).
Proof.
  split.
  - intros Hall. split.
    + intros Hy Hz. destruct (Hall 1%Z) as [v Hv]; [lia|].
      rewrite maintenance_year_raises in Hv by (lia || exact Hz). discriminate.
    + intros Hy Hinf Hz. destruct (Hall 0%Z) as [v Hv]; [lia|].
      rewrite maintenance_year_0, Hz in Hv. cbn [Z.eqb] in Hv.
      rewrite inflation_factor_raises in Hv by exact Hinf. discriminate.
  - intros [Hsig Hother] y Hy. destruct (decide (y = 0%Z)) as [->|Hne].
    + rewrite maintenance_year_0. destruct (0 =? other_maintenance_year s)%Z eqn:E; [|eauto].
      apply Z.eqb_eq in E. destruct (Qeq_dec (1 + inflation_rate s) 0) as [Hz|Hnz].
      * exfalso. apply Hother; [lia | exact Hz | congruence].
      * rewrite inflation_factor_year_0 by exact Hnz. cbn [bind]. eauto.
    + rewrite maintenance_year_value by (lia || (apply Hsig; lia)). eauto.
Qed.

Lemma rental_loop_defined (s : Scenario) (years y : Z) (l : list rental_stream) (a : Q) :
  (exists f, inflation_factor s y = Ok f)
  \/ Forall (fun st => stream_active years y st = false) l ->
  exists v, for_each l (rental_step s years y) a = Ok v.
Proof.
  intros H. revert a. induction l as [|st l IH]; intros a; cbn [for_each]; [eauto|].
  assert (Hl : (exists f, inflation_factor s y = Ok f)
               \/ Forall (fun st => stream_active years y st = false) l).
  { destruct H as [H|H]; [now left | right; now inversion H]. }
  unfold rental_step at 1. fold (stream_active years y st).
  destruct (stream_active years y st) eqn:E.
  - destruct H as [[f Hf]|H].
    + rewrite Hf. cbn [bind]. now apply IH.
    + inversion H; congruence.
  - cbn [bind]. now apply IH.
Qed.

Lemma rental_loop_stopped (s : Scenario) (years y : Z) (l : list rental_stream) (a v : Q) :
  inflation_factor s y = Raise ZeroDivisionError ->
  for_each l (rental_step s years y) a = Ok v ->
  Forall (fun st => stream_active years y st = false) l.
Proof.
  intros Hf. revert a. induction l as [|st l IH]; intros a H; cbn [for_each] in H;
    [constructor|].
  apply bind_Ok in H as (a' & Hstep & H).
  unfold rental_step in Hstep. fold (stream_active years y st) in Hstep.
  destruct (stream_active years y st) eqn:E.
  - rewrite Hf in Hstep. discriminate.
  - constructor; [exact E | now apply (IH a')].
Qed.

Lemma rental_defined_iff (d : DealerOutlet) (s : Scenario) (years : Z) :
  (forall y, (0 <= y <= years)%Z -> exists v, rental_income_year d s years y = Ok v)
  <-> ((0 <= years)%Z -> 1 + inflation_rate s == 0 ->
       Forall (fun st => stream_active years 0 st = false) (rental_streams d)).
Proof.
  unfold rental_income_year. split.
  - intros Hall Hy Hinf. destruct (Hall 0%Z) as [v Hv]; [lia|].
    apply (rental_loop_stopped s years 0 _ 0 v); [now apply inflation_factor_raises | exact Hv].
  - intros Hzero y Hy. apply rental_loop_defined.
    destruct (decide (y = 0%Z)) as [->|Hne].
    + destruct (Qeq_dec (1 + inflation_rate s) 0) as [Hz|Hnz].
      * right. apply Hzero; [lia | exact Hz].
      * left. rewrite inflation_factor_year_0 by exact Hnz. eauto.
    + left. rewrite inflation_factor_defined by (left; lia). eauto.
Qed.

(** X24.  What a run that returns a result tells about the scenario.  When
    the horizon (the scenario's, or 15) is at least 1, the signage
    maintenance period is not 0 and the discount rate is not -1; and when
    the inflation rate is -1 and the horizon is at least 0, the other
    maintenance does not fall in year 0 and no rental stream is active in
    year 0.  In each of the excluded cases the run divides by zero instead
    of returning. *)
Theorem run_scenario_answers_only_if np_irr float_pow
    (d : DealerOutlet) (s : Scenario) (r : Results) :
  fst (run_scenario np_irr float_pow d s) = Ok r ->
  ((1 <= horizon_of s)%Z ->
   signage_maintenance_year s <> 0%Z /\ ~ 1 + discount_rate s == 0)
  /\ ((0 <= horizon_of s)%Z -> 1 + inflation_rate s == 0 ->
      other_maintenance_year s <> 0%Z
      /\ Forall (fun st => stream_active (horizon_of s) 0 st = false) (rental_streams d)).
Proof.
  unfold run_scenario. cbn [fst]. intros Hr.
  destruct (normalize_scenario_spec s) as (Hsame & Hyears & _).
  destruct Hsame as (Hdr & Hinf & _ & _ & Hsmy & _ & Homy & _).
  destruct (proj1 (run_scenario_body_answers np_irr float_pow d _ _ Hyears)
              (ex_intro _ r Hr)) as (Hmaint & Hrent & Hd).
  destruct (proj1 (maintenance_defined_iff _ _) Hmaint) as [Hsig Hother].
  pose proof (proj1 (rental_defined_iff d _ _) Hrent) as Hstreams.
  rewrite Hdr in Hd. rewrite Hinf in Hother, Hstreams. rewrite Hsmy in Hsig.
  rewrite Homy in Hother. split.
  - intros H1. split; [now apply Hsig | now apply Hd].
  - intros H0 Hz. split; [now apply Hother | now apply Hstreams].
Qed.

Lemma run_scenario_answers_only_if_witness :
  (exists r,
     fst (run_scenario no_irr unit_pow test_dealer mixed_scenario) = Ok r
     /\ signage_maintenance_year mixed_scenario <> 0%Z
     /\ ~ 1 + discount_rate mixed_scenario == 0)
  /\ ~ (exists r, fst (run_scenario no_irr unit_pow landlord_dealer deflated_scenario) = Ok r).
Proof.
  split.
  - destruct (fst (run_scenario no_irr unit_pow test_dealer mixed_scenario))
      as [r|e] eqn:E; [|vm_compute in E; discriminate].
    exists r. split; [reflexivity|].
    destruct (run_scenario_answers_only_if no_irr unit_pow _ _ r E) as [H1 _].
    apply H1. cbn. lia.
  - intros [r Hr].
    destruct (run_scenario_answers_only_if no_irr unit_pow _ _ r Hr) as [_ H0].
    destruct H0 as [_ Hex]; [cbn; lia | reflexivity|].
    inversion Hex as [|st l Hact _]. vm_compute in Hact. discriminate.
Defined.

(** *** The scenario object after a run *)

Lemma normalize_scenario_idem (s : Scenario) :
  normalize_scenario (normalize_scenario s) = normalize_scenario s.
Proof.
  destruct (normalize_scenario_spec s) as (_ & Hyears & Hg & Hm).
  apply (normalize_scenario_fixed _ (horizon_of s) Hyears).
  intros p Hp. rewrite (Hg p Hp), (Hm p Hp). split.
  - destruct (default_growth_rates s !! p) as [[m|v]|]; cbn; eexists; reflexivity.
  - destruct (default_margins s !! p) as [[m|v]|]; cbn; eexists; reflexivity.
Qed.

(** X25.  A second run on the object the first run left behind returns what
    the first run returned and leaves the object as it is: the normalisation
    is idempotent. *)
Theorem run_scenario_twice np_irr float_pow (d : DealerOutlet) (s : Scenario) :
  run_scenario np_irr float_pow d (snd (run_scenario np_irr float_pow d s))
  = run_scenario np_irr float_pow d s.
Proof.
  unfold run_scenario. cbn [snd]. now rewrite normalize_scenario_idem.
Qed.

(** The schedule tables after the normalisation, key by key. *)
Lemma normalize_scenario_lookup (s : Scenario) (p : string) :
  default_growth_rates (normalize_scenario s) !! p
  = (if decide (p ∈ products) then Some (normalized_growth (default_growth_rates s !! p))
     else default_growth_rates s !! p)
  /\ default_margins (normalize_scenario s) !! p
     = (if decide (p ∈ products) then Some (normalized_margin p (default_margins s !! p))
        else default_margins s !! p).
Proof.
  destruct (ensure_analysis_years_spec s) as (_ & _ & A3 & A4).
  destruct (ensure_products_spec products (ensure_analysis_years s)) as (_ & _ & B3 & B4).
  specialize (B3 p). specialize (B4 p). rewrite A3 in B3. rewrite A4 in B4.
  split; [exact B3 | exact B4].
Qed.

(** X26.  What a run leaves alone in the caller's scenario object: the
    rates, the maintenance and insurance parameters, an integer horizon,
    every schedule that is already a mapping, and the entries of keys other
    than the four products.  A scenario with an integer horizon and mappings
    for the four products comes back unchanged. *)
Theorem run_scenario_frame np_irr float_pow (d : DealerOutlet) (s : Scenario) :
  let s' := snd (run_scenario np_irr float_pow d s) in
  same_parameters s s'
  /\ (forall z, analysis_years s = PyInt z -> analysis_years s' = PyInt z)
  /\ (forall p m, default_growth_rates s !! p = Some (Mapping m) ->
        default_growth_rates s' !! p = Some (Mapping m))
  /\ (forall p m, default_margins s !! p = Some (Mapping m) ->
        default_margins s' !! p = Some (Mapping m))
  /\ (forall p, p ∉ products ->
        default_growth_rates s' !! p = default_growth_rates s !! p
        /\ default_margins s' !! p = default_margins s !! p)
  /\ ((exists z, analysis_years s = PyInt z) ->
      (forall p, p ∈ products ->
         is_mapping (default_growth_rates s !! p) /\ is_mapping (default_margins s !! p)) ->
      s' = s).
Proof.
  unfold run_scenario. cbn [snd]. cbv zeta.
  destruct (normalize_scenario_spec s) as (Hsame & Hyears & _).
  split; [exact Hsame|]. split; [|split; [|split; [|split]]].
  - intros z Hz. rewrite Hyears. unfold horizon_of. now rewrite Hz.
  - intros p m Hp. destruct (normalize_scenario_lookup s p) as [-> _]. rewrite Hp.
    now destruct (decide (p ∈ products)).
  - intros p m Hp. destruct (normalize_scenario_lookup s p) as [_ ->]. rewrite Hp.
    now destruct (decide (p ∈ products)).
  - intros p Hp. destruct (normalize_scenario_lookup s p) as [-> ->].
    destruct (decide (p ∈ products)); [contradiction | split; reflexivity].
  - intros [z Hz] Hmaps. now apply (normalize_scenario_fixed s z).
Qed.

Lemma run_scenario_frame_witness :
  default_margins (snd (run_scenario no_irr unit_pow test_dealer mixed_scenario))
    !! "pmg"%string = Some (Mapping pmg_margin_schedule)
  /\ discount_rate (snd (run_scenario no_irr unit_pow test_dealer mixed_scenario)) = 1 # 10.
Proof.
  destruct (run_scenario_frame no_irr unit_pow test_dealer mixed_scenario)
    as ((Hdr & _) & _ & _ & Hm & _).
  split; [|exact Hdr].
  apply Hm. vm_compute. reflexivity.
Defined.

(** *** Tax *)

(** X27.  With a tax rate between 0 and 1, tax never turns a profit into a
    loss: a year whose pre-tax cash flow is non-negative keeps a cash flow
    between 0 and the pre-tax amount, and a year with a loss keeps exactly
    its loss. *)
Theorem net_cash_flow_keeps_sign
    (total_revenue operating_costs maintenance insurance rental_income : gmap Z Q)
    (tax_rate : Q) (year : Z) :
  0 <= tax_rate <= 1 ->
  let pretax := dict_get total_revenue year 0 - dict_get operating_costs year 0
                - dict_get maintenance year 0 - dict_get insurance year 0
                + dict_get rental_income year 0 in
  let net := net_cash_flow total_revenue operating_costs maintenance insurance
               rental_income tax_rate year in
  (0 <= pretax -> 0 <= net <= pretax /\ net == pretax * (1 - tax_rate))
  /\ (pretax <= 0 -> net == pretax).
Proof.
  intros Htax. cbv zeta. unfold net_cash_flow.
  set (pretax := dict_get total_revenue year 0 - dict_get operating_costs year 0
                 - dict_get maintenance year 0 - dict_get insurance year 0
                 + dict_get rental_income year 0).
  split.
  - intros Hpos. destruct (Qlt_le_dec 0 pretax) as [Hlt|Hle].
    + rewrite py_max_0_pos by exact Hlt. split; [split; nra | ring].
    + rewrite py_max_0_nonpos by exact Hle.
      assert (Hz : pretax == 0) by lra. split; [split; lra | rewrite Hz; ring].
  - intros Hneg. rewrite py_max_0_nonpos by exact Hneg. ring.
Qed.

Lemma net_cash_flow_keeps_sign_witness :
  let net := net_cash_flow {[ 1%Z := 100 ]} {[ 1%Z := 40 ]} ∅ ∅ ∅ (29 # 100) 1 in
  0 <= net <= 60.
Proof.
  destruct (net_cash_flow_keeps_sign {[ 1%Z := 100 ]} {[ 1%Z := 40 ]} ∅ ∅ ∅ (29 # 100) 1)
    as [Hpos _]; [split; discriminate|].
  cbv zeta. destruct Hpos as [[H0 H1] _]; [vm_compute; discriminate|].
  split; [exact H0|]. vm_compute in H1. vm_compute. exact H1.
Defined.

(** *** The fallbacks of the lookups *)

(** The dense table of the schedule [{1: g}] holds [g] only. *)
Lemma dense_table_year_1 (default_value g : Q) (years : Z) (all : gmap Z Q) :
  dense_table default_value (Mapping {[ 1%Z := g ]}) years = Ok all ->
  forall y g', all !! y = Some g' -> g' == g.
Proof.
  intros Hall y g' Hy. destruct (Z.le_gt_cases 1 years) as [Hge|Hlt].
  - now apply (dense_table_one_rate default_value 1 g years all Hge Hall y).
  - destruct (dense_table_defined default_value (Mapping {[ 1%Z := g ]}) years)
      as (all' & Hall' & Hdom).
    rewrite Hall in Hall'. injection Hall' as <-.
    assert (Hin : (1 <= y <= years)%Z) by (apply Hdom; rewrite Hy; eauto). lia.
Qed.

(** The volumes of a product the scenario has no growth schedule for. *)
Lemma missing_growth_schedule (s : Scenario)
    (product : string) (dflt base_sales : Q) (years : Z) (vol : gmap Z Q) :
  product ∈ products ->
  default_growth_rates s !! product = None ->
  calculate_product_sales base_sales
    (schedule_get (default_growth_rates (normalize_scenario s)) product dflt) years = Ok vol ->
  forall y, (0 <= y <= years)%Z ->
    exists v, vol !! y = Some v /\ v == base_sales * 365 * (1 + (5 # 100)) ^ y.
Proof.
  intros Hp Hnone Hvol.
  destruct (normalize_scenario_spec s) as (_ & _ & Hg & _).
  unfold schedule_get in Hvol. rewrite (Hg product Hp), Hnone in Hvol. cbn in Hvol.
  destruct (dense_table_defined (5 # 100) (Mapping {[ 1%Z := 5 # 100 ]}) years)
    as (all & Hall & _).
  apply (product_sales_geometric base_sales _ years (5 # 100) all vol Hall); [|exact Hvol].
  now apply (dense_table_year_1 (5 # 100) (5 # 100) years).
Qed.

(** X28.  The fallback schedules [{1: 0.06}] for [hobc] and [{1: 0.01}] for
    [lube], written in the lookups of [run_scenario], are never used: the
    normalisation loop has by then given a product without a growth schedule
    the schedule [{1: 0.05}], so its volumes grow by 5% a year. *)
Theorem run_scenario_growth_fallbacks_unused np_irr float_pow
    (d : DealerOutlet) (s : Scenario) (r : Results) (s' : Scenario) :
  run_scenario np_irr float_pow d s = (Ok r, s') ->
  (default_growth_rates s !! "hobc"%string = None ->
   forall y, (0 <= y <= res_years r)%Z ->
     exists v, yd_hobc_sales (res_yearly_data r) !! y = Some v
               /\ v == hobc_sales d * 365 * (1 + (5 # 100)) ^ y)
  /\ (default_growth_rates s !! "lube"%string = None ->
      forall y, (0 <= y <= res_years r)%Z ->
        exists v, yd_lube_sales (res_yearly_data r) !! y = Some v
                  /\ v == lube_sales d * 365 * (1 + (5 # 100)) ^ y).
Proof.
  intros Hrun.
  apply run_scenario_Ok in Hrun as (-> & Hbody & Hint & Hyears & _).
  destruct (run_scenario_body_products _ _ _ _ _ Hbody)
    as (years & Hyr & _ & _ & Hs3 & Hs4 & _).
  rewrite Hint in Hyr. cbn [as_int] in Hyr. injection Hyr as <-. rewrite Hyears.
  split; intros Hnone.
  - apply (missing_growth_schedule s "hobc" (6 # 100) _ _ _
             ltac:(unfold products; repeat constructor) Hnone Hs3).
  - apply (missing_growth_schedule s "lube" (1 # 100) _ _ _
             ltac:(unfold products; repeat constructor) Hnone Hs4).
Qed.

Lemma run_scenario_growth_fallbacks_unused_witness :
  exists r s',
    run_scenario no_irr unit_pow test_dealer mixed_scenario = (Ok r, s')
    /\ exists v, yd_lube_sales (res_yearly_data r) !! 2%Z = Some v
                 /\ v == 50 * 365 * (1 + (5 # 100)) ^ 2.
Proof.
  destruct (run_scenario no_irr unit_pow test_dealer mixed_scenario) as [[r|e] s'] eqn:E;
    [|vm_compute in E; discriminate].
  assert (Hyears : res_years r = 3%Z).
  { destruct (run_scenario_Ok _ _ _ _ _ _ E) as (_ & _ & _ & Hy & _). exact Hy. }
  destruct (run_scenario_growth_fallbacks_unused no_irr unit_pow _ _ _ _ E) as [_ Hlube].
  destruct (Hlube eq_refl 2%Z) as (v & Hv & Hval); [rewrite Hyears; lia|].
  exists r, s'. split; [reflexivity|]. exists v. split; [exact Hv | exact Hval].
Defined.

(** ** utils.py *)

Lemma fix_product_lookup (d : gmap string schedule) (q p : string) :
  fix_product d q !! p
  = if decide (p = q) then Some (fixed_schedule (d !! q)) else d !! p.
Proof.
  unfold fix_product, fixed_schedule. destruct (decide (p = q)) as [->|Hne].
  - destruct (d !! q) as [[m|v]|] eqn:E; [exact E | apply lookup_insert_eq ..].
  - destruct (d !! q) as [[m|v]|]; [reflexivity | now apply lookup_insert_ne ..].
Qed.

Lemma fixed_schedule_idem (e : option schedule) :
  fixed_schedule (Some (fixed_schedule e)) = fixed_schedule e.
Proof. destruct e as [[m|v]|]; reflexivity. Qed.

Lemma fix_schedules_lookup (l : list string) (d : gmap string schedule) (p : string) :
  foldl fix_product d l !! p
  = if decide (p ∈ l) then Some (fixed_schedule (d !! p)) else d !! p.
Proof.
  revert d. induction l as [|q l IH]; intros d; cbn [foldl].
  - now rewrite decide_False by apply not_elem_of_nil.
  - rewrite IH, !fix_product_lookup. destruct (decide (p = q)) as [->|Hne].
    + rewrite (decide_True (P := q ∈ q :: l)) by (apply elem_of_cons; now left).
      rewrite fixed_schedule_idem. now destruct (decide (q ∈ l)).
    + destruct (decide (p ∈ l)) as [Hin|Hnin].
      * now rewrite decide_True by (apply elem_of_cons; now right).
      * rewrite decide_False; [reflexivity|].
        intros Hc. apply elem_of_cons in Hc as [?|?]; contradiction.
Qed.

(** With a mapping for every product the normalisation loop of
    [run_scenario] changes nothing. *)
Lemma ensure_products_fixed (l : list string) (s : Scenario) :
  (forall p, p ∈ l ->
     is_mapping (default_growth_rates s !! p) /\ is_mapping (default_margins s !! p)) ->
  foldl ensure_product s l = s.
Proof.
  induction l as [|q l IH]; intros Hmaps; [reflexivity|]. cbn [foldl].
  assert (Hq : ensure_product s q = s).
  { destruct (Hmaps q) as [[mg Hg] [mm Hm]]; [apply elem_of_cons; now left|].
    unfold ensure_product, ensure_growth_rates. rewrite Hg.
    unfold ensure_margins. now rewrite Hm. }
  rewrite Hq. apply IH. intros p Hp. apply Hmaps, elem_of_cons. now right.
Qed.

(** X29.  [safely_create_scenario] raises [TypeError] when no name is given
    and otherwise returns a scenario in which each of the four products has
    a mapping as growth schedule and as margin schedule: the caller's
    mapping where there was one, the empty mapping where the entry was
    missing or was anything else (a scalar rate is dropped, not converted);
    entries of other keys are kept.  A run on the created scenario finds
    nothing to normalise but the horizon, and projects a product whose rate
    was dropped with the default growth of 5% a year. *)
Theorem safely_create_scenario_schedules (kwargs : ScenarioArgs) :
  let given_growth :=
    default empty_schedules (as_schedules <$> arg_default_growth_rates kwargs) in
  let given_margins :=
    default empty_schedules (as_schedules <$> arg_default_margins kwargs) in
  (arg_name kwargs = None -> safely_create_scenario kwargs = Raise TypeError)
  /\ (is_Some (arg_name kwargs) ->
      exists s,
        safely_create_scenario kwargs = Ok s
        /\ (forall p, p ∈ products ->
              default_growth_rates s !! p = Some (fixed_schedule (given_growth !! p))
              /\ default_margins s !! p = Some (fixed_schedule (given_margins !! p)))
        /\ (forall p, p ∉ products ->
              default_growth_rates s !! p = given_growth !! p
              /\ default_margins s !! p = given_margins !! p)
        /\ (forall np_irr float_pow d,
              snd (run_scenario np_irr float_pow d s) = ensure_analysis_years s)
        /\ (forall p v base_sales dflt years,
              p ∈ products -> given_growth !! p = Some (Scalar v) ->
              exists vol,
                calculate_product_sales base_sales
                  (schedule_get (default_growth_rates s) p dflt) years = Ok vol
                /\ forall y, (0 <= y <= years)%Z ->
                     exists x, vol !! y = Some x
                               /\ x == base_sales * 365 * (1 + (5 # 100)) ^ y)).
Proof.
  cbv zeta. unfold safely_create_scenario. split.
  - intros Hname. now rewrite Hname.
  - intros [name Hname]. rewrite Hname. eexists. split; [reflexivity|].
    cbn [default_growth_rates default_margins]. unfold fix_schedules.
    assert (Hfix : forall given p, p ∈ products ->
               foldl fix_product given products !! p = Some (fixed_schedule (given !! p))).
    { intros given p Hp. now rewrite fix_schedules_lookup, decide_True by exact Hp. }
    split; [|split; [|split]].
    + intros p Hp. split; now apply Hfix.
    + intros p Hp. split; now rewrite fix_schedules_lookup, decide_False by exact Hp.
    + intros np_irr float_pow d. unfold run_scenario. cbn [snd]. unfold normalize_scenario.
      apply ensure_products_fixed. intros p Hp.
      destruct (ensure_analysis_years_spec
                  {| discount_rate := default (10 # 100) (arg_discount_rate kwargs);
                     inflation_rate := default (3 # 100) (arg_inflation_rate kwargs);
                     analysis_years := default (PyInt 15) (arg_analysis_years kwargs);
                     default_growth_rates :=
                       foldl fix_product
                         (default empty_schedules
                            (as_schedules <$> arg_default_growth_rates kwargs)) products;
                     default_margins :=
                       foldl fix_product
                         (default empty_schedules
                            (as_schedules <$> arg_default_margins kwargs)) products;
                     tax_rate := default (29 # 100) (arg_tax_rate kwargs);
                     signage_maintenance := default 10000000 (arg_signage_maintenance kwargs);
                     signage_maintenance_year :=
                       default 7%Z (arg_signage_maintenance_year kwargs);
                     other_maintenance := default 2000000 (arg_other_maintenance kwargs);
                     other_maintenance_year :=
                       default 11%Z (arg_other_maintenance_year kwargs);
                     insurance_rates := default ∅ (arg_insurance_rates kwargs) |})
        as (_ & _ & -> & ->).
      cbn [default_growth_rates default_margins]. rewrite !(Hfix _ p Hp).
      split; [destruct (_ !! p) as [[m|v]|] | destruct (_ !! p) as [[m|v]|]];
        cbn; eexists; reflexivity.
    + intros p v base_sales dflt years Hp Hv.
      unfold schedule_get. rewrite (Hfix _ p Hp), Hv. cbn [fixed_schedule default].
      destruct (calculate_product_sales_defined base_sales (Mapping ∅) years)
        as (vol & Hvol & _).
      exists vol. split; [exact Hvol|].
      destruct (dense_table_defined (5 # 100) (Mapping ∅) years) as (all & Hall & Hdom).
      apply (product_sales_geometric base_sales (Mapping ∅) years (5 # 100) all vol Hall);
        [|exact Hvol].
      intros y g' Hy.
      assert (Hin : (1 <= y <= years)%Z) by (apply Hdom; rewrite Hy; eauto).
      rewrite (no_defined_year_default (5 # 100) ∅ years all) in Hy;
        [now injection Hy as <- | | exact Hall | exact Hin].
      intros k [w Hw]. rewrite lookup_empty in Hw. discriminate.
Qed.

Lemma safely_create_scenario_schedules_witness :
  exists s,
    safely_create_scenario scalar_args = Ok s
    /\ default_growth_rates s !! "pmg"%string = Some (Mapping ∅)
    /\ default_margins s !! "lube"%string = Some (Mapping ∅).
Proof.
  destruct (safely_create_scenario_schedules scalar_args) as [_ Hok].
  destruct Hok as (s & Hs & Hfixed & _); [eexists; reflexivity|].
  exists s. split; [exact Hs|].
  destruct (Hfixed "pmg"%string) as [Hg _]; [unfold products; repeat constructor|].
  destruct (Hfixed "lube"%string) as [_ Hm]; [unfold products; repeat constructor|].
  split; [exact Hg | exact Hm].
Defined.

(** ** The first projection entry point *)

Lemma for_each_option_app {S A : Type} (l1 l2 : list A) (body : S -> A -> option S) (s : S) :
  for_each_option (l1 ++ l2) body s
  = s' ← for_each_option l1 body s; for_each_option l2 body s'.
Proof.
  revert s. induction l1 as [|x l1 IH]; intros s; cbn [for_each_option app]; [reflexivity|].
  destruct (body s x) as [s'|]; cbn; [apply IH | reflexivity].
Qed.

(** The loop of [project_sales] runs the four products side by side. *)
Lemma project_loop_components (dealer : DealerOutlet) (rates : DealerRates)
    (scenario : Scenario) (l : list Z) (p0 p : SalesProjection) (product : string) :
  product ∈ products ->
  for_each_option l (project_year dealer rates scenario) p0 = Some p ->
  for_each_option l (project_step (base_sales_of dealer product) rates scenario product)
    (projection_of p0 product) = Some (projection_of p product).
Proof.
  intros Hp. revert p0. induction l as [|y l IH]; intros p0 H; cbn [for_each_option] in *.
  - now injection H as <-.
  - destruct (project_year dealer rates scenario p0 y) as [p1|] eqn:E; [|discriminate].
    cbn in H. apply IH in H. unfold project_year in E.
    destruct (project_step (pmg_sales dealer) rates scenario "pmg" (sp_pmg p0) y)
      as [a|] eqn:Ea; [|discriminate]. cbn in E.
    destruct (project_step (hsd_sales dealer) rates scenario "hsd" (sp_hsd p0) y)
      as [b|] eqn:Eb; [|discriminate]. cbn in E.
    destruct (project_step (hobc_sales dealer) rates scenario "hobc" (sp_hobc p0) y)
      as [c|] eqn:Ec; [|discriminate]. cbn in E.
    destruct (project_step (lube_sales dealer) rates scenario "lube" (sp_lube p0) y)
      as [e|] eqn:Ee; [|discriminate]. cbn in E.
    injection E as <-.
    unfold products in Hp.
    repeat (apply elem_of_cons in Hp as [->|Hp]); [| | | |inversion Hp].
    + change (project_step (pmg_sales dealer) rates scenario "pmg" (sp_pmg p0) y)
        with (project_step (base_sales_of dealer "pmg") rates scenario "pmg"
                (projection_of p0 "pmg") y) in Ea.
      rewrite Ea. exact H.
    + change (project_step (hsd_sales dealer) rates scenario "hsd" (sp_hsd p0) y)
        with (project_step (base_sales_of dealer "hsd") rates scenario "hsd"
                (projection_of p0 "hsd") y) in Eb.
      rewrite Eb. exact H.
    + change (project_step (hobc_sales dealer) rates scenario "hobc" (sp_hobc p0) y)
        with (project_step (base_sales_of dealer "hobc") rates scenario "hobc"
                (projection_of p0 "hobc") y) in Ec.
      rewrite Ec. exact H.
    + change (project_step (lube_sales dealer) rates scenario "lube" (sp_lube p0) y)
        with (project_step (base_sales_of dealer "lube") rates scenario "lube"
                (projection_of p0 "lube") y) in Ee.
      rewrite Ee. exact H.
Qed.

(** One product's series after [n] turns of the loop. *)
Lemma project_series_spec (base_sales : Q) (rates : DealerRates) (scenario : Scenario)
    (product : string) (m : gmap Z Q) (n : nat) (series : gmap Z Q) :
  default_growth_rates scenario !! product = Some (Mapping m) ->
  for_each_option (seqZ 0 (Z.of_nat n)) (project_step base_sales rates scenario product) ∅
  = Some series ->
  (forall y, is_Some (series !! y) <-> (0 <= y < Z.of_nat n)%Z)
  /\ ((0 < n)%nat -> series !! 0%Z = Some (base_sales * 365))
  /\ (forall y, (1 <= y < Z.of_nat n)%Z ->
        exists previous_sales,
          series !! (y - 1)%Z = Some previous_sales
          /\ series !! y
             = Some (previous_sales * (1 + applied_growth_rate rates product m y))).
Proof.
  intros Hm. revert series. induction n as [|n IH]; intros series H.
  - cbn in H. injection H as <-. split; [|split].
    + intros y. rewrite lookup_empty. split; [intros [? ?]; discriminate | lia].
    + lia.
    + intros y Hy. lia.
  - rewrite seqZ_S, for_each_option_app in H.
    destruct (for_each_option (seqZ 0 (Z.of_nat n))
                (project_step base_sales rates scenario product) ∅) as [prev|] eqn:E;
      [|discriminate].
    cbn [mbind option_bind for_each_option] in H.
    destruct (IH prev eq_refl) as (Hdom & Hzero & Hstep).
    destruct (project_step base_sales rates scenario product prev (0 + Z.of_nat n))
      as [next|] eqn:Es; [|discriminate].
    cbn in H. injection H as <-. rewrite Z.add_0_l in Es. unfold project_step in Es.
    destruct n as [|n'].
    + change (Z.of_nat 0) with 0%Z in *. cbn [Z.eqb] in Es. injection Es as <-.
      split; [|split].
      * intros y. destruct (decide (y = 0%Z)) as [->|Hne].
        -- rewrite lookup_insert_eq. split; [lia | eauto].
        -- rewrite lookup_insert_ne by congruence. rewrite Hdom. lia.
      * intros _. apply lookup_insert_eq.
      * intros y Hy. lia.
    + assert (Hnz : (Z.of_nat (S n') =? 0)%Z = false) by (apply Z.eqb_neq; lia).
      rewrite Hnz in Es.
      assert (Hrate : get_growth_rate rates scenario product (Z.of_nat (S n'))
                      = Some (applied_growth_rate rates product m (Z.of_nat (S n')))).
      { unfold get_growth_rate, applied_growth_rate, get_default_growth_rate.
        rewrite Hm. cbn [default].
        now destruct (dealer_growth_rates rates product !! Z.of_nat (S n')). }
      rewrite Hrate in Es. cbn [mbind option_bind] in Es.
      destruct (prev !! (Z.of_nat (S n') - 1)%Z) as [p|] eqn:Ep; [|discriminate].
      cbn in Es. injection Es as <-. split; [|split].
      * intros y. destruct (decide (y = Z.of_nat (S n'))) as [->|Hne].
        -- rewrite lookup_insert_eq. split; [lia | eauto].
        -- rewrite lookup_insert_ne by congruence. rewrite Hdom. lia.
      * intros _. rewrite lookup_insert_ne by lia. apply Hzero. lia.
      * intros y Hy. destruct (decide (y = Z.of_nat (S n'))) as [->|Hne].
        -- exists p. rewrite lookup_insert_ne by lia. rewrite lookup_insert_eq. auto.
        -- destruct (Hstep y) as (q & Hq & Hy'); [lia|].
           exists q. rewrite !lookup_insert_ne by lia. auto.
Qed.

(** X30.  The first projection entry point, [project_sales], for a product
    whose scenario schedule is a mapping: the series has the years
    0..analysis_years - 1 (one fewer than [run_scenario] projects); year 0 is
    the daily base times 365; each later year is the year before times one
    plus the dealer's own rate for the year or else the scenario's, and plus
    nothing when neither has a rate for the year (where the later projector
    interpolates).  When the dealer has no rates of its own and the scenario
    has a rate for every year, the series is exactly the one
    [calculate_product_sales] builds for the horizon analysis_years - 1. *)
Theorem project_sales_series (dealer : DealerOutlet) (rates : DealerRates)
    (scenario : Scenario) (n : Z) (product : string) (m : gmap Z Q)
    (projection : SalesProjection) :
  analysis_years scenario = PyInt n ->
  product ∈ products ->
  default_growth_rates scenario !! product = Some (Mapping m) ->
  project_sales dealer rates scenario = Some projection ->
  let series := projection_of projection product in
  (forall y, is_Some (series !! y) <-> (0 <= y < n)%Z)
  /\ ((0 < n)%Z -> series !! 0%Z = Some (base_sales_of dealer product * 365))
  /\ (forall y, (1 <= y < n)%Z ->
        exists previous_sales,
          series !! (y - 1)%Z = Some previous_sales
          /\ series !! y
             = Some (previous_sales * (1 + applied_growth_rate rates product m y)))
  /\ ((0 < n)%Z -> dealer_growth_rates rates product = ∅ ->
      (forall y, (1 <= y < n)%Z -> is_Some (m !! y)) ->
      calculate_product_sales (base_sales_of dealer product) (Mapping m) (n - 1)
      = Ok series).
Proof.
  intros Hyears Hp Hm Hproj. cbv zeta.
  unfold project_sales in Hproj. rewrite Hyears in Hproj. cbn [mbind option_bind] in Hproj.
  apply (project_loop_components dealer rates scenario _ _ _ product Hp) in Hproj.
  assert (Hempty : projection_of {| sp_pmg := ∅; sp_hsd := ∅; sp_hobc := ∅; sp_lube := ∅ |}
                     product = ∅).
  { unfold projection_of. repeat destruct (decide _); reflexivity. }
  rewrite Hempty in Hproj.
  set (series := projection_of projection product) in *.
  assert (Hspec :
            (forall y, is_Some (series !! y) <-> (0 <= y < n)%Z)
            /\ ((0 < n)%Z -> series !! 0%Z = Some (base_sales_of dealer product * 365))
            /\ (forall y, (1 <= y < n)%Z ->
                  exists previous_sales,
                    series !! (y - 1)%Z = Some previous_sales
                    /\ series !! y
                       = Some (previous_sales
                               * (1 + applied_growth_rate rates product m y)))).
  { destruct (Z.le_gt_cases n 0) as [Hle|Hgt].
    - rewrite seqZ_nil in Hproj by exact Hle. cbn in Hproj. injection Hproj as <-.
      split; [|split]; [|lia|intros y Hy; lia].
      intros y. rewrite lookup_empty. split; [intros [? ?]; discriminate | lia].
    - rewrite <- (Z2Nat.id n) in Hproj by lia.
      destruct (project_series_spec _ _ _ _ m _ _ Hm Hproj) as (Hdom & Hzero & Hstep).
      rewrite Z2Nat.id in Hdom, Hstep by lia.
      split; [exact Hdom|]. split; [intros _; apply Hzero; lia | exact Hstep]. }
  destruct Hspec as (Hdom & Hzero & Hstep).
  split; [exact Hdom|]. split; [exact Hzero|]. split; [exact Hstep|].
  intros Hn Hnone Hfull.
  destruct (calculate_product_sales_compounds (base_sales_of dealer product) (Mapping m)
              (n - 1)) as (all & vol & Hall & Hvol & Hv0 & Hvstep).
  rewrite Hvol. f_equal. apply map_eq. intros y.
  pose proof (product_sales_keys _ _ _ _ Hvol y) as Hvdom.
  destruct (decide (0 <= y < n)%Z) as [Hy|Hy].
  - assert (Hnat : forall k : nat, (Z.of_nat k < n)%Z ->
               vol !! Z.of_nat k = series !! Z.of_nat k).
    { induction k as [|k IH]; intros Hk.
      - change (Z.of_nat 0) with 0%Z. rewrite Hv0, Hzero by lia. reflexivity.
      - destruct (Hvstep (Z.of_nat (S k))) as (pv & g & Hpv & Hg & Hvy); [lia|].
        destruct (Hstep (Z.of_nat (S k))) as (ps & Hps & Hsy); [lia|].
        replace (Z.of_nat (S k) - 1)%Z with (Z.of_nat k) in Hpv, Hps by lia.
        rewrite IH in Hpv by lia. rewrite Hps in Hpv. injection Hpv as <-.
        rewrite Hvy, Hsy. do 2 f_equal.
        unfold applied_growth_rate. rewrite Hnone, lookup_empty. cbn [default].
        destruct (Hfull (Z.of_nat (S k))) as [w Hw]; [lia|]. rewrite Hw. cbn [default].
        destruct (dense_table_defined (5 # 100) (Mapping m) (n - 1)) as (all' & Hall' & _).
        assert (Hkey : defined_key (as_table (5 # 100) (Mapping m) (n - 1)) (n - 1)
                         (Z.of_nat (S k))).
        { cbn [as_table]. split; [rewrite Hw; eauto | lia]. }
        pose proof (dense_table_on_schedule _ _ _ _ _ Hkey Hall) as Hf. cbn [as_table] in Hf.
        assert (Hlook : all !! Z.of_nat (S k) = Some w).
        { apply (fill_years_lookup _ _ _ Hf). split; [apply elem_of_seqZ; lia|].
          unfold interpolate_year. now rewrite Hw. }
        rewrite Hlook in Hg. now injection Hg as <-. }
    specialize (Hnat (Z.to_nat y)). rewrite Z2Nat.id in Hnat by lia. apply Hnat. lia.
  - assert (Hs : series !! y = None).
    { destruct (series !! y) eqn:E; [|reflexivity]. exfalso. apply Hy, Hdom. eauto. }
    assert (Hv : vol !! y = None).
    { destruct (vol !! y) eqn:E; [|reflexivity]. exfalso.
      destruct (proj1 Hvdom) as [?|?]; [eauto | lia | lia]. }
    now rewrite Hs, Hv.
Qed.

Lemma project_sales_series_witness :
  exists projection,
    project_sales test_dealer no_rates full_scenario = Some projection
    /\ calculate_product_sales 1000
         (Mapping {[ 1%Z := 5 # 100; 2%Z := 4 # 100; 3%Z := 3 # 100 ]}) 3
       = Ok (sp_pmg projection).
Proof.
  destruct (project_sales test_dealer no_rates full_scenario) as [projection|] eqn:E;
    [|vm_compute in E; discriminate].
  exists projection. split; [reflexivity|].
  destruct (project_sales_series test_dealer no_rates full_scenario 4 "pmg"
              {[ 1%Z := 5 # 100; 2%Z := 4 # 100; 3%Z := 3 # 100 ]} projection)
    as (_ & _ & _ & Hagree).
  - reflexivity.
  - unfold products. repeat constructor.
  - reflexivity.
  - exact E.
  - apply Hagree.
    + lia.
    + reflexivity.
    + intros y Hy.
      assert (Hcases : y = 1%Z \/ y = 2%Z \/ y = 3%Z) by lia.
      destruct Hcases as [-> | [-> | ->]]; eexists; reflexivity.
Defined.
